(** * Guyton-Klinger withdrawal simulator: the calculation engine

    A shallow embedding of [calculateSimulation] as it is written in
    [src/app.js] (dynamic table inputs) and in [src/unnamed/part_000]
    (mix-and-match data sets), and the properties of its year loop. *)

From Stdlib Require Import ZArith QArith Reals Lra Lia List Bool.
From Stdlib Require Import Floats.
Import ListNotations.

Set Implicit Arguments.
Set Warnings "-inexact-float".

(** ** JavaScript numbers

    The engine only uses [+ - * /], the comparisons [<] and [>], [Math.min],
    decimal literals, and the number [NaN] that [undefined] turns into when
    it meets an arithmetic operator.  The engine is written once against
    this interface, whose instance is IEEE 754 binary64, which is what
    the program runs on. *)

Class Number (num : Type) : Type := {
  lit : Q -> num;                  (* a decimal literal of the source text *)
  NaN : num;
  add : num -> num -> num;
  sub : num -> num -> num;
  mul : num -> num -> num;
  div : num -> num -> num;
  lt : num -> num -> bool;         (* [a < b] *)
  Math_min : num -> num -> num
}.

(** [a > b] is evaluated as [b < a]; both are [false] on [NaN]. *)
Definition gt {num} `{Number num} (a b : num) : bool := lt b a.

Declare Scope js_scope.
Delimit Scope js_scope with js.
Infix "+" := add : js_scope.
Infix "-" := sub : js_scope.
Infix "*" := mul : js_scope.
Infix "/" := div : js_scope.
Infix "<?" := lt (at level 70, no associativity) : js_scope.
Infix ">?" := gt (at level 70, no associativity) : js_scope.

(** *** IEEE 754 binary64 *)

Module Double.

Definition of_Z (z : Z) : float :=
  match z with
  | Z0 => PrimFloat.zero
  | Zpos _ => PrimFloat.of_uint63 (Uint63.of_Z z)
  | Zneg p => PrimFloat.opp (PrimFloat.of_uint63 (Uint63.of_Z (Zpos p)))
  end.

(** A decimal literal denotes the double nearest to it; for the short
    literals of this program that is the correctly rounded quotient of
    its digits by its power of ten. *)
Definition lit (q : Q) : float :=
  PrimFloat.div (of_Z (Qnum q)) (of_Z (Zpos (Qden q))).

(** [Math.min]: [NaN] if either argument is, and [-0] below [+0]. *)
Definition Math_min (x y : float) : float :=
  if PrimFloat.is_nan x || PrimFloat.is_nan y then PrimFloat.nan
  else if PrimFloat.ltb x y then x
  else if PrimFloat.ltb y x then y
  else if PrimFloat.get_sign x then x else y.

End Double.

#[export] Instance Number_double : Number float := {
  lit := Double.lit;
  NaN := PrimFloat.nan;
  add := PrimFloat.add;
  sub := PrimFloat.sub;
  mul := PrimFloat.mul;
  div := PrimFloat.div;
  lt := PrimFloat.ltb;
  Math_min := Double.Math_min
}.

(** ** Values, records and results *)

(** The adjustment rule of a year.  The source tags the years with the
    strings '初始提領' ([Initial]), '通膨' ([Inflation]), '通膨(凍結)'
    ([InflationFrozen]), '保本' ([CapitalPreservation]) and '繁榮'
    ([Prosperity]). *)
Inductive Rule : Type :=
| Initial
| Inflation
| InflationFrozen
| CapitalPreservation
| Prosperity.

(** What a property or an array element holds: a number, or [undefined]
    when it was never assigned or lies past the end of the array. *)
Inductive value (num : Type) : Type :=
| undefined
| number (n : num).
Arguments undefined {num}.

Definition ToNumber {num} `{Number num} (v : value num) : num :=
  match v with
  | undefined => NaN
  | number n => n
  end.

(** [yearData]: the object pushed for each simulated year. *)
Record yearData (num : Type) : Type := {
  year : Z;
  startWorth : num;
  inflation : value num;
  plannedWithdrawal : num;
  plannedRate : value num;
  rule : Rule;
  actualWithdrawal : num;
  actualRate : num;
  postWithdrawalBalance : num;
  returnRate : value num;
  endWorth : num
}.

(** A call returns, or throws the [TypeError] of reading a property of
    [undefined]. *)
Inductive outcome (A : Type) : Type :=
| Return (a : A)
| TypeError.
Arguments TypeError {A}.

Definition bind {A B} (c : outcome A) (k : A -> outcome B) : outcome B :=
  match c with
  | Return a => k a
  | TypeError => TypeError
  end.

Notation "x <- c ;; k" := (bind c (fun x => k))
  (at level 61, c at next level, right associativity).
Notation "' pat <- c ;; k" := (bind c (fun x => match x with pat => k end))
  (at level 61, pat pattern, c at next level, right associativity).

(** [a[i].p]: throws when [a[i]] is [undefined]. *)
Definition item {A} (a : list A) (i : nat) : outcome A :=
  match nth_error a i with
  | Some x => Return x
  | None => TypeError
  end.

(** [a[i]] on an array of numbers. *)
Definition element {num} (a : list num) (i : nat) : value num :=
  match nth_error a i with
  | Some x => number x
  | None => undefined
  end.

(** What one iteration reads from the annual data: both files run the same
    loop and differ only here. *)
Record annual (num : Type) : Type := {
  annual_year : Z;
  annual_inflation : value num;
  annual_return : value num
}.

(** ** The year loop of [calculateSimulation] *)

Section Engine.

Context {num : Type} `{Number num}.
Local Open Scope js_scope.

Variables initialAssets initialWithdrawalRate : num.

(** The annual data of iteration [i], as the surrounding function reads
    them. *)
Variable annualData : nat -> outcome (annual num).

Definition lowerGuardrail : num := initialWithdrawalRate * lit 1.2.

Definition upperGuardrail : num := initialWithdrawalRate * lit 0.8.

Definition inflationToApply (inflation : value num) : num :=
  Math_min (ToNumber inflation) (lit 6.0).

Definition plannedWithdrawalWithInflation
    (lastYearActualWithdrawal : num) (inflation : value num) : num :=
  lastYearActualWithdrawal * (lit 1 + inflationToApply inflation / lit 100).

Definition plannedRateWithInflation
    (lastYearActualWithdrawal : num) (inflation : value num)
    (startWorth : num) : num :=
  (plannedWithdrawalWithInflation lastYearActualWithdrawal inflation
     / startWorth) * lit 100.

(** The test of the inflation step:
    [prevReturn < 0 && plannedRateWithInflation > initialWithdrawalRate]. *)
Definition inflationFrozen
    (prevReturn : value num) (lastYearActualWithdrawal : num)
    (inflation : value num) (startWorth : num) : bool :=
  (ToNumber prevReturn <? lit 0)
  && (plannedRateWithInflation lastYearActualWithdrawal inflation startWorth
        >? initialWithdrawalRate).

(** The inflation step: [plannedWithdrawal] and [rule] as the first
    [if ... else] of a later year assigns them. *)
Definition inflationStep
    (prevReturn : value num) (lastYearActualWithdrawal : num)
    (inflation : value num) (startWorth : num) : num * Rule :=
  if inflationFrozen prevReturn lastYearActualWithdrawal inflation startWorth
  then (lastYearActualWithdrawal, InflationFrozen)
  else (plannedWithdrawalWithInflation lastYearActualWithdrawal inflation,
        Inflation).

(** The guardrails: [rule] and [actualWithdrawal] after the second
    [if ... else if], which starts from the rule of the inflation step and
    [actualWithdrawal = plannedWithdrawal]. *)
Definition guardrails
    (plannedRate plannedWithdrawal : num) (rule : Rule) : Rule * num :=
  if plannedRate >? lowerGuardrail then
    (CapitalPreservation, plannedWithdrawal * lit 0.9)
  else if plannedRate <? upperGuardrail then
    (Prosperity, plannedWithdrawal * lit 1.1)
  else
    (rule, plannedWithdrawal).

(** The loop state: the array [simulationData] and the variable
    [lastYearActualWithdrawal]. *)
Definition state : Type := (list (yearData num) * num)%type.

(** The body of [for (let i = 0; i < simulationYears; i++)]. *)
Definition loopBody (i : nat) (st : state) : outcome state :=
  let '(simulationData, lastYearActualWithdrawal) := st in
  data <- annualData i ;;
  startWorth <-
    (if Nat.eqb i 0 then Return initialAssets
     else prev <- item simulationData (i - 1) ;; Return (endWorth prev)) ;;
  '(inflation, plannedWithdrawal, plannedRate, rule, actualWithdrawal) <-
    (if Nat.eqb i 0 then
       let inflation := number (lit 0) in
       let plannedWithdrawal := lastYearActualWithdrawal in
       let rule := Initial in
       let actualWithdrawal := plannedWithdrawal in
       Return (inflation, plannedWithdrawal, undefined, rule,
               actualWithdrawal)
     else
       let inflation := annual_inflation data in
       prev <- item simulationData (i - 1) ;;
       let prevReturn := returnRate prev in
       let '(plannedWithdrawal, rule) :=
         inflationStep prevReturn lastYearActualWithdrawal inflation
           startWorth in
       let plannedRate := (plannedWithdrawal / startWorth) * lit 100 in
       let '(rule, actualWithdrawal) :=
         guardrails plannedRate plannedWithdrawal rule in
       Return (inflation, plannedWithdrawal, number plannedRate, rule,
               actualWithdrawal)) ;;
  let actualRate := (actualWithdrawal / startWorth) * lit 100 in
  let postWithdrawalBalance := startWorth - actualWithdrawal in
  let returnRate := annual_return data in
  let endWorth :=
    postWithdrawalBalance * (lit 1 + ToNumber returnRate / lit 100) in
  let yearData :=
    {| year := annual_year data;
       startWorth := startWorth;
       inflation := inflation;
       plannedWithdrawal := plannedWithdrawal;
       plannedRate := plannedRate;
       rule := rule;
       actualWithdrawal := actualWithdrawal;
       actualRate := actualRate;
       postWithdrawalBalance := postWithdrawalBalance;
       returnRate := returnRate;
       endWorth := endWorth |} in
  Return (simulationData ++ [yearData], actualWithdrawal).

(** The record one iteration pushes, branch by branch: the statements
    after the [if (i === 0) ... else ...], then the two branches. *)
Definition finalize
    (data : annual num) (startWorth : num) (inflation : value num)
    (plannedWithdrawal : num) (plannedRate : value num) (rule : Rule)
    (actualWithdrawal : num) : yearData num :=
  let postWithdrawalBalance := startWorth - actualWithdrawal in
  {| year := annual_year data;
     startWorth := startWorth;
     inflation := inflation;
     plannedWithdrawal := plannedWithdrawal;
     plannedRate := plannedRate;
     rule := rule;
     actualWithdrawal := actualWithdrawal;
     actualRate := (actualWithdrawal / startWorth) * lit 100;
     postWithdrawalBalance := postWithdrawalBalance;
     returnRate := annual_return data;
     endWorth :=
       postWithdrawalBalance
       * (lit 1 + ToNumber (annual_return data) / lit 100) |}.

Definition firstYear
    (data : annual num) (lastYearActualWithdrawal : num) : yearData num :=
  finalize data initialAssets (number (lit 0)) lastYearActualWithdrawal
    undefined Initial lastYearActualWithdrawal.

Definition laterYear
    (data : annual num) (prev : yearData num)
    (lastYearActualWithdrawal : num) : yearData num :=
  let startWorth := endWorth prev in
  let inflation := annual_inflation data in
  let planned :=
    inflationStep (returnRate prev) lastYearActualWithdrawal inflation
      startWorth in
  let plannedRate := (fst planned / startWorth) * lit 100 in
  let actual := guardrails plannedRate (fst planned) (snd planned) in
  finalize data startWorth inflation (fst planned) (number plannedRate)
    (fst actual) (snd actual).

(** [n] more iterations from index [i]. *)
Fixpoint forLoop (n i : nat) (st : state) : outcome state :=
  match n with
  | O => Return st
  | S n' => st' <- loopBody i st ;; forLoop n' (S i) st'
  end.

(** The whole function.  [simulationYears] comes from [parseInt]; the
    loop runs while [i < simulationYears], so not at all when it is zero
    or negative. *)
Definition simulate (simulationYears : Z) : outcome (list (yearData num)) :=
  let simulationData := [] in
  let lastYearActualWithdrawal :=
    initialAssets * (initialWithdrawalRate / lit 100) in
  st <- forLoop (Z.to_nat simulationYears) 0
          (simulationData, lastYearActualWithdrawal) ;;
  Return (fst st).

(** What the loop maintains.  [chained]: the first record is the initial
    year's, and every later record is built from the record before it, the
    withdrawal carried over being that record's [actualWithdrawal].
    [carried]: the value of [lastYearActualWithdrawal] when iteration [i]
    starts. *)
Definition chained (simulationData : list (yearData num)) : Prop :=
  (forall r,
      nth_error simulationData 0 = Some r ->
      exists data,
        annualData 0 = Return data /\
        r = firstYear data (initialAssets * (initialWithdrawalRate / lit 100)))
  /\
  (forall i prev r,
      nth_error simulationData i = Some prev ->
      nth_error simulationData (S i) = Some r ->
      exists data,
        annualData (S i) = Return data /\
        r = laterYear data prev (actualWithdrawal prev)).

Definition carried (i : nat) (st : state) : Prop :=
  match i with
  | O => snd st = initialAssets * (initialWithdrawalRate / lit 100)
  | S j =>
      exists prev,
        nth_error (fst st) j = Some prev /\ snd st = actualWithdrawal prev
  end.

Definition invariant (i : nat) (st : state) : Prop :=
  length (fst st) = i /\ chained (fst st) /\ carried i st.

End Engine.

(** ** [src/app.js]: returns and inflations in two arrays *)

Module App.
Section App.

Context {num : Type} `{Number num}.

Record params : Type := {
  initialAssets : num;
  initialWithdrawalRate : num;
  simulationYears : Z;
  annualReturns : list num;
  annualInflations : list num
}.

(** [yearData.year = i], [annualInflations[i]], [annualReturns[i]]. *)
Definition annualData (p : params) (i : nat) : outcome (annual num) :=
  Return {| annual_year := Z.of_nat i;
            annual_inflation := element (annualInflations p) i;
            annual_return := element (annualReturns p) i |}.

Definition calculateSimulation (p : params) : outcome (list (yearData num)) :=
  simulate (initialAssets p) (initialWithdrawalRate p) (annualData p)
    (simulationYears p).

End App.
Arguments params num : clear implicits.
End App.

(** ** [src/unnamed/part_000]: one array of [{year, return, inflation}] *)

Module MixMatch.
Section MixMatch.

Context {num : Type} `{Number num}.

Record AnnualDatum : Type := {
  year : Z;
  return_ : num;
  inflation : num
}.

Record params : Type := {
  initialAssets : num;
  initialWithdrawalRate : num;
  simulationYears : Z;
  annualData : list AnnualDatum
}.

(** [annualData[i].year], [annualData[i].inflation],
    [annualData[i].return]: the first of them throws when the array has
    no element [i]. *)
Definition annualData_at (p : params) (i : nat) : outcome (annual num) :=
  d <- item (annualData p) i ;;
  Return {| annual_year := year d;
            annual_inflation := number (inflation d);
            annual_return := number (return_ d) |}.

Definition calculateSimulation (p : params) : outcome (list (yearData num)) :=
  simulate (initialAssets p) (initialWithdrawalRate p) (annualData_at p)
    (simulationYears p).

End MixMatch.
Arguments AnnualDatum num : clear implicits.
Arguments params num : clear implicits.
End MixMatch.

(** ** Concrete runs *)

Module Scenario.

(** Scenario A of the specification: one year. *)
Definition single : App.params float :=
  {| App.initialAssets := 1000000%float;
     App.initialWithdrawalRate := 5%float;
     App.simulationYears := 1;
     App.annualReturns := [10%float];
     App.annualInflations := [0%float] |}.

(** Scenario B of the specification: a return of -5 in the initial year and
    an inflation of 5 in the second. *)
Definition freeze : App.params float :=
  {| App.initialAssets := 1000000%float;
     App.initialWithdrawalRate := 5%float;
     App.simulationYears := 2;
     App.annualReturns := [(-5)%float; 3%float];
     App.annualInflations := [0%float; 5%float] |}.

(** Scenario B with an initial withdrawal rate of 15. *)
Definition freeze_cut : App.params float :=
  {| App.initialAssets := 1000000%float;
     App.initialWithdrawalRate := 15%float;
     App.simulationYears := 2;
     App.annualReturns := [(-5)%float; 3%float];
     App.annualInflations := [0%float; 5%float] |}.

(** A return of 10 in the initial year and an inflation of 8 in the
    second. *)
Definition capped : App.params float :=
  {| App.initialAssets := 1000000%float;
     App.initialWithdrawalRate := 5%float;
     App.simulationYears := 2;
     App.annualReturns := [10%float; 3%float];
     App.annualInflations := [0%float; 8%float] |}.

(** Two years of an inflation of -200 after the initial year. *)
Definition deflation : App.params float :=
  {| App.initialAssets := 1000000%float;
     App.initialWithdrawalRate := 5%float;
     App.simulationYears := 3;
     App.annualReturns := [(-5)%float; (-5)%float; 3%float];
     App.annualInflations := [0%float; (-200)%float; (-200)%float] |}.

(** No year to simulate. *)
Definition no_year : App.params float :=
  {| App.initialAssets := 1000000%float;
     App.initialWithdrawalRate := 5%float;
     App.simulationYears := 0;
     App.annualReturns := [];
     App.annualInflations := [] |}.

(** Numbers that are not finite. *)
Definition not_finite : App.params float :=
  {| App.initialAssets := PrimFloat.nan;
     App.initialWithdrawalRate := 5%float;
     App.simulationYears := 1;
     App.annualReturns := [PrimFloat.infinity];
     App.annualInflations := [0%float] |}.

(** Two years asked for, the data of one. *)
Definition short : App.params float :=
  {| App.initialAssets := 1000000%float;
     App.initialWithdrawalRate := 5%float;
     App.simulationYears := 2;
     App.annualReturns := [10%float];
     App.annualInflations := [0%float] |}.

Definition short_data : MixMatch.params float :=
  {| MixMatch.initialAssets := 1000000%float;
     MixMatch.initialWithdrawalRate := 5%float;
     MixMatch.simulationYears := 2;
     MixMatch.annualData :=
       [ {| MixMatch.year := 2000;
            MixMatch.return_ := 10%float;
            MixMatch.inflation := 0%float |} ] |}.

(** Withdrawals near the largest double. *)
Definition overflow : App.params float :=
  {| App.initialAssets := 0.85e308%float;
     App.initialWithdrawalRate := 200%float;
     App.simulationYears := 2;
     App.annualReturns := [(-310)%float; 0%float];
     App.annualInflations := [0%float; 6%float] |}.

(** A rate and withdrawals among the subnormal doubles. *)
Definition subnormal : App.params float :=
  {| App.initialAssets := 9%float;
     App.initialWithdrawalRate := 3e-322%float;
     App.simulationYears := 3;
     App.annualReturns := [200%float; (-22)%float; 0%float];
     App.annualInflations := [0%float; 0%float; 6%float] |}.

(** What [calculateSimulation] of [src/app.js] returns, [[]] standing for
    a throw. *)
Definition records {num : Type} `{Number num} (p : App.params num)
  : list (yearData num) :=
  match App.calculateSimulation p with
  | Return simulationData => simulationData
  | TypeError => []
  end.

Definition freeze_records : list (yearData float) :=
  Eval vm_compute in records freeze.

Definition freeze_cut_records : list (yearData float) :=
  Eval vm_compute in records freeze_cut.

Definition capped_records : list (yearData float) :=
  Eval vm_compute in records capped.

End Scenario.

(** ** [src/unnamed/part_000]: merging two data sets by year *)

(** A [Map] keyed by year: its entries in insertion order, one per key.
    [set] replaces the value of a key that is there and appends a new key;
    [new Map(entries)] sets the entries one after the other. *)
Module JSMap.

Definition t (V : Type) : Type := list (Z * V).

Definition has {V : Type} (m : t V) (key : Z) : bool :=
  existsb (fun e => Z.eqb (fst e) key) m.

Definition get {V : Type} (m : t V) (key : Z) : value V :=
  match find (fun e => Z.eqb (fst e) key) m with
  | Some e => number (snd e)
  | None => undefined
  end.

Definition set {V : Type} (m : t V) (key : Z) (v : V) : t V :=
  if has m key
  then map (fun e => if Z.eqb (fst e) key then (key, v) else e) m
  else m ++ [(key, v)].

Definition of_entries {V : Type} (entries : list (Z * V)) : t V :=
  fold_left (fun m e => set m (fst e) (snd e)) entries [].

End JSMap.

Module Datasets.

(** An element of an investment data set and of an inflation data set. *)
Record InvestmentItem (num : Type) : Type := {
  investment_year : Z;
  investment_return : num
}.

Record InflationItem (num : Type) : Type := {
  inflation_year : Z;
  inflation_value : num
}.

(** An element of [combined]: [{year, return, inflation}], the inflation
    being what [inflationMap.get] returned. *)
Record CombinedItem (num : Type) : Type := {
  year : Z;
  return_ : num;
  inflation : value num
}.

Section Datasets.

Context {num : Type}.

Definition combineData
    (investmentData : list (InvestmentItem num))
    (inflationData : list (InflationItem num)) : list (CombinedItem num) :=
  let inflationMap :=
    JSMap.of_entries
      (map (fun item => (inflation_year item, inflation_value item))
         inflationData) in
  fold_left
    (fun combined investmentItem =>
       if JSMap.has inflationMap (investment_year investmentItem) then
         combined ++
         [ {| year := investment_year investmentItem;
              return_ := investment_return investmentItem;
              inflation :=
                JSMap.get inflationMap (investment_year investmentItem) |} ]
       else combined)
    investmentData [].

(** The inflation of the last element of [inflationData] for a year. *)
Definition lastInflation
    (inflationData : list (InflationItem num)) (y : Z) : value num :=
  match find (fun item => Z.eqb (inflation_year item) y) (rev inflationData)
  with
  | Some item => number (inflation_value item)
  | None => undefined
  end.

Definition inInflationData
    (inflationData : list (InflationItem num)) (y : Z) : bool :=
  existsb (fun item => Z.eqb (inflation_year item) y) inflationData.

End Datasets.

End Datasets.


(** ** The two files side by side *)

Module Sides.

(** The arrays [src/app.js] would be given for the data of
    [src/unnamed/part_000]. *)
Definition arrays {num : Type} (p : MixMatch.params num) : App.params num :=
  {| App.initialAssets := MixMatch.initialAssets p;
     App.initialWithdrawalRate := MixMatch.initialWithdrawalRate p;
     App.simulationYears := MixMatch.simulationYears p;
     App.annualReturns := map (@MixMatch.return_ num) (MixMatch.annualData p);
     App.annualInflations :=
       map (@MixMatch.inflation num) (MixMatch.annualData p) |}.

(** A record without its year label. *)
Definition unlabelled {num : Type} (r : yearData num) : yearData num :=
  {| year := 0;
     startWorth := startWorth r;
     inflation := inflation r;
     plannedWithdrawal := plannedWithdrawal r;
     plannedRate := plannedRate r;
     rule := rule r;
     actualWithdrawal := actualWithdrawal r;
     actualRate := actualRate r;
     postWithdrawalBalance := postWithdrawalBalance r;
     returnRate := returnRate r;
     endWorth := endWorth r |}.

End Sides.


(** ** The pages around the engine

    What the handlers read from the page is given as [parseFloat] and
    [parseInt] return it: a double for a field or a cell, an integer or
    [NaN] for the number of years. *)

(** The result of [parseInt(text, 10)]. *)
Inductive parsedInt : Type :=
| NotAnInteger
| Integer (z : Z).

(** What a handler's [try] block can throw: the [TypeError] of a missing
    element, the error that names the year of an invalid row, the error
    of having no data. *)
Inductive exception : Type :=
| TypeErrorThrown
| InvalidYear (year : Z)
| NoData.

Inductive attempt (A : Type) : Type :=
| Done (a : A)
| Thrown (e : exception).
Arguments Thrown {A}.

(** What a submission ends in: [displayResults(results)], or the [catch]
    block (an alert of the error, the results container emptied). *)
Inductive reaction : Type :=
| Displayed (results : list (yearData float))
| Alerted (e : exception).

(** How many times [for (let i = 0; i < simulationYears; i++)] runs, and
    the bound as [calculateSimulation] compares with it ([i < NaN] fails
    like [i < 0]). *)
Definition iterations (simulationYears : parsedInt) : nat :=
  match simulationYears with
  | NotAnInteger => O
  | Integer z => Z.to_nat z
  end.

Definition bound (simulationYears : parsedInt) : Z :=
  match simulationYears with
  | NotAnInteger => 0
  | Integer z => z
  end.

(** A finite number other than [-0].  Printed by a template string it is
    a decimal numeral that denotes it, so [parseFloat] reads it back. *)
Definition plain (x : float) : bool :=
  PrimFloat.is_finite x && negb (PrimFloat.Leibniz.eqb x PrimFloat.neg_zero).

(** A zero of either sign, or [NaN]: what a product by zero is. *)
Definition zeroOrNaN (x : float) : bool :=
  PrimFloat.is_zero x || PrimFloat.is_nan x.


(** *** [src/app.js] *)

Module AppPage.

(** The fields [#initialAssets], [#initialWithdrawalRate] and
    [#simulationYears], and the rows of the table: row [i] holds the
    inputs [#return-year-i] and [#inflation-year-i]. *)
Record page : Type := {
  initialAssets : float;
  initialWithdrawalRate : float;
  simulationYears : parsedInt;
  table : list (float * float)
}.

Definition defaultReturns : list float :=
  [-7.08; -11.22; -31.91; 11.79; 7.33; 28.59; 8.86; 0.36; -38.49; 30.81;
   22.06; -3.82; 14.54; 18.10; 18.94; 9.47; 12.05; 9.54; -4.61; 29.74;
   6.95; 28.97; -12.88; 18.54; 25.64]%float.

Definition defaultInflations : list float :=
  [0; 3.4; 2.8; 1.6; 2.3; 2.7; 3.4; 3.2; 2.9; 3.8; -0.4; 1.6; 3.2; 2.1;
   1.5; 1.6; 0.1; 1.3; 2.1; 2.4; 1.8; 1.2; 4.7; 8.0; 4.1]%float.

(** [defaults[i] !== undefined ? defaults[i] : fallback]. *)
Definition orDefault (defaults : list float) (i : nat) (fallback : float)
  : float :=
  match nth_error defaults i with
  | Some x => x
  | None => fallback
  end.

(** [generateInputTable]: the table after the call.  Nothing changes when
    the number of years ([parseInt(...) || 0]) is not within 1..100.
    [reread] is what [parseFloat] reads from an input whose [value] was
    printed from a number. *)
Definition generateInputTable (reread : value float -> float) (p : page)
  : list (float * float) :=
  let years := match simulationYears p with
               | NotAnInteger => 0%Z
               | Integer z => z
               end in
  if (years <=? 0)%Z || (years >? 100)%Z then table p
  else
    map (fun i =>
           let returnValue := orDefault defaultReturns i 7 in
           let inflationValue := orDefault defaultInflations i 2 in
           (reread (number returnValue), reread (number inflationValue)))
      (seq 0 (Z.to_nat years)).

(** The loop of the handler that reads the table into [annualReturns] and
    [annualInflations]. *)
Fixpoint readTable (n i : nat) (table : list (float * float))
    (annualReturns annualInflations : list float)
  : attempt (list float * list float) :=
  match n with
  | O => Done (annualReturns, annualInflations)
  | S n' =>
      match nth_error table i with
      | None => Thrown TypeErrorThrown
      | Some (retVal, infVal) =>
          if PrimFloat.is_nan retVal || PrimFloat.is_nan infVal then
            Thrown (InvalidYear (2000 + Z.of_nat i))
          else
            readTable n' (S i) table
              (annualReturns ++ [retVal]) (annualInflations ++ [infVal])
      end
  end.

Definition runSimulationHandler (p : page) : reaction :=
  match readTable (iterations (simulationYears p)) 0 (table p) [] [] with
  | Thrown e => Alerted e
  | Done (annualReturns, annualInflations) =>
      match App.calculateSimulation
              {| App.initialAssets := initialAssets p;
                 App.initialWithdrawalRate := initialWithdrawalRate p;
                 App.simulationYears := bound (simulationYears p);
                 App.annualReturns := annualReturns;
                 App.annualInflations := annualInflations |}
      with
      | Return results => Displayed results
      | TypeError => Alerted TypeErrorThrown
      end
  end.

(** A row the handler accepts: neither cell reads as [NaN]. *)
Definition accepted (r : float * float) : bool :=
  negb (PrimFloat.is_nan (fst r) || PrimFloat.is_nan (snd r)).

(** The rows below [n] are there and accepted. *)
Definition readable (n : nat) (table : list (float * float)) : Prop :=
  forall k, (k < n)%nat ->
    exists r, nth_error table k = Some r /\ accepted r = true.

End AppPage.

(** *** [src/unnamed/part_000] *)

Module MixPage.

(** Row [i] of the table as the handler reads it: the year that
    [parseInt] reads in its first cell, then what [parseFloat] reads in
    the inputs [#return-year-i] and [#inflation-year-i]. *)
Record row : Type := {
  year : Z;
  retVal : float;
  infVal : float
}.

Record page : Type := {
  initialAssets : float;
  initialWithdrawalRate : float;
  simulationYears : parsedInt;
  table : list row
}.

(** [generateInputTable(annualData)]: a row per element, and no row at
    all for empty data (a message instead).  The year is printed into
    the first cell, from which the handler reads it back with
    [parseInt]: [rereadYear] is what [parseInt] reads from a cell a year
    was printed into.  [reread] is what [parseFloat] reads from an input
    whose [value] was printed from a value. *)
Definition generateInputTable (rereadYear : Z -> Z)
    (reread : value float -> float)
    (annualData : list (Datasets.CombinedItem float)) : list row :=
  map (fun data =>
         {| year := rereadYear (Datasets.year data);
            retVal := reread (number (Datasets.return_ data));
            infVal := reread (Datasets.inflation data) |})
    annualData.

(** [updateForm] once the two data sets are loaded: the number of years
    is set to the length of the combined data and the table is
    generated from them. *)
Definition updateForm (rereadYear : Z -> Z) (reread : value float -> float)
    (p : page)
    (investmentData : list (Datasets.InvestmentItem float))
    (inflationData : list (Datasets.InflationItem float)) : page :=
  let combinedData := Datasets.combineData investmentData inflationData in
  {| initialAssets := initialAssets p;
     initialWithdrawalRate := initialWithdrawalRate p;
     simulationYears := Integer (Z.of_nat (length combinedData));
     table := generateInputTable rereadYear reread combinedData |}.

Fixpoint readTable (n i : nat) (table : list row)
    (annualData : list (MixMatch.AnnualDatum float))
  : attempt (list (MixMatch.AnnualDatum float)) :=
  match n with
  | O => Done annualData
  | S n' =>
      match nth_error table i with
      | None => Thrown TypeErrorThrown
      | Some r =>
          if PrimFloat.is_nan (retVal r) || PrimFloat.is_nan (infVal r) then
            Thrown (InvalidYear (year r))
          else
            readTable n' (S i) table
              (annualData ++
               [ {| MixMatch.year := year r;
                    MixMatch.return_ := retVal r;
                    MixMatch.inflation := infVal r |} ])
      end
  end.

Definition runSimulationHandler (p : page) : reaction :=
  match simulationYears p with
  | Integer 0 => Alerted NoData
  | _ =>
      match readTable (iterations (simulationYears p)) 0 (table p) [] with
      | Thrown e => Alerted e
      | Done annualData =>
          match MixMatch.calculateSimulation
                  {| MixMatch.initialAssets := initialAssets p;
                     MixMatch.initialWithdrawalRate :=
                       initialWithdrawalRate p;
                     MixMatch.simulationYears := bound (simulationYears p);
                     MixMatch.annualData := annualData |}
          with
          | Return results => Displayed results
          | TypeError => Alerted TypeErrorThrown
          end
      end
  end.

(** A row the handler accepts: neither input reads as [NaN]. *)
Definition accepted (r : row) : bool :=
  negb (PrimFloat.is_nan (retVal r) || PrimFloat.is_nan (infVal r)).

(** The rows below [n] are there and accepted. *)
Definition readable (n : nat) (table : list row) : Prop :=
  forall k, (k < n)%nat ->
    exists r, nth_error table k = Some r /\ accepted r = true.

(** The element of [annualData] the handler pushes for a row. *)
Definition datum (r : row) : MixMatch.AnnualDatum float :=
  {| MixMatch.year := year r;
     MixMatch.return_ := retVal r;
     MixMatch.inflation := infVal r |}.


End MixPage.

(** *** What [displayResults] prints *)

Module Display.

(** [num || 0]: zero for [undefined], [NaN] and a zero. *)
Definition orZero (num : value float) : float :=
  match num with
  | undefined => 0%float
  | number x =>
      if PrimFloat.is_nan x || PrimFloat.eqb x 0 then 0%float else x
  end.

(** A cell that shows a percentage: ['N/A'], or [formatPercent(num)],
    which prints [(num || 0).toFixed(2)]. *)
Inductive percentCell : Type :=
| NA
| Percent (shown : float).

Definition formatPercent (num : value float) : percentCell :=
  Percent (orZero num).

(** The inflation cell: [data.year > 0 ? formatPercent(data.inflation) :
    'N/A'] in [src/app.js], [data.inflation !== 0 ? ... : 'N/A'] in
    [src/unnamed/part_000]. *)
Definition inflationCell_app (data : yearData float) : percentCell :=
  if (year data >? 0)%Z then formatPercent (inflation data) else NA.

Definition inflationCell_mix (data : yearData float) : percentCell :=
  match inflation data with
  | number x =>
      if PrimFloat.eqb x 0 then NA else formatPercent (inflation data)
  | undefined => formatPercent (inflation data)
  end.

(** The planned-rate cell, [formatPercent(data.plannedRate)] in both
    files. *)
Definition plannedRateCell (data : yearData float) : percentCell :=
  formatPercent (plannedRate data).

End Display.


(** ** More concrete runs, pages and data sets *)

Module Examples.

(** Three years of [src/unnamed/part_000], the second with an inflation
    of zero. *)
Definition mix : MixMatch.params float :=
  {| MixMatch.initialAssets := 1000000%float;
     MixMatch.initialWithdrawalRate := 5%float;
     MixMatch.simulationYears := 3;
     MixMatch.annualData :=
       [ {| MixMatch.year := 2000;
            MixMatch.return_ := (-5)%float;
            MixMatch.inflation := 1.5%float |};
         {| MixMatch.year := 2001;
            MixMatch.return_ := 3%float;
            MixMatch.inflation := 0%float |};
         {| MixMatch.year := 2002;
            MixMatch.return_ := 4%float;
            MixMatch.inflation := 2.5%float |} ] |}.

(** Assets that are not a number. *)
Definition lost : App.params float :=
  {| App.initialAssets := PrimFloat.nan;
     App.initialWithdrawalRate := 5%float;
     App.simulationYears := 3;
     App.annualReturns := [10%float; (-5)%float; 3%float];
     App.annualInflations := [0%float; 2%float; 8%float] |}.

(** No assets. *)
Definition nothing : App.params float :=
  {| App.initialAssets := 0%float;
     App.initialWithdrawalRate := 5%float;
     App.simulationYears := 3;
     App.annualReturns := [10%float; (-5)%float; 3%float];
     App.annualInflations := [0%float; 2%float; 8%float] |}.

(** A return of 50 in the initial year and an inflation of 8 in the
    second. *)
Definition raised : App.params float :=
  {| App.initialAssets := 1000000%float;
     App.initialWithdrawalRate := 5%float;
     App.simulationYears := 2;
     App.annualReturns := [50%float; 3%float];
     App.annualInflations := [0%float; 8%float] |}.

(** Pages of [src/app.js]: two years asked for and a table of one row;
    a row with an empty cell; 150 years and no table; 30 years and no
    table yet. *)
Definition short_page : AppPage.page :=
  {| AppPage.initialAssets := 1000000%float;
     AppPage.initialWithdrawalRate := 5%float;
     AppPage.simulationYears := Integer 2;
     AppPage.table := [(10%float, 0%float)] |}.

Definition empty_cell_page : AppPage.page :=
  {| AppPage.initialAssets := 1000000%float;
     AppPage.initialWithdrawalRate := 5%float;
     AppPage.simulationYears := Integer 2;
     AppPage.table := [(10%float, 0%float); (PrimFloat.nan, 2%float)] |}.

Definition beyond_page : AppPage.page :=
  {| AppPage.initialAssets := 1000000%float;
     AppPage.initialWithdrawalRate := 5%float;
     AppPage.simulationYears := Integer 150;
     AppPage.table := [] |}.

Definition thirty_page : AppPage.page :=
  {| AppPage.initialAssets := 1000000%float;
     AppPage.initialWithdrawalRate := 4%float;
     AppPage.simulationYears := Integer 30;
     AppPage.table := [] |}.

(** Pages of [src/unnamed/part_000]: two rows as loaded; the same with an
    empty cell in the second row; a page before any data is loaded. *)
Definition mix_page : MixPage.page :=
  {| MixPage.initialAssets := 1000000%float;
     MixPage.initialWithdrawalRate := 5%float;
     MixPage.simulationYears := Integer 2;
     MixPage.table :=
       [ {| MixPage.year := 1990; MixPage.retVal := (-3.1)%float;
            MixPage.infVal := 5.4%float |};
         {| MixPage.year := 1991; MixPage.retVal := 30.5%float;
            MixPage.infVal := 4.2%float |} ] |}.

Definition mix_empty_cell_page : MixPage.page :=
  {| MixPage.initialAssets := 1000000%float;
     MixPage.initialWithdrawalRate := 5%float;
     MixPage.simulationYears := Integer 2;
     MixPage.table :=
       [ {| MixPage.year := 1990; MixPage.retVal := (-3.1)%float;
            MixPage.infVal := 5.4%float |};
         {| MixPage.year := 1991; MixPage.retVal := PrimFloat.nan;
            MixPage.infVal := 4.2%float |} ] |}.

Definition mix_blank_page : MixPage.page :=
  {| MixPage.initialAssets := 1000000%float;
     MixPage.initialWithdrawalRate := 5%float;
     MixPage.simulationYears := NotAnInteger;
     MixPage.table := [] |}.

(** Two data sets that share the years 1990 and 1991; the inflation data
    give 1991 twice. *)
Definition investments : list (Datasets.InvestmentItem float) :=
  [ {| Datasets.investment_year := 1989;
       Datasets.investment_return := 31.7%float |};
    {| Datasets.investment_year := 1990;
       Datasets.investment_return := (-3.1)%float |};
    {| Datasets.investment_year := 1991;
       Datasets.investment_return := 30.5%float |} ].

Definition inflations : list (Datasets.InflationItem float) :=
  [ {| Datasets.inflation_year := 1990;
       Datasets.inflation_value := 5.4%float |};
    {| Datasets.inflation_year := 1991;
       Datasets.inflation_value := 3.1%float |};
    {| Datasets.inflation_year := 1992;
       Datasets.inflation_value := 3.0%float |};
    {| Datasets.inflation_year := 1991;
       Datasets.inflation_value := 4.2%float |} ].

(** A reading of the inputs of type [number]: a plain number is printed
    and read back as itself, [-0] is printed as [0], and what the input
    does not take as a number ([Infinity], [NaN], [undefined]) leaves it
    empty, which [parseFloat] reads as [NaN]. *)
Definition numberInput (v : value float) : float :=
  match v with
  | number x =>
      if plain x then x
      else if PrimFloat.is_zero x then 0%float
      else PrimFloat.nan
  | undefined => PrimFloat.nan
  end.

(** A reading of the year cell: a year below [10^21] in absolute value
    is printed in decimal digits, which [parseInt] reads back as the
    year; a larger one is printed in exponent notation, of which
    [parseInt] reads the digits before the point only: the year [10^21]
    is printed as [1e+21] and read back as 1, which this reading gives
    for every such year. *)
Definition yearCell (y : Z) : Z :=
  if (Z.abs y <? 10 ^ 21)%Z then y else Z.sgn y.

Definition records {num : Type} `{Number num} (p : MixMatch.params num)
  : list (yearData num) :=
  match MixMatch.calculateSimulation p with
  | Return simulationData => simulationData
  | TypeError => []
  end.

Definition mix_records : list (yearData float) :=
  Eval vm_compute in records mix.

Definition lost_records : list (yearData float) :=
  Eval vm_compute in Scenario.records lost.

Definition nothing_records : list (yearData float) :=
  Eval vm_compute in Scenario.records nothing.

Definition raised_records : list (yearData float) :=
  Eval vm_compute in Scenario.records raised.

End Examples.


(** ** The values of the doubles

    What the operations on doubles compute, in real numbers: the value
    of a double, the position of a real number between two multiples of
    a power of two, and its rounding to nearest, ties to even, in
    binary64 (53 bits, exponents from -1074 to 971). *)

Module Rounding.

Local Open Scope R_scope.

(** [2^e]. *)
Definition bpow (e : Z) : R := powerRZ 2 e.

(** The value of the sign [s], the mantissa [m] and the exponent [e]. *)
Definition F2R (s : bool) (m e : Z) : R :=
  (if s then -1 else 1) * IZR m * bpow e.

(** The position [l] of [r] between [m * 2^e] and [(m + 1) * 2^e]: on
    the first, below the middle, in the middle or above it. *)
Definition located (r : R) (m e : Z) (l : location) : Prop :=
  match l with
  | loc_Exact => r = IZR m * bpow e
  | loc_Inexact Lt => IZR m * bpow e < r < (IZR m + / 2) * bpow e
  | loc_Inexact Eq => r = (IZR m + / 2) * bpow e
  | loc_Inexact Gt => (IZR m + / 2) * bpow e < r < (IZR m + 1) * bpow e
  end.

(** The exponent of the format for a number of magnitude [2^e]. *)
Definition fexp64 (e : Z) : Z := Z.max (e - 53) (-1074).

(** A mantissa at the exponent of the format. *)
Definition canon (m e : Z) : Prop :=
  (0 <= m)%Z /\ e = fexp64 (Zdigits2 m + e).

(** What [binary_round_aux] returns for a rounded mantissa [M] at the
    canonical exponent [E]. *)
Definition pack (s : bool) (M E : Z) : spec_float :=
  if (M =? 0)%Z then S754_zero s
  else if (M <? 2 ^ 53)%Z then
    if (E <=? 971)%Z then S754_finite s (Z.to_pos M) E else S754_infinity s
  else
    if (E + 1 <=? 971)%Z then S754_finite s (Z.to_pos (2 ^ 52)) (E + 1)
    else S754_infinity s.

(** [M] at exponent [E] is the rounding to nearest, ties to even, of the
    positive number [r] in the format. *)
Definition rnd (r : R) (M E : Z) : Prop :=
  exists m l, canon m E /\ located r m E l /\ M = round_nearest_even m l.

(** The value of a double, an infinity being placed at [2^1024]. *)
Definition SF2R (x : spec_float) : R :=
  match x with
  | S754_finite s m e => F2R s (Z.pos m) e
  | S754_infinity s => F2R s 1 1024
  | _ => 0
  end.

Definition is_nan_SF (x : spec_float) : bool :=
  match x with S754_nan => true | _ => false end.

(** The double that the real number [t] rounds to. *)
Definition rounds (t : R) (z : spec_float) : Prop :=
  (t = 0 /\ exists s, z = S754_zero s) \/
  (0 < t /\ exists M E, rnd t M E /\ z = pack false M E) \/
  (t < 0 /\ exists M E, rnd (- t) M E /\ z = pack true M E).

(** The value of a primitive double. *)
Definition B2R (x : float) : R := SF2R (Prim2SF x).

(** A normal number: finite, not zero and not subnormal. *)
Definition normal (x : float) : bool :=
  match PrimFloat.classify x with
  | PNormal | NNormal => true
  | _ => false
  end.

(** Neither an infinity nor [NaN]. *)
Definition finite_or_zero (x : spec_float) : bool :=
  match x with
  | S754_zero _ | S754_finite _ _ _ => true
  | _ => false
  end.

(** The relative error of a rounding to a normal number: [2^-53]. *)
Definition eps : R := bpow (-53).

End Rounding.


(** * Properties *)

(** The literals of the source are the doubles JavaScript reads them as. *)
Example lit_double :
  map Double.lit [1.2; 0.8; 6.0; 100; 0.9; 1.1; 1; 0]%Q
  = [1.2; 0.8; 6; 100; 0.9; 1.1; 1; 0]%float.
Proof. reflexivity. Qed.

(** ** The loop, iteration by iteration *)

Section EngineFacts.

Context {num : Type} `{Number num}.
Local Open Scope js_scope.

Variables initialAssets initialWithdrawalRate : num.
Variable annualData : nat -> outcome (annual num).

Local Abbreviation loopBody :=
  (loopBody initialAssets initialWithdrawalRate annualData).
Local Abbreviation forLoop :=
  (forLoop initialAssets initialWithdrawalRate annualData).
Local Abbreviation simulate :=
  (simulate initialAssets initialWithdrawalRate annualData).
Local Abbreviation firstYear := (firstYear initialAssets).
Local Abbreviation laterYear := (laterYear initialWithdrawalRate).

Lemma loopBody_first (simulationData : list (yearData num)) (last : num) :
  loopBody 0 (simulationData, last) =
  (data <- annualData 0 ;;
   Return (simulationData ++ [firstYear data last], last)).
Proof.
  unfold loopBody. destruct (annualData 0); reflexivity.
Qed.

Lemma loopBody_later (i : nat) (simulationData : list (yearData num))
    (last : num) (prev : yearData num) :
  nth_error simulationData i = Some prev ->
  loopBody (S i) (simulationData, last) =
  (data <- annualData (S i) ;;
   Return (simulationData ++ [laterYear data prev last],
           actualWithdrawal (laterYear data prev last))).
Proof.
  intros Hprev. unfold loopBody.
  destruct (annualData (S i)) as [data|]; [|reflexivity].
  cbn [bind Nat.eqb]. replace (S i - 1)%nat with i by lia.
  unfold item. rewrite Hprev. cbn [bind].
  unfold laterYear.
  destruct (inflationStep _ _ _ _ _) as [planned r0]. cbn [fst snd].
  destruct (guardrails _ _ _ _) as [r1 actual]. reflexivity.
Qed.

Lemma invariant_start :
  invariant initialAssets initialWithdrawalRate annualData 0
    ([], initialAssets * (initialWithdrawalRate / lit 100)).
Proof.
  repeat split; cbn; intros; try discriminate.
Qed.

Lemma loopBody_invariant (i : nat) (st st' : state) :
  invariant initialAssets initialWithdrawalRate annualData i st ->
  loopBody i st = Return st' ->
  invariant initialAssets initialWithdrawalRate annualData (S i) st'.
Proof.
  destruct st as [sd last]. intros (Hlen & (Hfirst & Hlater) & Hlast) Hbody.
  cbn [fst snd] in *. destruct i as [|j].
  - destruct sd; [|discriminate]. cbn in Hlast. subst last.
    rewrite loopBody_first in Hbody.
    destruct (annualData 0) as [data|] eqn:Hdata; [|discriminate].
    cbn in Hbody. injection Hbody as <-.
    repeat split; cbn [fst snd].
    + intros r [= <-]. eauto.
    + intros [|i] prev r Hp Hr; cbn in Hr; [discriminate|].
      destruct i; discriminate.
    + eexists. split; reflexivity.
  - destruct Hlast as (prev & Hprev & Hlast). cbn [fst snd] in Hprev, Hlast.
    subst last. rewrite (@loopBody_later _ _ _ _ Hprev) in Hbody.
    destruct (annualData (S j)) as [data|] eqn:Hdata; [|discriminate].
    cbn [bind] in Hbody. injection Hbody as <-.
    assert (Hj : (j < length sd)%nat) by lia.
    repeat split; cbn [fst snd].
    + rewrite length_app. cbn. lia.
    + intros r Hr. rewrite nth_error_app1 in Hr by lia. auto.
    + intros i p r Hp Hr.
      destruct (Nat.lt_ge_cases (S i) (length sd)) as [Hi|Hi].
      * rewrite nth_error_app1 in Hp, Hr by lia. eauto.
      * destruct (Nat.eq_dec (S i) (length sd)) as [Heq|Hne].
        -- rewrite nth_error_app1 in Hp by lia.
           rewrite nth_error_app2 in Hr by lia.
           replace (S i - length sd)%nat with 0%nat in Hr by lia.
           cbn in Hr. injection Hr as <-.
           assert (i = j) by lia. subst i.
           rewrite Hprev in Hp. injection Hp as <-. eauto.
        -- rewrite nth_error_app2 in Hr by lia.
           destruct (S i - length sd)%nat as [|[|k]] eqn:E;
             [lia|discriminate|discriminate].
    + unfold carried. cbn [fst snd].
      exists (laterYear data prev (actualWithdrawal prev)).
      split; [|reflexivity]. rewrite nth_error_app2 by lia.
      replace (S j - length sd)%nat with 0%nat by lia. reflexivity.
Qed.

Lemma forLoop_invariant (n i : nat) (st st' : state) :
  invariant initialAssets initialWithdrawalRate annualData i st ->
  forLoop n i st = Return st' ->
  invariant initialAssets initialWithdrawalRate annualData (i + n) st'.
Proof.
  revert i st. induction n as [|n IH]; intros i st Hinv Hloop; cbn in Hloop.
  - injection Hloop as <-. now rewrite Nat.add_0_r.
  - destruct (loopBody i st) as [st1|] eqn:Hbody; [|discriminate].
    cbn in Hloop. rewrite Nat.add_succ_r.
    apply (IH (S i) st1); eauto using loopBody_invariant.
Qed.

(** An iteration throws only when reading the annual data does. *)
Lemma loopBody_returns (i : nat) (st : state) (data : annual num) :
  invariant initialAssets initialWithdrawalRate annualData i st ->
  annualData i = Return data ->
  exists st', loopBody i st = Return st'.
Proof.
  destruct st as [sd last]. intros (Hlen & _ & Hlast) Hdata.
  destruct i as [|j].
  - rewrite loopBody_first, Hdata. cbn. eauto.
  - destruct Hlast as (prev & Hprev & _). cbn [fst] in Hprev.
    rewrite (@loopBody_later _ _ _ _ Hprev), Hdata. cbn. eauto.
Qed.

Lemma loopBody_throws (i : nat) (st : state) :
  annualData i = TypeError -> loopBody i st = TypeError.
Proof.
  intros Hdata. destruct st as [sd last]. unfold loopBody.
  now rewrite Hdata.
Qed.

Lemma forLoop_returns (n i : nat) (st : state) :
  invariant initialAssets initialWithdrawalRate annualData i st ->
  (forall k, (i <= k < i + n)%nat -> exists data, annualData k = Return data) ->
  exists st', forLoop n i st = Return st'.
Proof.
  revert i st. induction n as [|n IH]; intros i st Hinv Hdata; cbn.
  - eauto.
  - destruct (Hdata i) as [data Hd]; [lia|].
    destruct (loopBody_returns Hinv Hd) as [st1 Hbody].
    rewrite Hbody. cbn. apply IH; eauto using loopBody_invariant.
    intros k Hk. apply Hdata. lia.
Qed.

Lemma forLoop_throws (n i k : nat) (st : state) :
  invariant initialAssets initialWithdrawalRate annualData i st ->
  (i <= k < i + n)%nat ->
  annualData k = TypeError ->
  forLoop n i st = TypeError.
Proof.
  revert i st. induction n as [|n IH]; intros i st Hinv Hk Hdata; [lia|].
  cbn. destruct (loopBody i st) as [st1|] eqn:Hbody; [|reflexivity].
  cbn. destruct (Nat.eq_dec k i) as [->|Hne].
  - rewrite loopBody_throws in Hbody by assumption. discriminate.
  - apply IH; eauto using loopBody_invariant. lia.
Qed.

(** The engine returns exactly when the annual data of every year below
    [simulationYears] can be read; the records it returns are [chained]. *)
Lemma simulate_returns (simulationYears : Z) :
  (forall k, (k < Z.to_nat simulationYears)%nat ->
             exists data, annualData k = Return data) ->
  exists simulationData, simulate simulationYears = Return simulationData.
Proof.
  intros Hdata. unfold simulate.
  destruct (@forLoop_returns (Z.to_nat simulationYears) _ _ invariant_start)
    as [st' Hloop].
  - intros k Hk. apply Hdata. lia.
  - rewrite Hloop. cbn. eauto.
Qed.

Lemma simulate_throws (simulationYears : Z) (k : nat) :
  (k < Z.to_nat simulationYears)%nat ->
  annualData k = TypeError ->
  simulate simulationYears = TypeError.
Proof.
  intros Hk Hdata. unfold simulate.
  rewrite (@forLoop_throws (Z.to_nat simulationYears) 0 k _ invariant_start);
    [reflexivity|lia|assumption].
Qed.

Lemma simulate_chained (simulationYears : Z)
    (simulationData : list (yearData num)) :
  simulate simulationYears = Return simulationData ->
  length simulationData = Z.to_nat simulationYears /\
  chained initialAssets initialWithdrawalRate annualData simulationData.
Proof.
  unfold simulate. intros Hsim.
  destruct (forLoop _ _ _) as [st'|] eqn:Hloop; [|discriminate].
  cbn in Hsim. injection Hsim as <-.
  destruct (@forLoop_invariant _ _ _ _ invariant_start Hloop)
    as (Hlen & Hch & _).
  split; [exact Hlen | exact Hch].
Qed.

End EngineFacts.

(** ** The records of a run *)

Section Run.

Context {num : Type} `{Number num}.
Local Open Scope js_scope.

Variables initialAssets initialWithdrawalRate : num.
Variable annualData : nat -> outcome (annual num).
Variable simulationYears : Z.
Variable simulationData : list (yearData num).

Local Abbreviation simulate :=
  (simulate initialAssets initialWithdrawalRate annualData).

Hypothesis run : simulate simulationYears = Return simulationData.

Lemma run_first (r : yearData num) :
  nth_error simulationData 0 = Some r ->
  exists data,
    annualData 0 = Return data /\
    r = firstYear initialAssets data
          (initialAssets * (initialWithdrawalRate / lit 100)).
Proof.
  destruct (simulate_chained _ _ _ _ run) as (_ & Hfirst & _). apply Hfirst.
Qed.

Lemma run_later (i : nat) (prev r : yearData num) :
  nth_error simulationData i = Some prev ->
  nth_error simulationData (S i) = Some r ->
  exists data,
    annualData (S i) = Return data /\
    r = laterYear initialWithdrawalRate data prev (actualWithdrawal prev).
Proof.
  destruct (simulate_chained _ _ _ _ run) as (_ & _ & Hlater). apply Hlater.
Qed.

Lemma run_length : length simulationData = Z.to_nat simulationYears.
Proof.
  apply (simulate_chained _ _ _ _ run).
Qed.

(** Every record is [finalize]d from the annual data of its year. *)
Lemma run_finalize (i : nat) (r : yearData num) :
  nth_error simulationData i = Some r ->
  exists data,
    annualData i = Return data /\
    r = finalize data (startWorth r) (inflation r) (plannedWithdrawal r)
          (plannedRate r) (rule r) (actualWithdrawal r).
Proof.
  intros Hr. destruct i as [|i].
  - destruct (run_first Hr) as (data & Hdata & ->). eauto.
  - assert (Hi : (i < length simulationData)%nat).
    { apply Nat.lt_succ_l. apply nth_error_Some. congruence. }
    destruct (nth_error simulationData i) as [prev|] eqn:Hprev;
      [|apply nth_error_None in Hprev; lia].
    destruct (run_later _ Hprev Hr) as (data & Hdata & ->). eauto.
Qed.

(** C1.  In every year after the first, the guardrails are evaluated on the
    planned rate that follows the inflation step: above the lower guardrail
    ([initialWithdrawalRate * 1.2]) the rule is capital preservation and the
    withdrawal is the planned one times 0.9; otherwise, below the upper
    guardrail ([initialWithdrawalRate * 0.8]) the rule is prosperity and the
    withdrawal is the planned one times 1.1; otherwise the withdrawal is
    the planned one and the rule is the one of the inflation step.  The
    capital-preservation test comes first: prosperity applies only when it
    failed, and no year carries both rules. *)
Theorem guardrail_evaluation (i : nat) (prev r : yearData num) :
  nth_error simulationData i = Some prev ->
  nth_error simulationData (S i) = Some r ->
  let planned := plannedWithdrawal r in
  let rate := (planned / startWorth r) * lit 100 in
  let above := rate >? lowerGuardrail initialWithdrawalRate in
  let below := rate <? upperGuardrail initialWithdrawalRate in
  lowerGuardrail initialWithdrawalRate = initialWithdrawalRate * lit 1.2 /\
  upperGuardrail initialWithdrawalRate = initialWithdrawalRate * lit 0.8 /\
  plannedRate r = number rate /\
  (if above then
     rule r = CapitalPreservation /\ actualWithdrawal r = planned * lit 0.9
   else if below then
     rule r = Prosperity /\ actualWithdrawal r = planned * lit 1.1
   else
     rule r = snd (inflationStep initialWithdrawalRate (returnRate prev)
                     (actualWithdrawal prev) (inflation r) (startWorth r)) /\
     actualWithdrawal r = planned) /\
  (rule r = CapitalPreservation -> above = true) /\
  (rule r = Prosperity -> above = false /\ below = true) /\
  ~ (rule r = CapitalPreservation /\ rule r = Prosperity).
Proof.
  intros Hprev Hr. destruct (run_later _ Hprev Hr) as (data & _ & ->).
  cbn -[inflationStep lowerGuardrail upperGuardrail].
  set (planned := inflationStep _ _ _ _ _).
  assert (Hrule : snd planned = Inflation \/ snd planned = InflationFrozen).
  { subst planned. unfold inflationStep.
    destruct (inflationFrozen _ _ _ _ _); cbn; auto. }
  unfold guardrails.
  set (above := _ >? lowerGuardrail _).
  set (below := _ <? upperGuardrail _).
  repeat split; try reflexivity.
  - destruct above, below; cbn; auto.
  - destruct above, below; cbn; auto; destruct Hrule; congruence.
  - destruct above, below; cbn in *; auto; try discriminate;
      destruct Hrule; congruence.
  - destruct above, below; cbn in *; auto; try discriminate;
      destruct Hrule; congruence.
  - intros [H1 H2]. congruence.
Qed.

(** C2.  In every year after the first, when the previous year's return
    was negative and the rate of the inflation-adjusted withdrawal
    ([lastActualWithdrawal * (1 + cappedInflation/100) / startWorth * 100])
    is above [initialWithdrawalRate], the planned withdrawal is last year's
    actual withdrawal and the guardrails start from the rule
    [InflationFrozen]; otherwise the planned withdrawal is the
    inflation-adjusted one and they start from [Inflation].  The rate
    compared with is the parameter [initialWithdrawalRate] of the run, in
    every year. *)
Theorem inflation_freeze (i : nat) (prev r : yearData num) :
  nth_error simulationData i = Some prev ->
  nth_error simulationData (S i) = Some r ->
  let lastActualWithdrawal := actualWithdrawal prev in
  let cappedInflation := Math_min (ToNumber (inflation r)) (lit 6.0) in
  let withdrawalWithInflation :=
    lastActualWithdrawal * (lit 1 + cappedInflation / lit 100) in
  let rateWithInflation :=
    (withdrawalWithInflation / startWorth r) * lit 100 in
  let rate := (plannedWithdrawal r / startWorth r) * lit 100 in
  (exists data,
      annualData (S i) = Return data /\ inflation r = annual_inflation data) /\
  if (ToNumber (returnRate prev) <? lit 0)
     && (rateWithInflation >? initialWithdrawalRate)
  then
    plannedWithdrawal r = lastActualWithdrawal /\
    (rule r, actualWithdrawal r) =
      guardrails initialWithdrawalRate rate (plannedWithdrawal r)
        InflationFrozen
  else
    plannedWithdrawal r = withdrawalWithInflation /\
    (rule r, actualWithdrawal r) =
      guardrails initialWithdrawalRate rate (plannedWithdrawal r) Inflation.
Proof.
  intros Hprev Hr. destruct (run_later _ Hprev Hr) as (data & Hdata & ->).
  split; [eauto|].
  cbn -[guardrails]. unfold inflationStep, inflationFrozen,
    plannedRateWithInflation, plannedWithdrawalWithInflation, inflationToApply.
  destruct (_ && _); cbn -[guardrails];
    (split; [reflexivity|]); destruct (guardrails _ _ _ _); reflexivity.
Qed.

Lemma run_chaining :
  (forall r, nth_error simulationData 0 = Some r ->
             startWorth r = initialAssets) /\
  (forall i prev r,
      nth_error simulationData i = Some prev ->
      nth_error simulationData (S i) = Some r ->
      startWorth r = endWorth prev).
Proof.
  split.
  - intros r Hr. destruct (run_first Hr) as (data & _ & ->). reflexivity.
  - intros i prev r Hprev Hr.
    destruct (run_later _ Hprev Hr) as (data & _ & ->). reflexivity.
Qed.

(** C4.  Every record, the first included, satisfies
    [postWithdrawalBalance = startWorth - actualWithdrawal],
    [endWorth = postWithdrawalBalance * (1 + returnRate/100)] and
    [actualRate = actualWithdrawal / startWorth * 100], where [returnRate]
    is the return read from the annual data of that year. *)
Theorem finalization (i : nat) (r : yearData num) :
  nth_error simulationData i = Some r ->
  postWithdrawalBalance r = startWorth r - actualWithdrawal r /\
  endWorth r
  = postWithdrawalBalance r * (lit 1 + ToNumber (returnRate r) / lit 100) /\
  actualRate r = (actualWithdrawal r / startWorth r) * lit 100 /\
  exists data, annualData i = Return data /\ returnRate r = annual_return data.
Proof.
  intros Hr. destruct (run_finalize _ Hr) as (data & Hdata & Heq).
  rewrite Heq. cbn. eauto 6.
Qed.

(** The planned withdrawal of a later year is last year's withdrawal, as
    it is or times [1 + min(inflation, 6.0)/100]. *)
Lemma inflation_factor_applied (i : nat) (prev r : yearData num) :
  nth_error simulationData i = Some prev ->
  nth_error simulationData (S i) = Some r ->
  (exists data,
      annualData (S i) = Return data /\ inflation r = annual_inflation data) /\
  (plannedWithdrawal r
   = actualWithdrawal prev
     * (lit 1 + Math_min (ToNumber (inflation r)) (lit 6.0) / lit 100) \/
   plannedWithdrawal r = actualWithdrawal prev).
Proof.
  intros Hprev Hr. destruct (run_later _ Hprev Hr) as (data & Hdata & ->).
  split; [eauto|]. cbn. unfold inflationStep.
  destruct (inflationFrozen _ _ _ _ _); cbn; auto.
Qed.

(** A frozen year whose planned rate is not below the upper guardrail. *)
Lemma frozen_not_below (i : nat) (prev r : yearData num) :
  nth_error simulationData i = Some prev ->
  nth_error simulationData (S i) = Some r ->
  (ToNumber (returnRate prev) <? lit 0) = true ->
  (plannedRateWithInflation (actualWithdrawal prev) (inflation r)
     (startWorth r) >? initialWithdrawalRate) = true ->
  ((actualWithdrawal prev / startWorth r) * lit 100
     <? upperGuardrail initialWithdrawalRate) = false ->
  plannedWithdrawal r = actualWithdrawal prev /\
  plannedRate r
  = number ((actualWithdrawal prev / startWorth r) * lit 100) /\
  (rule r = InflationFrozen \/ rule r = CapitalPreservation).
Proof.
  intros Hprev Hr Hneg Hrate Hup.
  destruct (run_later _ Hprev Hr) as (data & _ & ->).
  cbn [startWorth inflation laterYear finalize] in Hrate, Hup.
  cbn -[lowerGuardrail upperGuardrail plannedRateWithInflation].
  unfold inflationStep, inflationFrozen. rewrite Hneg, Hrate.
  cbn [andb fst snd]. unfold guardrails. rewrite Hup.
  destruct (_ >? lowerGuardrail _); cbn; auto.
Qed.

(** C9, as the code has it.  The first record carries no planned rate (the
    property is never assigned in the initial year); every later record
    carries [plannedWithdrawal / startWorth * 100]. *)
Theorem planned_rate_of_records :
  (forall r0, nth_error simulationData 0 = Some r0 ->
              plannedRate r0 = undefined) /\
  (forall i r, nth_error simulationData (S i) = Some r ->
               plannedRate r
               = number ((plannedWithdrawal r / startWorth r) * lit 100)).
Proof.
  split.
  - intros r0 Hr0. destruct (run_first Hr0) as (data & _ & ->). reflexivity.
  - intros i r Hr.
    assert (Hi : (i < length simulationData)%nat).
    { apply Nat.lt_succ_l. apply nth_error_Some. congruence. }
    destruct (nth_error simulationData i) as [prev|] eqn:Hprev;
      [|apply nth_error_None in Hprev; lia].
    destruct (run_later _ Hprev Hr) as (data & _ & ->). reflexivity.
Qed.

(** C8, as the code has it.  When the initial year's return is negative,
    the second year's inflation is 5 and the rate of its inflation-adjusted
    withdrawal is above [initialWithdrawalRate], the second year's planned
    withdrawal is the initial year's withdrawal.  Its rule is
    [InflationFrozen] and its withdrawal that same amount when the planned
    rate stays within the guardrails; a guardrail that triggers replaces
    the rule and scales the withdrawal by 0.9 or 1.1. *)
Theorem scenario_freeze (r0 r1 : yearData num) :
  nth_error simulationData 0 = Some r0 ->
  nth_error simulationData 1 = Some r1 ->
  (ToNumber (returnRate r0) <? lit 0) = true ->
  inflation r1 = number (lit 5) ->
  (plannedRateWithInflation (actualWithdrawal r0) (inflation r1)
     (startWorth r1) >? initialWithdrawalRate) = true ->
  let rate := (actualWithdrawal r0 / startWorth r1) * lit 100 in
  let above := rate >? lowerGuardrail initialWithdrawalRate in
  let below := rate <? upperGuardrail initialWithdrawalRate in
  plannedWithdrawal r1 = actualWithdrawal r0 /\
  plannedRate r1 = number rate /\
  (above = false -> below = false ->
   rule r1 = InflationFrozen /\ actualWithdrawal r1 = actualWithdrawal r0) /\
  (above = true ->
   rule r1 = CapitalPreservation /\
   actualWithdrawal r1 = actualWithdrawal r0 * lit 0.9) /\
  (above = false -> below = true ->
   rule r1 = Prosperity /\
   actualWithdrawal r1 = actualWithdrawal r0 * lit 1.1).
Proof.
  intros Hr0 Hr1 Hneg _ Hrate.
  destruct (run_later _ Hr0 Hr1) as (data & _ & ->).
  cbn [startWorth inflation laterYear finalize] in Hrate.
  cbn -[lowerGuardrail upperGuardrail plannedRateWithInflation].
  unfold inflationStep, inflationFrozen. rewrite Hneg, Hrate.
  cbn [andb fst snd].
  unfold guardrails.
  set (above := _ >? lowerGuardrail _). set (below := _ <? upperGuardrail _).
  destruct above, below; repeat split; intros; try discriminate; reflexivity.
Qed.

End Run.

Arguments run_first {num _ _ _ _ _ _} run {r} _.
Arguments run_later {num _ _ _ _ _ _} run {i prev r} _ _.
Arguments run_length {num _ _ _ _ _ _} run.
Arguments run_finalize {num _ _ _ _ _ _} run {i r} _.
Arguments run_chaining {num _ _ _ _ _ _} run.
Arguments frozen_not_below {num _ _ _ _ _ _} run {i prev r} _ _ _ _ _.
Arguments inflation_factor_applied {num _ _ _ _ _ _} run {i prev r} _ _.

(** ** Runs on readable annual data *)

Section Readable.

Context {num : Type} `{Number num}.
Local Open Scope js_scope.

Variables initialAssets initialWithdrawalRate : num.
Variable annualData : nat -> outcome (annual num).
Variable simulationYears : Z.

Local Abbreviation simulate :=
  (simulate initialAssets initialWithdrawalRate annualData).

(** The annual data of every simulated year can be read. *)
Hypothesis readable :
  forall k, (k < Z.to_nat simulationYears)%nat ->
            exists data, annualData k = Return data.

(** C3.  When the annual data of every simulated year can be read, the run
    returns one record per year, the first with [startWorth =
    initialAssets], and each later one with the [endWorth] of the record
    before it as its [startWorth]. *)
Theorem chaining :
  exists simulationData,
    simulate simulationYears = Return simulationData /\
    length simulationData = Z.to_nat simulationYears /\
    (forall r, nth_error simulationData 0 = Some r ->
               startWorth r = initialAssets) /\
    (forall i prev r,
        nth_error simulationData i = Some prev ->
        nth_error simulationData (S i) = Some r ->
        startWorth r = endWorth prev).
Proof.
  destruct (simulate_returns initialAssets initialWithdrawalRate annualData
              simulationYears readable) as [simulationData Hrun].
  exists simulationData. split; [exact Hrun|].
  split; [exact (run_length Hrun)|]. exact (run_chaining Hrun).
Qed.

(** C6.  With at least one year to simulate, the first record is the
    initial year's: [startWorth = initialAssets], [inflation = 0], rule
    [Initial], and the planned and the actual withdrawal are both
    [initialAssets * (initialWithdrawalRate / 100)]; no guardrail is
    evaluated (no planned rate is even computed).  With exactly one year it
    is the only record. *)
Theorem initial_year :
  (1 <= simulationYears)%Z ->
  exists r0 rest,
    simulate simulationYears = Return (r0 :: rest) /\
    startWorth r0 = initialAssets /\
    inflation r0 = number (lit 0) /\
    rule r0 = Initial /\
    plannedWithdrawal r0 = initialAssets * (initialWithdrawalRate / lit 100) /\
    actualWithdrawal r0 = plannedWithdrawal r0 /\
    plannedRate r0 = undefined /\
    (simulationYears = 1%Z -> rest = []).
Proof.
  intros Hyears.
  destruct (simulate_returns initialAssets initialWithdrawalRate annualData
              simulationYears readable) as [simulationData Hrun].
  pose proof (run_length Hrun) as Hlen.
  destruct simulationData as [|r0 rest]; [cbn in Hlen; lia|].
  exists r0, rest. split; [exact Hrun|].
  destruct (run_first Hrun (r := r0) eq_refl) as (data & _ & ->).
  repeat split. intros ->. cbn in Hlen.
  destruct rest; [reflexivity|discriminate].
Qed.

End Readable.

(** ** What the two files accept *)

Section Inputs.

Context {num : Type} `{Number num}.

Lemma item_returns {A : Type} (a : list A) (i : nat) :
  (i < length a)%nat -> exists x, item a i = Return x.
Proof.
  intros Hi. unfold item.
  destruct (nth_error a i) eqn:E; [eauto|].
  apply nth_error_None in E. lia.
Qed.

Lemma item_throws {A : Type} (a : list A) (i : nat) :
  (length a <= i)%nat -> item a i = TypeError.
Proof.
  intros Hi. unfold item. apply nth_error_None in Hi. now rewrite Hi.
Qed.

(** C7, as the code has it.  [calculateSimulation] checks none of its
    inputs.  In [src/app.js] it returns for every input, whatever the
    numbers and the lengths of the two arrays: one record per year, none
    when [simulationYears < 1].  In [src/unnamed/part_000] it does the same
    whenever [annualData] has at least [simulationYears] elements, and
    throws a [TypeError] from inside the loop when it has fewer. *)
Theorem no_input_validation :
  (forall p : App.params num,
      exists simulationData,
        App.calculateSimulation p = Return simulationData /\
        length simulationData = Z.to_nat (App.simulationYears p) /\
        ((App.simulationYears p < 1)%Z -> simulationData = [])) /\
  (forall p : MixMatch.params num,
      ((Z.to_nat (MixMatch.simulationYears p)
        <= length (MixMatch.annualData p))%nat ->
       exists simulationData,
         MixMatch.calculateSimulation p = Return simulationData /\
         length simulationData = Z.to_nat (MixMatch.simulationYears p) /\
         ((MixMatch.simulationYears p < 1)%Z -> simulationData = [])) /\
      ((length (MixMatch.annualData p)
        < Z.to_nat (MixMatch.simulationYears p))%nat ->
       MixMatch.calculateSimulation p = TypeError)).
Proof.
  assert (Hnone : forall (l : list (yearData num)) (y : Z),
             length l = Z.to_nat y -> (y < 1)%Z -> l = []).
  { intros l y Hlen Hy. destruct l; [reflexivity|cbn in Hlen; lia]. }
  split.
  - intros p. unfold App.calculateSimulation.
    destruct (simulate_returns (App.initialAssets p)
                (App.initialWithdrawalRate p) (App.annualData p)
                (App.simulationYears p)) as [out Hrun].
    { intros k _. unfold App.annualData. eauto. }
    exists out. pose proof (run_length Hrun). eauto.
  - intros p. split.
    + intros Hlen. unfold MixMatch.calculateSimulation.
      destruct (simulate_returns (MixMatch.initialAssets p)
                  (MixMatch.initialWithdrawalRate p) (MixMatch.annualData_at p)
                  (MixMatch.simulationYears p)) as [out Hrun].
      { intros k Hk. unfold MixMatch.annualData_at.
        destruct (@item_returns _ (MixMatch.annualData p) k) as [d ->]; [lia|].
        cbn. eauto. }
      exists out. pose proof (run_length Hrun). eauto.
    + intros Hlen. unfold MixMatch.calculateSimulation.
      apply simulate_throws with (k := length (MixMatch.annualData p));
        [exact Hlen|].
      unfold MixMatch.annualData_at. now rewrite item_throws.
Qed.

End Inputs.

(** ** Doubles *)

Module DoubleFacts.

Local Open Scope js_scope.

Lemma SFltb_asym (a b : spec_float) : SFltb a b = true -> SFltb b a = false.
Proof.
  unfold SFltb.
  destruct a as [sa|sa| |sa ma ea], b as [sb|sb| |sb mb eb]; cbn;
    try destruct sa; try destruct sb; cbn; try discriminate; try reflexivity.
  - rewrite (Z.compare_antisym ea eb).
    rewrite !Pos.compare_cont_spec. cbn [Pos.switch_Eq].
    rewrite (Pos.compare_antisym ma mb).
    destruct (ea ?= eb)%Z; cbn; try discriminate; try reflexivity.
    destruct (ma ?= mb)%positive; cbn; try discriminate; reflexivity.
  - rewrite (Z.compare_antisym ea eb).
    rewrite !Pos.compare_cont_spec. cbn [Pos.switch_Eq].
    rewrite (Pos.compare_antisym ma mb).
    destruct (ea ?= eb)%Z; cbn; try discriminate; try reflexivity.
    destruct (ma ?= mb)%positive; cbn; try discriminate; reflexivity.
Qed.

Lemma ltb_asym (x y : float) :
  PrimFloat.ltb x y = true -> PrimFloat.ltb y x = false.
Proof.
  rewrite !ltb_spec. apply SFltb_asym.
Qed.

Lemma ltb_irrefl (x : float) : PrimFloat.ltb x x = false.
Proof.
  destruct (PrimFloat.ltb x x) eqn:E; [|reflexivity].
  now rewrite (ltb_asym E) in E.
Qed.

Lemma ltb_nan_r (x : float) : PrimFloat.ltb x PrimFloat.nan = false.
Proof.
  rewrite ltb_spec. unfold SFltb. destruct (Prim2SF x); reflexivity.
Qed.

(** [Math.min(x, y)] is never above [y]: it is [NaN], or [x < y], or [y],
    or an [x] that [y] is not below. *)
Lemma Math_min_le_r (x y : float) :
  PrimFloat.ltb y (Double.Math_min x y) = false.
Proof.
  unfold Double.Math_min.
  destruct (PrimFloat.is_nan x || PrimFloat.is_nan y); [apply ltb_nan_r|].
  destruct (PrimFloat.ltb x y) eqn:Hxy; [now apply ltb_asym|].
  destruct (PrimFloat.ltb y x) eqn:Hyx; [apply ltb_irrefl|].
  destruct (PrimFloat.get_sign x); [exact Hyx|apply ltb_irrefl].
Qed.

(** On doubles too the inflation applied is never above 6, whatever the
    inflation of the year is (a number, an infinity, [NaN] or
    [undefined]). *)
Lemma inflationToApply_le_6_double (v : value float) :
  (lit 6.0 <? inflationToApply v) = false.
Proof.
  apply Math_min_le_r.
Qed.

(** An inflation of 6 or more, up to infinity, is capped to exactly 6. *)
Lemma Math_min_capped (x : float) :
  PrimFloat.leb 6 x = true -> Double.Math_min x 6 = 6%float.
Proof.
  intros Hle. unfold Double.Math_min, PrimFloat.is_nan.
  rewrite leb_spec in Hle. rewrite eqb_spec, !ltb_spec.
  change (PrimFloat.eqb 6 6) with true.
  change (Prim2SF 6) with (S754_finite false 6755399441055744 (-50)) in *.
  destruct (Prim2SF x) as [sx|sx| |sx mx ex] eqn:Ex;
    try destruct sx; try discriminate; try reflexivity.
  unfold SFleb, SFltb, SFeqb in *. cbn [SFcompare] in *.
  rewrite Z.compare_refl, Pos.compare_cont_refl. cbn [negb orb].
  rewrite (Z.compare_antisym (-50) ex).
  destruct (-50 ?= ex)%Z eqn:Ee; cbn [CompOpp] in *;
    try discriminate; try reflexivity.
  apply Z.compare_eq in Ee. subst ex.
  rewrite !Pos.compare_cont_spec in *. cbn [Pos.switch_Eq] in *.
  rewrite (Pos.compare_antisym 6755399441055744 mx).
  destruct (6755399441055744 ?= mx)%positive eqn:Em; cbn [CompOpp] in *;
    try discriminate; try reflexivity.
  apply Pos.compare_eq in Em. subst mx.
  replace x with 6%float by (apply Prim2SF_inj; rewrite Ex; reflexivity).
  reflexivity.
Qed.

(** So on doubles the factor of a year whose inflation is at or above the
    cap is the same whatever that inflation is: the sum [1 + 6/100]
    rounded, the double next above 1.06. *)
Lemma factor_at_cap (x : float) :
  PrimFloat.leb 6 x = true ->
  inflationToApply (number x) = 6%float /\
  lit 1 + inflationToApply (number x) / lit 100 = 1.0600000000000001%float.
Proof.
  intros Hle. unfold inflationToApply. cbn [ToNumber].
  change (Math_min x (lit 6.0)) with (Double.Math_min x 6).
  rewrite (Math_min_capped Hle). split; reflexivity.
Qed.

End DoubleFacts.

(** ** Rounding

    The operations on doubles, in real numbers: the product, the
    quotient and the sum of two doubles are the roundings of the
    product, the quotient and the sum of their values.  Hence the
    operations are monotone, and the result of one that is a normal
    number is within [2^-53] of the exact result, relatively. *)

Module RoundingFacts.

Import Rounding.
Local Open Scope R_scope.
Unset Implicit Arguments.

Lemma bpow_pos (e : Z) : 0 < bpow e.
Proof. apply powerRZ_lt. lra. Qed.

Lemma bpow_add (a b : Z) : bpow (a + b) = bpow a * bpow b.
Proof. apply powerRZ_add. lra. Qed.

Lemma bpow_succ (e : Z) : bpow (e + 1) = 2 * bpow e.
Proof.
  rewrite bpow_add. replace (bpow 1) with 2; [lra|].
  unfold bpow. simpl. lra.
Qed.

Lemma bpow_IZR (e : Z) : (0 <= e)%Z -> bpow e = IZR (2 ^ e).
Proof.
  intros He. unfold bpow. destruct e as [|p|p]; [reflexivity| |lia].
  symmetry. apply Zpower_pos_powerRZ.
Qed.

Lemma bpow_le (a b : Z) : (a <= b)%Z -> bpow a <= bpow b.
Proof.
  intros Hab. replace b with (a + (b - a))%Z by lia.
  rewrite bpow_add. rewrite (bpow_IZR (b - a)) by lia.
  assert (H1 : (1 <= 2 ^ (b - a))%Z).
  { pose proof (Z.pow_pos_nonneg 2 (b - a)). lia. }
  apply IZR_le in H1. pose proof (bpow_pos a). nra.
Qed.

Lemma bpow_lt (a b : Z) : (a < b)%Z -> bpow a < bpow b.
Proof.
  intros Hab. pose proof (bpow_le (a + 1) b ltac:(lia)) as H.
  rewrite bpow_succ in H. pose proof (bpow_pos a). lra.
Qed.

Lemma bpow_le_inv (a b : Z) : bpow a <= bpow b -> (a <= b)%Z.
Proof.
  intros H. destruct (Z_le_gt_dec a b) as [Hle|Hgt]; [exact Hle|].
  pose proof (bpow_lt b a ltac:(lia)). lra.
Qed.

Lemma bpow_lt_inv (a b : Z) : bpow a < bpow b -> (a < b)%Z.
Proof.
  intros H. destruct (Z_lt_ge_dec a b) as [Hlt|Hge]; [exact Hlt|].
  pose proof (bpow_le b a ltac:(lia)). lra.
Qed.

(** The number of binary digits. *)
Lemma digits2_size (p : positive) : digits2_pos p = Pos.size p.
Proof. induction p; cbn; congruence. Qed.

Lemma Zdigits2_spec (m : Z) :
  (0 < m)%Z -> (2 ^ (Zdigits2 m - 1) <= m < 2 ^ Zdigits2 m)%Z.
Proof.
  destruct m as [|p|p]; try lia. intros _. cbn [Zdigits2].
  rewrite digits2_size.
  pose proof (Pos.size_gt p) as Hgt. pose proof (Pos.size_le p) as Hle.
  assert (H2 : (Z.pos (2 ^ Pos.size p) = 2 ^ Z.pos (Pos.size p))%Z)
    by (rewrite Pos2Z.inj_pow; reflexivity).
  split.
  - assert (Hp : (2 ^ Z.pos (Pos.size p) = 2 * 2 ^ (Z.pos (Pos.size p) - 1))%Z).
    { rewrite <- Z.pow_succ_r by lia. f_equal. lia. }
    lia.
  - lia.
Qed.

Lemma Zdigits2_pos (m : Z) : (0 < m)%Z -> (0 < Zdigits2 m)%Z.
Proof. destruct m; cbn; lia. Qed.

Lemma Zdigits2_unique (m d : Z) :
  (2 ^ (d - 1) <= m < 2 ^ d)%Z -> (0 < m)%Z -> Zdigits2 m = d.
Proof.
  intros [Hlo Hhi] Hm. pose proof (Zdigits2_spec m Hm) as [Hlo' Hhi'].
  pose proof (Zdigits2_pos m Hm) as Hd'.
  assert (Hd : (0 < d)%Z).
  { destruct (Z_lt_ge_dec 0 d); [assumption|].
    destruct (Z.eq_dec d 0) as [->|Hd0]; [cbn in Hhi; lia|].
    rewrite (Z.pow_neg_r 2 d) in Hhi by lia. lia. }
  destruct (Z.lt_trichotomy (Zdigits2 m) d) as [H|[H|H]]; [|exact H|].
  - assert (2 ^ Zdigits2 m <= 2 ^ (d - 1))%Z by (apply Z.pow_le_mono_r; lia). lia.
  - assert (2 ^ d <= 2 ^ (Zdigits2 m - 1))%Z by (apply Z.pow_le_mono_r; lia). lia.
Qed.


Lemma fexp_eq (e : Z) : fexp prec emax e = fexp64 e.
Proof. reflexivity. Qed.

Lemma loc_of_shr_record_of_loc (m : Z) (l : location) :
  loc_of_shr_record (shr_record_of_loc m l) = l /\
  shr_m (shr_record_of_loc m l) = m.
Proof. destruct l as [|[]]; split; reflexivity. Qed.

(** One shift to the right keeps the position of the number. *)
Lemma shr_1_located (r : R) (mrs : shr_record) (e : Z) :
  (0 <= shr_m mrs)%Z ->
  located r (shr_m mrs) e (loc_of_shr_record mrs) ->
  (0 <= shr_m (shr_1 mrs))%Z /\
  shr_m (shr_1 mrs) = (shr_m mrs / 2)%Z /\
  located r (shr_m (shr_1 mrs)) (e + 1) (loc_of_shr_record (shr_1 mrs)).
Proof.
  destruct mrs as [m rb sb]. cbn [shr_m]. intros Hm Hloc.
  pose proof (bpow_pos e) as HB. pose proof (bpow_succ e) as HS.
  destruct m as [|[p|p|]|p]; try lia; cbn [shr_1 shr_m].
  - split; [lia|]. split; [reflexivity|].
    destruct rb, sb; cbn [loc_of_shr_record orb] in *; unfold located in *;
      rewrite ?HS; lra.
  - assert (HI : IZR (Z.pos p~1) = 2 * IZR (Z.pos p) + 1)
      by (rewrite Pos2Z.inj_xI, plus_IZR, mult_IZR; lra).
    split; [lia|]. split.
    { rewrite Pos2Z.inj_xI. apply Z.div_unique with (r := 1%Z); lia. }
    destruct rb, sb; cbn [loc_of_shr_record orb] in *; unfold located in *;
      rewrite ?HS; rewrite HI in Hloc; lra.
  - assert (HI : IZR (Z.pos p~0) = 2 * IZR (Z.pos p))
      by (rewrite Pos2Z.inj_xO, mult_IZR; lra).
    split; [lia|]. split.
    { rewrite Pos2Z.inj_xO. apply Z.div_unique with (r := 0%Z); lia. }
    destruct rb, sb; cbn [loc_of_shr_record orb] in *; unfold located in *;
      rewrite ?HS; rewrite HI in Hloc; lra.
  - split; [lia|]. split; [reflexivity|].
    destruct rb, sb; cbn [loc_of_shr_record orb] in *; unfold located in *;
      rewrite ?HS; lra.
Qed.

Lemma iter_pos_invariant {A : Type} (f : A -> A) (P : A -> Z -> Prop) :
  (forall x e, P x e -> P (f x) (e + 1)%Z) ->
  forall p x e, P x e -> P (iter_pos f p x) (e + Z.pos p)%Z.
Proof.
  intros Hstep. induction p as [p IH|p IH|]; intros x e Hx; cbn [iter_pos].
  - replace (e + Z.pos p~1)%Z with (e + 1 + Z.pos p + Z.pos p)%Z by lia.
    apply IH, IH, Hstep, Hx.
  - replace (e + Z.pos p~0)%Z with (e + Z.pos p + Z.pos p)%Z by lia.
    apply IH, IH, Hx.
  - apply Hstep, Hx.
Qed.

(** Shifting to the exponent of the format. *)
Lemma shr_located (r : R) (m e n : Z) (l : location) :
  (0 <= m)%Z -> located r m e l ->
  let res := shr (shr_record_of_loc m l) e n in
  let e' := (e + Z.max n 0)%Z in
  snd res = e' /\
  (0 <= shr_m (fst res))%Z /\
  shr_m (fst res) = (m / 2 ^ (e' - e))%Z /\
  located r (shr_m (fst res)) e' (loc_of_shr_record (fst res)).
Proof.
  intros Hm Hloc res e'. subst res e'.
  destruct (loc_of_shr_record_of_loc m l) as [Hl Hmm].
  destruct n as [|p|p]; cbn [shr fst snd].
  - rewrite Z.max_l, Z.add_0_r, Z.sub_diag, Hl, Hmm by lia.
    cbn. rewrite Z.div_1_r. auto.
  - rewrite Z.max_l by lia. split; [reflexivity|].
    eapply proj2.
    apply (iter_pos_invariant shr_1
             (fun mrs e' =>
                (e <= e')%Z /\ (0 <= shr_m mrs)%Z /\
                shr_m mrs = (m / 2 ^ (e' - e))%Z /\
                located r (shr_m mrs) e' (loc_of_shr_record mrs))).
    + intros x e' (He & H0 & Hdiv & Hx).
      destruct (shr_1_located r x e' H0 Hx) as (H0' & Hhalf & Hx').
      split; [lia|]. split; [exact H0'|]. split; [|exact Hx'].
      rewrite Hhalf, Hdiv.
      replace (e' + 1 - e)%Z with (e' - e + 1)%Z by lia.
      rewrite Z.pow_add_r by lia. rewrite Z.div_div by lia.
      reflexivity.
    + rewrite Hl, Hmm, Z.sub_diag. cbn. rewrite Z.div_1_r.
      split; [lia|auto].
  - rewrite Z.max_r, Z.add_0_r, Z.sub_diag, Hl, Hmm by lia.
    cbn. rewrite Z.div_1_r. auto.
Qed.

Lemma Zdigits2_div (m k : Z) :
  (0 <= k)%Z -> (0 < m / 2 ^ k)%Z ->
  Zdigits2 (m / 2 ^ k) = (Zdigits2 m - k)%Z.
Proof.
  intros Hk Hq.
  assert (H2k : (0 < 2 ^ k)%Z) by (apply Z.pow_pos_nonneg; lia).
  assert (Hm : (0 < m)%Z).
  { destruct (Z_lt_ge_dec 0 m) as [H|H]; [exact H|].
    assert (m / 2 ^ k <= 0)%Z by (apply Z.div_le_upper_bound; lia). lia. }
  pose proof (Zdigits2_spec m Hm) as [Hlo Hhi].
  assert (Hge : (2 ^ k <= m)%Z).
  { destruct (Z_lt_ge_dec m (2 ^ k)) as [H|H]; [|lia].
    rewrite Z.div_small in Hq by lia. lia. }
  assert (Hdk : (k < Zdigits2 m)%Z).
  { destruct (Z_lt_ge_dec k (Zdigits2 m)) as [H|H]; [exact H|].
    assert (2 ^ Zdigits2 m <= 2 ^ k)%Z by (apply Z.pow_le_mono_r; lia). lia. }
  apply Zdigits2_unique; [|exact Hq]. split.
  - apply Z.div_le_lower_bound; [lia|].
    rewrite <- Z.pow_add_r by lia.
    replace (k + (Zdigits2 m - k - 1))%Z with (Zdigits2 m - 1)%Z by lia.
    exact Hlo.
  - apply Z.div_lt_upper_bound; [lia|].
    rewrite <- Z.pow_add_r by lia.
    replace (k + (Zdigits2 m - k))%Z with (Zdigits2 m) by lia.
    exact Hhi.
Qed.

Lemma Zdigits2_nonneg (m : Z) : (0 <= Zdigits2 m)%Z.
Proof. destruct m; cbn; lia. Qed.

Lemma Zdigits2_le (m k : Z) : (0 <= m < 2 ^ k)%Z -> (0 <= k)%Z -> (Zdigits2 m <= k)%Z.
Proof.
  intros [H0 Hk] Hk0. destruct (Z.eq_dec m 0) as [->|Hne]; [cbn; lia|].
  pose proof (Zdigits2_spec m ltac:(lia)) as [Hlo _].
  destruct (Z_le_gt_dec (Zdigits2 m) k) as [H|H]; [exact H|].
  assert (2 ^ k <= 2 ^ (Zdigits2 m - 1))%Z by (apply Z.pow_le_mono_r; lia).
  lia.
Qed.

(** The first shift of [binary_round_aux] gives the canonical position. *)
Lemma shr_fexp_canon (r : R) (m e : Z) (l : location) :
  (0 <= m)%Z -> located r m e l ->
  (e <= fexp64 (Zdigits2 m + e))%Z ->
  let res := shr_fexp prec emax m e l in
  canon (shr_m (fst res)) (snd res) /\
  located r (shr_m (fst res)) (snd res) (loc_of_shr_record (fst res)).
Proof.
  intros Hm Hloc He res. subst res. unfold shr_fexp. rewrite fexp_eq.
  set (e1 := fexp64 (Zdigits2 m + e)) in *.
  destruct (shr_located r m e (e1 - e) l Hm Hloc) as (Hsnd & H0 & Hdiv & Hloc').
  rewrite Z.max_l in Hsnd, Hdiv, Hloc' by lia.
  replace (e + (e1 - e))%Z with e1 in * by lia.
  rewrite Hsnd. split; [|exact Hloc'].
  split; [exact H0|]. rewrite Hdiv.
  destruct (Z.eq_dec (m / 2 ^ (e1 - e)) 0) as [Hz|Hnz].
  - rewrite Hz. cbn [Zdigits2].
    assert (H2k : (0 < 2 ^ (e1 - e))%Z) by (apply Z.pow_pos_nonneg; lia).
    assert (Hlt : (m < 2 ^ (e1 - e))%Z).
    { destruct (Z_lt_ge_dec m (2 ^ (e1 - e))) as [H|H]; [exact H|].
      assert (1 <= m / 2 ^ (e1 - e))%Z
        by (apply Z.div_le_lower_bound; lia). lia. }
    pose proof (Zdigits2_le m (e1 - e) ltac:(lia) ltac:(lia)) as Hd.
    unfold fexp64 in *. lia.
  - rewrite Zdigits2_div by lia.
    replace (Zdigits2 m - (e1 - e) + e1)%Z with (Zdigits2 m + e)%Z by lia.
    reflexivity.
Qed.

Lemma round_nearest_even_cases (m : Z) (l : location) :
  round_nearest_even m l = m \/ round_nearest_even m l = (m + 1)%Z.
Proof.
  destruct l as [|[]]; cbn; auto. destruct (Z.even m); auto.
Qed.

Lemma canon_bound (m e : Z) :
  canon m e -> (0 <= m < 2 ^ 53)%Z /\ (-1074 <= e)%Z.
Proof.
  intros [H0 He]. unfold fexp64 in He.
  split; [|lia]. split; [exact H0|].
  destruct (Z.eq_dec m 0) as [->|Hne]; [reflexivity|].
  pose proof (Zdigits2_spec m ltac:(lia)) as [_ Hhi].
  assert (2 ^ Zdigits2 m <= 2 ^ 53)%Z by (apply Z.pow_le_mono_r; lia).
  lia.
Qed.

(** [binary_round_aux] rounds to nearest, ties to even. *)
Lemma binary_round_aux_correct (s : bool) (r : R) (m e : Z) (l : location) :
  (0 <= m)%Z -> located r m e l ->
  (e <= fexp64 (Zdigits2 m + e))%Z ->
  exists M E, rnd r M E /\ binary_round_aux prec emax s m e l = pack s M E.
Proof.
  intros Hm Hloc He. unfold binary_round_aux.
  pose proof (shr_fexp_canon r m e l Hm Hloc He) as Hfirst.
  destruct (shr_fexp prec emax m e l) as [mrs1 e1]. cbn [fst snd] in Hfirst.
  destruct Hfirst as [Hcanon Hloc1].
  set (m1 := shr_m mrs1) in *. set (l1 := loc_of_shr_record mrs1) in *.
  set (M := round_nearest_even m1 l1).
  exists M, e1. split; [exists m1, l1; auto|].
  destruct (canon_bound _ _ Hcanon) as [Hm1 He1].
  pose proof (round_nearest_even_cases m1 l1) as HM. fold M in HM.
  destruct Hcanon as [_ Hcan].
  unfold shr_fexp. rewrite fexp_eq. unfold pack.
  destruct (Z.eqb_spec M 0) as [HM0|HM0].
  - assert (m1 = 0%Z) by lia. rewrite HM0. cbn [Zdigits2].
    replace (fexp64 (0 + e1) - e1)%Z with 0%Z
      by (rewrite H in Hcan; cbn [Zdigits2] in Hcan; lia).
    reflexivity.
  - destruct (Z.ltb_spec M (2 ^ 53)) as [Hlt|Hge].
    + assert (Hn : (fexp64 (Zdigits2 M + e1) - e1 <= 0)%Z).
      { pose proof (Zdigits2_le M 53 ltac:(lia) ltac:(lia)).
        unfold fexp64. lia. }
      destruct (fexp64 (Zdigits2 M + e1) - e1)%Z as [|p|p] eqn:En; try lia;
        cbn [shr shr_record_of_loc shr_m];
        destruct M as [|pM|pM]; try lia; reflexivity.
    + assert (HM53 : M = (2 ^ 53)%Z) by lia.
      rewrite HM53.
      replace (fexp64 (Zdigits2 (2 ^ 53) + e1) - e1)%Z with 1%Z
        by (change (Zdigits2 (2 ^ 53)) with 54%Z; unfold fexp64; lia).
      reflexivity.
Qed.

Lemma located_bounds (r : R) (m e : Z) (l : location) :
  located r m e l -> IZR m * bpow e <= r < (IZR m + 1) * bpow e.
Proof.
  pose proof (bpow_pos e).
  destruct l as [|[]]; unfold located; intros; lra.
Qed.

Lemma round_nearest_even_bounds (m : Z) (l : location) :
  (m <= round_nearest_even m l <= m + 1)%Z.
Proof.
  destruct (round_nearest_even_cases m l) as [-> | ->]; lia.
Qed.

Lemma canon_normal (m e : Z) :
  canon m e -> (-1074 < e)%Z -> (2 ^ 52 <= m)%Z.
Proof.
  intros [H0 He] Hgt. unfold fexp64 in He.
  assert (Hd : Zdigits2 m = 53%Z) by lia.
  destruct (Z.eq_dec m 0) as [->|Hne]; [cbn in Hd; lia|].
  pose proof (Zdigits2_spec m ltac:(lia)) as [Hlo _].
  rewrite Hd in Hlo. exact Hlo.
Qed.

(** Rounding is monotone. *)
Lemma rnd_mono (r1 r2 : R) (M1 E1 M2 E2 : Z) :
  rnd r1 M1 E1 -> rnd r2 M2 E2 -> r1 <= r2 ->
  IZR M1 * bpow E1 <= IZR M2 * bpow E2.
Proof.
  intros (m1 & l1 & Hc1 & Hl1 & ->) (m2 & l2 & Hc2 & Hl2 & ->) Hr.
  pose proof (located_bounds _ _ _ _ Hl1) as Hb1.
  pose proof (located_bounds _ _ _ _ Hl2) as Hb2.
  pose proof (round_nearest_even_bounds m1 l1) as HM1.
  pose proof (round_nearest_even_bounds m2 l2) as HM2.
  destruct (canon_bound _ _ Hc1) as [Hm1 He1].
  destruct (canon_bound _ _ Hc2) as [Hm2 He2].
  pose proof (bpow_pos E1) as HB1. pose proof (bpow_pos E2) as HB2.
  destruct (Z.lt_trichotomy E1 E2) as [Hlt|[Heq|Hgt]].
  - pose proof (canon_normal _ _ Hc2 ltac:(lia)) as Hn2.
    pose proof (bpow_le (E1 + 1) E2 ltac:(lia)) as HB.
    rewrite bpow_succ in HB.
    assert (H1 : IZR (round_nearest_even m1 l1) <= IZR (2 ^ 53))
      by (apply IZR_le; lia).
    assert (H2 : IZR (2 ^ 52) <= IZR (round_nearest_even m2 l2))
      by (apply IZR_le; lia).
    change (IZR (2 ^ 53)) with 9007199254740992 in H1.
    change (IZR (2 ^ 52)) with 4503599627370496 in H2.
    apply Rle_trans with (9007199254740992 * bpow E1); [nra|].
    apply Rle_trans with (4503599627370496 * bpow E2); nra.
  - subst E2.
    assert (Hm : (m1 <= m2)%Z).
    { assert (IZR m1 < IZR m2 + 1) by nra.
      rewrite <- plus_IZR in H. apply lt_IZR in H. lia. }
    destruct (Z.eq_dec m1 m2) as [->|Hne].
    + apply Rmult_le_compat_r; [lra|]. apply IZR_le.
      destruct l1 as [|[]], l2 as [|[]]; cbn [round_nearest_even];
        try lia; unfold located in *; try (exfalso; lra);
        destruct (Z.even m2); lia || (exfalso; lra).
    + apply Rmult_le_compat_r; [lra|]. apply IZR_le. lia.
  - exfalso.
    pose proof (canon_normal _ _ Hc1 ltac:(lia)) as Hn1.
    pose proof (bpow_le (E2 + 1) E1 ltac:(lia)) as HB.
    rewrite bpow_succ in HB.
    assert (H1 : IZR (2 ^ 52) <= IZR m1) by (apply IZR_le; lia).
    assert (H2 : IZR m2 + 1 <= IZR (2 ^ 53))
      by (rewrite <- plus_IZR; apply IZR_le; lia).
    change (IZR (2 ^ 53)) with 9007199254740992 in H2.
    change (IZR (2 ^ 52)) with 4503599627370496 in H1.
    assert (r2 < 9007199254740992 * bpow E2) by nra.
    assert (4503599627370496 * bpow E1 <= r1) by nra.
    nra.
Qed.

Lemma rnd_exact (m e : Z) : canon m e -> rnd (IZR m * bpow e) m e.
Proof.
  intros Hc. exists m, loc_Exact. repeat split; try apply Hc.
Qed.

(** The rounding error is at most half a unit in the last place. *)
Lemma rnd_error (r : R) (M E : Z) :
  rnd r M E -> Rabs (IZR M * bpow E - r) <= bpow E / 2.
Proof.
  intros (m & l & Hc & Hl & ->). pose proof (bpow_pos E) as HB.
  apply Rabs_le.
  destruct l as [|[]]; cbn [round_nearest_even]; unfold located in Hl.
  - lra.
  - destruct (Z.even m); [lra|]. rewrite plus_IZR. lra.
  - lra.
  - rewrite plus_IZR. lra.
Qed.

Lemma rnd_nonneg (r : R) (M E : Z) :
  rnd r M E -> (0 <= M <= 2 ^ 53)%Z /\ (-1074 <= E)%Z /\ 0 <= r /\
  ((-1074 < E)%Z -> (2 ^ 52 <= M)%Z).
Proof.
  intros (m & l & Hc & Hl & ->).
  pose proof (round_nearest_even_bounds m l).
  destruct (canon_bound _ _ Hc) as [Hm He].
  pose proof (located_bounds _ _ _ _ Hl) as Hb.
  pose proof (bpow_pos E).
  assert (0 <= IZR m) by (apply IZR_le; lia).
  repeat split; try lia; try nra.
  intros HE. pose proof (canon_normal _ _ Hc HE). lia.
Qed.

Lemma valid_canon (s : bool) (m : positive) (e : Z) :
  valid_binary (S754_finite s m e) = true ->
  canon (Z.pos m) e /\ (e <= 971)%Z.
Proof.
  cbn. unfold bounded, canonical_mantissa. rewrite fexp_eq.
  intros H. apply andb_true_iff in H. destruct H as [H1 H2].
  apply Z.eqb_eq in H1. apply Z.leb_le in H2.
  split; [|exact H2]. split; [lia|]. cbn [Zdigits2]. lia.
Qed.

Lemma valid_value (s : bool) (m : positive) (e : Z) :
  valid_binary (S754_finite s m e) = true ->
  0 < IZR (Z.pos m) * bpow e < bpow 1024.
Proof.
  intros Hv. destruct (valid_canon _ _ _ Hv) as [Hc He].
  destruct (canon_bound _ _ Hc) as [Hm _].
  pose proof (bpow_pos e) as HB.
  assert (H1 : 1 <= IZR (Z.pos m)) by (apply IZR_le; lia).
  assert (H2 : IZR (Z.pos m) < IZR (2 ^ 53)) by (apply IZR_lt; lia).
  split; [nra|].
  pose proof (bpow_le e 971 He) as HB'.
  replace (bpow 1024) with (IZR (2 ^ 53) * bpow 971).
  - apply Rlt_le_trans with (IZR (2 ^ 53) * bpow e); [nra|].
    assert (0 < IZR (2 ^ 53)) by lra. nra.
  - rewrite <- (bpow_IZR 53) by lia. rewrite <- bpow_add. reflexivity.
Qed.

(** Values of canonical mantissas compare as (exponent, mantissa). *)
Lemma canon_lt_exp (m1 e1 m2 e2 : Z) :
  canon m1 e1 -> canon m2 e2 -> (0 < m2)%Z -> (e1 < e2)%Z ->
  IZR m1 * bpow e1 < IZR m2 * bpow e2.
Proof.
  intros Hc1 Hc2 Hp He.
  destruct (canon_bound _ _ Hc1) as [Hm1 He1].
  pose proof (canon_normal _ _ Hc2 ltac:(lia)) as Hn2.
  pose proof (bpow_le (e1 + 1) e2 ltac:(lia)) as HB.
  rewrite bpow_succ in HB. pose proof (bpow_pos e1).
  assert (H1 : IZR m1 < IZR (2 ^ 53)) by (apply IZR_lt; lia).
  assert (H2 : IZR (2 ^ 52) <= IZR m2) by (apply IZR_le; lia).
  change (IZR (2 ^ 53)) with 9007199254740992 in H1.
  change (IZR (2 ^ 52)) with 4503599627370496 in H2.
  apply Rlt_le_trans with (9007199254740992 * bpow e1); [nra|].
  apply Rle_trans with (4503599627370496 * bpow e2); nra.
Qed.

Lemma F2R_pos (m e : Z) : F2R false m e = IZR m * bpow e.
Proof. unfold F2R. lra. Qed.

Lemma F2R_neg (m e : Z) : F2R true m e = - (IZR m * bpow e).
Proof. unfold F2R. lra. Qed.

(** The order of the doubles is the order of their values. *)
Lemma SFltb_SF2R (x y : spec_float) :
  valid_binary x = true -> valid_binary y = true ->
  is_nan_SF x = false -> is_nan_SF y = false ->
  (SFltb x y = true <-> SF2R x < SF2R y).
Proof.
  intros Hx Hy Nx Ny. unfold SFltb.
  pose proof (bpow_pos 1024) as Hinf.
  destruct x as [sx|sx| |sx mx ex], y as [sy|sy| |sy my ey];
    try discriminate; cbn [SFcompare SF2R];
    rewrite ?F2R_pos, ?F2R_neg;
    try (pose proof (valid_value _ _ _ Hx) as Vx);
    try (pose proof (valid_value _ _ _ Hy) as Vy).
  all: try (try destruct sx; try destruct sy; rewrite ?F2R_pos, ?F2R_neg;
            rewrite ?Rmult_1_l in *;
            (split; [try discriminate; try (intros _; lra)|
                     try reflexivity; try (intros; exfalso; lra)]); fail).
  destruct (valid_canon _ _ _ Hx) as [Cx _].
  destruct (valid_canon _ _ _ Hy) as [Cy _].
  pose proof (bpow_pos ex).
  assert (Hmant : forall c, Pos.compare_cont Eq mx my = c ->
            ex = ey ->
            match c with
            | Lt => IZR (Z.pos mx) * bpow ex < IZR (Z.pos my) * bpow ey
            | Eq => IZR (Z.pos mx) * bpow ex = IZR (Z.pos my) * bpow ey
            | Gt => IZR (Z.pos my) * bpow ey < IZR (Z.pos mx) * bpow ex
            end).
  { intros c Hc <-. change (Pos.compare_cont Eq mx my) with (mx ?= my)%positive in Hc.
    destruct c.
    - apply Pos.compare_eq in Hc. now subst.
    - apply Rmult_lt_compat_r; [apply bpow_pos|]. apply IZR_lt.
      apply Pos2Z.pos_lt_pos. exact Hc.
    - apply Pos.compare_gt_iff in Hc.
      apply Rmult_lt_compat_r; [apply bpow_pos|]. apply IZR_lt.
      apply Pos2Z.pos_lt_pos. exact Hc. }
  destruct sx, sy; rewrite ?F2R_pos, ?F2R_neg;
    try (split; [try discriminate; try (intros _; lra)|
                 try reflexivity; try (intros; exfalso; lra)]; fail).
  - destruct (Z.compare_spec ex ey) as [He|He|He].
    + specialize (Hmant _ eq_refl He).
      destruct (Pos.compare_cont Eq mx my); cbn [CompOpp];
        (split; [try discriminate; try (intros _; lra)|
                 try reflexivity; try (intros; exfalso; lra)]).
    + pose proof (canon_lt_exp _ _ _ _ Cx Cy ltac:(lia) He).
      split; [discriminate|intros; exfalso; lra].
    + pose proof (canon_lt_exp _ _ _ _ Cy Cx ltac:(lia) He).
      split; [intros _; lra|reflexivity].
  - destruct (Z.compare_spec ex ey) as [He|He|He].
    + specialize (Hmant _ eq_refl He).
      destruct (Pos.compare_cont Eq mx my); cbn [CompOpp];
        (split; [try discriminate; try (intros _; lra)|
                 try reflexivity; try (intros; exfalso; lra)]).
    + pose proof (canon_lt_exp _ _ _ _ Cx Cy ltac:(lia) He).
      split; [intros _; lra|reflexivity].
    + pose proof (canon_lt_exp _ _ _ _ Cy Cx ltac:(lia) He).
      split; [discriminate|intros; exfalso; lra].
Qed.

Lemma bpow_1024 : bpow 1024 = IZR (2 ^ 53) * bpow 971.
Proof.
  rewrite <- (bpow_IZR 53) by lia. rewrite <- bpow_add. reflexivity.
Qed.

Lemma pack_value (s : bool) (r : R) (M E : Z) :
  rnd r M E ->
  SF2R (pack s M E)
  = (if s then -1 else 1) * Rmin (IZR M * bpow E) (bpow 1024).
Proof.
  intros Hr. destruct (rnd_nonneg _ _ _ Hr) as (HM & HE & _ & Hnorm).
  pose proof (bpow_pos E) as HB. pose proof (bpow_pos 1024) as HT.
  unfold pack.
  destruct (Z.eqb_spec M 0) as [->|HM0].
  - cbn [SF2R]. rewrite Rmult_0_l, Rmin_left by lra. lra.
  - assert (HMp : 1 <= IZR M) by (apply IZR_le; lia).
    destruct (Z.ltb_spec M (2 ^ 53)) as [Hlt|Hge].
    + destruct (Z.leb_spec E 971) as [Hle|Hgt].
      * cbn [SF2R]. unfold F2R. rewrite Z2Pos.id by lia.
        rewrite Rmin_left; [lra|].
        rewrite bpow_1024. pose proof (bpow_le E 971 Hle).
        assert (IZR M <= IZR (2 ^ 53)) by (apply IZR_le; lia).
        assert (0 < IZR (2 ^ 53)) by (apply IZR_lt; lia).
        apply Rle_trans with (IZR (2 ^ 53) * bpow E); nra.
      * cbn [SF2R]. unfold F2R. rewrite Rmin_right.
        { replace (bpow 1024) with (IZR 1 * bpow 1024) at 2 by lra.
          replace (IZR 1) with 1 by reflexivity. lra. }
        specialize (Hnorm ltac:(lia)).
        replace (bpow 1024) with (IZR (2 ^ 52) * bpow 972)
          by (rewrite <- (bpow_IZR 52) by lia; rewrite <- bpow_add;
              reflexivity).
        pose proof (bpow_le 972 E ltac:(lia)). pose proof (bpow_pos 972).
        assert (IZR (2 ^ 52) <= IZR M) by (apply IZR_le; lia).
        assert (0 < IZR (2 ^ 52)) by (apply IZR_lt; lia).
        apply Rle_trans with (IZR (2 ^ 52) * bpow E); nra.
    + assert (HM53 : M = (2 ^ 53)%Z) by lia. subst M.
      destruct (Z.leb_spec (E + 1) 971) as [Hle|Hgt].
      * cbn [SF2R]. unfold F2R.
        change (Z.pos (Z.to_pos (2 ^ 52))) with (2 ^ 52)%Z.
        rewrite bpow_succ.
        replace (IZR (2 ^ 53)) with (2 * IZR (2 ^ 52))
          by (rewrite <- mult_IZR; reflexivity).
        rewrite Rmin_left; [lra|].
        rewrite bpow_1024. pose proof (bpow_le E 971 ltac:(lia)).
        replace (IZR (2 ^ 53)) with (2 * IZR (2 ^ 52))
          by (rewrite <- mult_IZR; reflexivity).
        assert (0 < IZR (2 ^ 52)) by (apply IZR_lt; lia). nra.
      * cbn [SF2R]. unfold F2R. rewrite Rmin_right.
        { replace (IZR 1) with 1 by reflexivity. lra. }
        rewrite bpow_1024. pose proof (bpow_le 971 E ltac:(lia)).
        assert (0 < IZR (2 ^ 53)) by (apply IZR_lt; lia). nra.
Qed.

Lemma pack_not_nan (s : bool) (M E : Z) : is_nan_SF (pack s M E) = false.
Proof.
  unfold pack. destruct (M =? 0)%Z; [reflexivity|].
  destruct (M <? 2 ^ 53)%Z.
  - destruct (E <=? 971)%Z; reflexivity.
  - destruct (E + 1 <=? 971)%Z; reflexivity.
Qed.

Lemma rounds_not_nan (t : R) (z : spec_float) :
  rounds t z -> is_nan_SF z = false.
Proof.
  intros [[_ [s ->]]|[[_ (M & E & _ & ->)]|[_ (M & E & _ & ->)]]];
    [reflexivity|apply pack_not_nan|apply pack_not_nan].
Qed.

Lemma rounds_value (t : R) (z : spec_float) :
  rounds t z ->
  (t = 0 /\ SF2R z = 0) \/
  (0 < t /\ exists M E, rnd t M E /\
            SF2R z = Rmin (IZR M * bpow E) (bpow 1024)) \/
  (t < 0 /\ exists M E, rnd (- t) M E /\
            SF2R z = - Rmin (IZR M * bpow E) (bpow 1024)).
Proof.
  intros [[Ht [s ->]]|[[Ht (M & E & Hr & ->)]|[Ht (M & E & Hr & ->)]]].
  - left. auto.
  - right. left. split; [exact Ht|]. exists M, E. split; [exact Hr|].
    rewrite (pack_value false _ _ _ Hr). lra.
  - right. right. split; [exact Ht|]. exists M, E. split; [exact Hr|].
    rewrite (pack_value true _ _ _ Hr). lra.
Qed.

Lemma Rmin_nonneg (a b : R) : 0 <= a -> 0 <= b -> 0 <= Rmin a b.
Proof. intros. apply Rmin_glb; assumption. Qed.

Lemma rnd_value_nonneg (r : R) (M E : Z) :
  rnd r M E -> 0 <= IZR M * bpow E.
Proof.
  intros Hr. destruct (rnd_nonneg _ _ _ Hr) as (HM & _).
  pose proof (bpow_pos E). assert (0 <= IZR M) by (apply IZR_le; lia). nra.
Qed.

(** Rounding to a double is monotone. *)
Lemma rounds_mono (t t' : R) (z z' : spec_float) :
  rounds t z -> rounds t' z' -> t <= t' -> SF2R z <= SF2R z'.
Proof.
  intros Hz Hz' Ht. pose proof (bpow_pos 1024) as HT.
  destruct (rounds_value _ _ Hz)
    as [[H0 ->]|[[H0 (M & E & Hr & ->)]|[H0 (M & E & Hr & ->)]]];
  destruct (rounds_value _ _ Hz')
    as [[H0' ->]|[[H0' (M' & E' & Hr' & ->)]|[H0' (M' & E' & Hr' & ->)]]];
    try (exfalso; lra); try lra;
    try pose proof (rnd_value_nonneg _ _ _ Hr);
    try pose proof (rnd_value_nonneg _ _ _ Hr');
    try (pose proof (Rmin_nonneg (IZR M * bpow E) (bpow 1024));
         pose proof (Rmin_nonneg (IZR M' * bpow E') (bpow 1024)); lra);
    try (pose proof (Rmin_nonneg (IZR M * bpow E) (bpow 1024)); lra);
    try (pose proof (Rmin_nonneg (IZR M' * bpow E') (bpow 1024)); lra).
  - pose proof (rnd_mono _ _ _ _ _ _ Hr Hr' Ht).
    apply Rle_min_compat_r. assumption.
  - assert (Ht2 : - t' <= - t) by lra.
    pose proof (rnd_mono _ _ _ _ _ _ Hr' Hr Ht2).
    apply Ropp_le_contravar. apply Rle_min_compat_r. assumption.
Qed.

Lemma rounds_range (t : R) (z : spec_float) :
  rounds t z -> - bpow 1024 <= SF2R z <= bpow 1024.
Proof.
  intros Hz. pose proof (bpow_pos 1024) as HT.
  destruct (rounds_value _ _ Hz)
    as [[H0 ->]|[[H0 (M & E & Hr & ->)]|[H0 (M & E & Hr & ->)]]].
  - lra.
  - pose proof (rnd_value_nonneg _ _ _ Hr).
    pose proof (Rmin_r (IZR M * bpow E) (bpow 1024)).
    pose proof (Rmin_nonneg (IZR M * bpow E) (bpow 1024)). lra.
  - pose proof (rnd_value_nonneg _ _ _ Hr).
    pose proof (Rmin_r (IZR M * bpow E) (bpow 1024)).
    pose proof (Rmin_nonneg (IZR M * bpow E) (bpow 1024)). lra.
Qed.

(** A double is the rounding of its own value. *)
Lemma rounds_id (x : spec_float) :
  valid_binary x = true ->
  match x with
  | S754_zero _ | S754_finite _ _ _ => rounds (SF2R x) x
  | _ => True
  end.
Proof.
  intros Hv. destruct x as [s|s| |s m e]; trivial.
  - left. split; [reflexivity|eauto].
  - destruct (valid_canon _ _ _ Hv) as [Hc He].
    destruct (canon_bound _ _ Hc) as [Hm _].
    pose proof (valid_value _ _ _ Hv) as Hval.
    assert (Hpack : forall s', pack s' (Z.pos m) e = S754_finite s' m e).
    { intros s'. unfold pack. cbn [Z.eqb].
      destruct (Z.ltb_spec (Z.pos m) (2 ^ 53)); [|lia].
      destruct (Z.leb_spec e 971); [|lia]. reflexivity. }
    cbn [SF2R]. destruct s; rewrite ?F2R_pos, ?F2R_neg.
    + right. right. split; [lra|]. exists (Z.pos m), e.
      rewrite Ropp_involutive. split; [apply rnd_exact, Hc|].
      symmetry. apply Hpack.
    + right. left. split; [lra|]. exists (Z.pos m), e.
      split; [apply rnd_exact, Hc|]. symmetry. apply Hpack.
Qed.

Lemma Zdigits2_mul (a b : Z) :
  (0 < a)%Z -> (0 < b)%Z ->
  (Zdigits2 a + Zdigits2 b - 1 <= Zdigits2 (a * b))%Z.
Proof.
  intros Ha Hb.
  pose proof (Zdigits2_spec a Ha) as [Hla _].
  pose proof (Zdigits2_spec b Hb) as [Hlb _].
  pose proof (Zdigits2_spec (a * b) ltac:(lia)) as [_ Hh].
  pose proof (Zdigits2_pos a Ha). pose proof (Zdigits2_pos b Hb).
  assert (Hprod : (2 ^ (Zdigits2 a - 1 + (Zdigits2 b - 1)) <= a * b)%Z).
  { rewrite Z.pow_add_r by lia. apply Z.mul_le_mono_nonneg; try lia;
      apply Z.pow_nonneg; lia. }
  destruct (Z_le_gt_dec (Zdigits2 a + Zdigits2 b - 1) (Zdigits2 (a * b)))
    as [H1|H1]; [exact H1|].
  assert (2 ^ Zdigits2 (a * b) <= 2 ^ (Zdigits2 a - 1 + (Zdigits2 b - 1)))%Z
    by (apply Z.pow_le_mono_r; lia).
  lia.
Qed.

Lemma SF2R_sign (s : bool) (m e : Z) :
  F2R s m e = (if s then -1 else 1) * (IZR m * bpow e).
Proof. unfold F2R. ring. Qed.

(** The product of two doubles is the rounding of the product of their
    values. *)
Lemma SFmul_rounds (x y : spec_float) :
  valid_binary x = true -> valid_binary y = true ->
  finite_or_zero x = true -> finite_or_zero y = true ->
  rounds (SF2R x * SF2R y) (SFmul prec emax x y).
Proof.
  intros Hx Hy Fx Fy.
  destruct x as [sx|sx| |sx mx ex], y as [sy|sy| |sy my ey];
    try discriminate; cbn [SFmul SF2R].
  - left. split; [ring|eauto].
  - left. split; [ring|eauto].
  - left. split; [ring|eauto].
  - destruct (valid_canon _ _ _ Hx) as [[_ Cx] _].
    destruct (valid_canon _ _ _ Hy) as [[_ Cy] _].
    pose proof (valid_value _ _ _ Hx) as Vx.
    pose proof (valid_value _ _ _ Hy) as Vy.
    pose proof (Zdigits2_mul (Z.pos mx) (Z.pos my) ltac:(lia) ltac:(lia))
      as Hd.
    pose proof (Zdigits2_pos (Z.pos mx) ltac:(lia)).
    pose proof (Zdigits2_pos (Z.pos my) ltac:(lia)).
    set (r := IZR (Z.pos mx) * bpow ex * (IZR (Z.pos my) * bpow ey)).
    assert (Hr : 0 < r) by (subst r; nra).
    destruct (binary_round_aux_correct (xorb sx sy) r
                (Z.pos (mx * my)) (ex + ey) loc_Exact)
      as (M & E & Hrnd & Hres).
    + lia.
    + unfold located. subst r. rewrite Pos2Z.inj_mul, mult_IZR, bpow_add.
      ring.
    + rewrite Pos2Z.inj_mul. unfold fexp64 in *. lia.
    + rewrite Hres. rewrite !SF2R_sign.
      destruct sx, sy; cbn [xorb].
      * right. left. split; [fold r; nra|]. exists M, E.
        split; [|reflexivity].
        replace (-1 * (IZR (Z.pos mx) * bpow ex)
                 * (-1 * (IZR (Z.pos my) * bpow ey))) with r
          by (subst r; ring).
        exact Hrnd.
      * right. right. split; [fold r; nra|]. exists M, E.
        split; [|reflexivity].
        replace (- (-1 * (IZR (Z.pos mx) * bpow ex)
                 * (1 * (IZR (Z.pos my) * bpow ey)))) with r
          by (subst r; ring).
        exact Hrnd.
      * right. right. split; [fold r; nra|]. exists M, E.
        split; [|reflexivity].
        replace (- (1 * (IZR (Z.pos mx) * bpow ex)
                 * (-1 * (IZR (Z.pos my) * bpow ey)))) with r
          by (subst r; ring).
        exact Hrnd.
      * right. left. split; [fold r; nra|]. exists M, E.
        split; [|reflexivity].
        replace (1 * (IZR (Z.pos mx) * bpow ex)
                 * (1 * (IZR (Z.pos my) * bpow ey))) with r
          by (subst r; ring).
        exact Hrnd.
Qed.

Lemma Zdigits2_ge (q k : Z) :
  (0 <= k)%Z -> (2 ^ k <= q)%Z -> (k + 1 <= Zdigits2 q)%Z.
Proof.
  intros Hk Hq.
  assert (H2k : (0 < 2 ^ k)%Z) by (apply Z.pow_pos_nonneg; lia).
  pose proof (Zdigits2_spec q ltac:(lia)) as [_ Hhi].
  destruct (Z_le_gt_dec (k + 1) (Zdigits2 q)) as [H|H]; [exact H|].
  assert (2 ^ Zdigits2 q <= 2 ^ k)%Z
    by (apply Z.pow_le_mono_r; [lia|lia]).
  lia.
Qed.

Lemma new_location_located (rho : R) (q r my e : Z) (y : R) :
  (0 <= r < my)%Z ->
  y * IZR my = IZR r ->
  rho = (IZR q + y) * bpow e ->
  located rho q e (new_location my r).
Proof.
  intros Hr Hy ->. pose proof (bpow_pos e) as HB.
  assert (Hmy : 0 < IZR my) by (apply IZR_lt; lia).
  assert (Hr0 : 0 <= IZR r) by (apply IZR_le; lia).
  assert (Hy0 : 0 <= y) by nra.
  unfold new_location.
  destruct (Z.eqb_spec r 0) as [Hz|Hne].
  - subst r. assert (y = 0) by nra. subst y.
    destruct (Z.even my); unfold new_location_even, new_location_odd;
      cbn [Z.eqb]; unfold located; ring.
  - assert (Hrp : 1 <= IZR r) by (apply IZR_le; lia).
    assert (Hyp : 0 < y) by nra.
    assert (Hy1 : y < 1).
    { assert (IZR r < IZR my) by (apply IZR_lt; lia). nra. }
    apply Z.eqb_neq in Hne.
    destruct (Z.even my) eqn:Heven;
      unfold new_location_even, new_location_odd; rewrite Hne.
    + destruct (Z.compare_spec (2 * r) my) as [Hc|Hc|Hc]; unfold located.
      * assert (H2 : IZR (2 * r) = IZR my) by (f_equal; exact Hc).
        rewrite mult_IZR in H2.
        assert (y = / 2) by nra. subst y. reflexivity.
      * assert (2 * IZR r < IZR my)
          by (rewrite <- (mult_IZR 2); apply IZR_lt; lia).
        assert (y < / 2) by nra. nra.
      * assert (IZR my < 2 * IZR r)
          by (rewrite <- (mult_IZR 2); apply IZR_lt; lia).
        assert (/ 2 < y) by nra. nra.
    + assert (Hodd : (2 * r <> my)%Z).
      { intros <-. rewrite Z.even_mul in Heven. discriminate. }
      destruct (Z.compare_spec (2 * r + 1) my) as [Hc|Hc|Hc]; unfold located.
      * assert (2 * IZR r < IZR my)
          by (rewrite <- (mult_IZR 2); apply IZR_lt; lia).
        assert (y < / 2) by nra. nra.
      * assert (2 * IZR r < IZR my)
          by (rewrite <- (mult_IZR 2); apply IZR_lt; lia).
        assert (y < / 2) by nra. nra.
      * assert (IZR my < 2 * IZR r)
          by (rewrite <- (mult_IZR 2); apply IZR_lt; lia).
        assert (/ 2 < y) by nra. nra.
Qed.

(** The quotient computed by [SFdiv_core_binary] and its position. *)
Lemma SFdiv_core_located (mx my : positive) (ex ey : Z) :
  let '(q, e', l) :=
    SFdiv_core_binary prec emax (Z.pos mx) ex (Z.pos my) ey in
  (0 <= q)%Z /\
  located (IZR (Z.pos mx) * bpow ex / (IZR (Z.pos my) * bpow ey)) q e' l /\
  (e' <= fexp64 (Zdigits2 q + e'))%Z.
Proof.
  unfold SFdiv_core_binary. rewrite fexp_eq.
  set (d1 := Zdigits2 (Z.pos mx)). set (d2 := Zdigits2 (Z.pos my)).
  set (g := (d1 + ex - (d2 + ey))%Z).
  set (e' := Z.min (fexp64 g) (ex - ey)).
  set (s := (ex - ey - e')%Z).
  assert (Hs : (0 <= s)%Z) by (subst s e'; lia).
  set (m' := match s with
             | 0%Z => Z.pos mx
             | Z.pos _ => Z.shiftl (Z.pos mx) s
             | Z.neg _ => 0%Z
             end).
  assert (Hm' : m' = (Z.pos mx * 2 ^ s)%Z).
  { subst m'. destruct s as [|p|p] eqn:Es; [cbn; lia| |lia].
    apply Z.shiftl_mul_pow2. lia. }
  clearbody m'.
  pose proof (Z_div_mod m' (Z.pos my) ltac:(lia)) as Hdiv.
  destruct (Z.div_eucl m' (Z.pos my)) as [q r].
  destruct Hdiv as [Heq Hr].
  assert (H2s : (0 < 2 ^ s)%Z) by (apply Z.pow_pos_nonneg; lia).
  assert (Hq : (0 <= q)%Z) by nia.
  pose proof (Zdigits2_spec (Z.pos mx) ltac:(lia)) as [Hl1 Hh1].
  pose proof (Zdigits2_spec (Z.pos my) ltac:(lia)) as [Hl2 Hh2].
  pose proof (Zdigits2_pos (Z.pos mx) ltac:(lia)) as Hd1.
  pose proof (Zdigits2_pos (Z.pos my) ltac:(lia)) as Hd2.
  fold d1 in Hl1, Hh1, Hd1. fold d2 in Hl2, Hh2, Hd2.
  split; [exact Hq|]. split.
  - pose proof (bpow_pos ey) as HBy. pose proof (bpow_pos e') as HBe.
    assert (Hmy : 0 < IZR (Z.pos my)) by (apply IZR_lt; lia).
    apply new_location_located with (y := IZR r / IZR (Z.pos my)).
    + exact Hr.
    + field. lra.
    + replace ex with (s + e' + ey)%Z by (subst s; lia).
      rewrite !bpow_add, (bpow_IZR s) by lia.
      assert (HI : IZR (Z.pos mx) * IZR (2 ^ s)
                   = IZR (Z.pos my) * IZR q + IZR r).
      { rewrite <- !mult_IZR, <- plus_IZR. f_equal. lia. }
      field_simplify; [|lra|lra].
      rewrite HI. field. lra.
  - destruct (Z.eq_dec q 0) as [->|Hq0].
    + cbn [Zdigits2].
      assert (Hlt : (Z.pos mx * 2 ^ s < Z.pos my)%Z) by lia.
      assert (Hpow : (2 ^ (d1 - 1 + s) < 2 ^ d2)%Z).
      { rewrite Z.pow_add_r by lia. nia. }
      apply Z.pow_lt_mono_r_iff in Hpow; [|lia|lia].
      subst s e' g. unfold fexp64 in *. lia.
    + assert (Hdq : (d1 + s - d2 <= Zdigits2 q)%Z).
      { destruct (Z_lt_ge_dec (d1 + s - d2 - 1) 0) as [Hk|Hk].
        - pose proof (Zdigits2_pos q ltac:(lia)). lia.
        - pose proof (Zdigits2_ge q (d1 + s - d2 - 1) ltac:(lia)) as HH.
          assert ((2 ^ (d1 + s - d2 - 1) <= q)%Z); [|lia].
          assert (Hlow : (2 ^ (d1 + s - d2 - 1) * Z.pos my <= m')%Z).
          { rewrite Hm'.
            apply Z.le_trans with (2 ^ (d1 + s - d2 - 1) * 2 ^ d2)%Z.
            - apply Z.mul_le_mono_nonneg_l; [apply Z.pow_nonneg; lia|lia].
            - rewrite <- Z.pow_add_r by lia.
              replace (d1 + s - d2 - 1 + d2)%Z with (d1 - 1 + s)%Z by lia.
              rewrite Z.pow_add_r by lia.
              apply Z.mul_le_mono_nonneg_r; lia. }
          nia. }
      subst s e' g. unfold fexp64 in *. lia.
Qed.

(** The quotient of two doubles is the rounding of the quotient of their
    values. *)
Lemma SFdiv_rounds (x y : spec_float) :
  valid_binary x = true -> valid_binary y = true ->
  finite_or_zero x = true ->
  (exists sy my ey, y = S754_finite sy my ey) ->
  rounds (SF2R x / SF2R y) (SFdiv prec emax x y).
Proof.
  intros Hx Hy Fx (sy & my & ey & ->).
  pose proof (valid_value _ _ _ Hy) as Vy.
  destruct x as [sx|sx| |sx mx ex]; try discriminate; cbn [SFdiv SF2R].
  - left. split; [|eauto]. unfold Rdiv. ring.
  - pose proof (valid_value _ _ _ Hx) as Vx.
    pose proof (SFdiv_core_located mx my ex ey) as Hcore.
    destruct (SFdiv_core_binary prec emax (Z.pos mx) ex (Z.pos my) ey)
      as [[q e'] l].
    destruct Hcore as (Hq & Hloc & He).
    set (r := IZR (Z.pos mx) * bpow ex / (IZR (Z.pos my) * bpow ey)) in *.
    assert (Hr : 0 < r) by (subst r; apply Rdiv_lt_0_compat; lra).
    destruct (binary_round_aux_correct (xorb sx sy) r q e' l Hq Hloc He)
      as (M & E & Hrnd & Hres).
    rewrite Hres. rewrite !SF2R_sign.
    assert (Hy0 : IZR (Z.pos my) * bpow ey <> 0) by lra.
    destruct sx, sy; cbn [xorb].
    + right. left.
      replace (-1 * (IZR (Z.pos mx) * bpow ex)
               / (-1 * (IZR (Z.pos my) * bpow ey))) with r
        by (subst r; field; split; [apply Rgt_not_eq, bpow_pos|apply Rgt_not_eq, IZR_lt; lia]).
      split; [exact Hr|]. exists M, E. split; [exact Hrnd|reflexivity].
    + right. right.
      replace (-1 * (IZR (Z.pos mx) * bpow ex)
               / (1 * (IZR (Z.pos my) * bpow ey))) with (- r)
        by (subst r; field; split; [apply Rgt_not_eq, bpow_pos|apply Rgt_not_eq, IZR_lt; lia]).
      split; [lra|]. exists M, E. rewrite Ropp_involutive.
      split; [exact Hrnd|reflexivity].
    + right. right.
      replace (1 * (IZR (Z.pos mx) * bpow ex)
               / (-1 * (IZR (Z.pos my) * bpow ey))) with (- r)
        by (subst r; field; split; [apply Rgt_not_eq, bpow_pos|apply Rgt_not_eq, IZR_lt; lia]).
      split; [lra|]. exists M, E. rewrite Ropp_involutive.
      split; [exact Hrnd|reflexivity].
    + right. left.
      replace (1 * (IZR (Z.pos mx) * bpow ex)
               / (1 * (IZR (Z.pos my) * bpow ey))) with r
        by (subst r; field; split; [apply Rgt_not_eq, bpow_pos|apply Rgt_not_eq, IZR_lt; lia]).
      split; [exact Hr|]. exists M, E. split; [exact Hrnd|reflexivity].
Qed.

Lemma iter_xO (m d : positive) :
  Z.pos (Pos.iter xO m d) = (Z.pos m * 2 ^ Z.pos d)%Z.
Proof.
  induction d as [|d IH] using Pos.peano_ind.
  - cbn. lia.
  - rewrite Pos.iter_succ, Pos2Z.inj_xO, IH, Pos2Z.inj_succ.
    rewrite Z.pow_succ_r by lia. lia.
Qed.

Lemma shl_align_spec (m : positive) (e e' : Z) :
  snd (shl_align m e e') = Z.min e e' /\
  Z.pos (fst (shl_align m e e'))
  = (Z.pos m * 2 ^ (e - Z.min e e'))%Z.
Proof.
  unfold shl_align. destruct (e' - e)%Z as [|d|d] eqn:Ed; cbn [fst snd].
  - rewrite Z.min_l by lia. rewrite Z.sub_diag. cbn. lia.
  - rewrite Z.min_l by lia. rewrite Z.sub_diag. cbn. lia.
  - rewrite Z.min_r by lia. split; [reflexivity|].
    rewrite iter_xO. f_equal. f_equal. lia.
Qed.

Lemma Zdigits2_shift (m k : Z) :
  (0 < m)%Z -> (0 <= k)%Z -> Zdigits2 (m * 2 ^ k) = (Zdigits2 m + k)%Z.
Proof.
  intros Hm Hk. pose proof (Zdigits2_spec m Hm) as [Hlo Hhi].
  pose proof (Zdigits2_pos m Hm).
  assert (H2k : (0 < 2 ^ k)%Z) by (apply Z.pow_pos_nonneg; lia).
  apply Zdigits2_unique; [|nia]. split.
  - replace (Zdigits2 m + k - 1)%Z with (Zdigits2 m - 1 + k)%Z by lia.
    rewrite Z.pow_add_r by lia. nia.
  - rewrite Z.pow_add_r by lia. nia.
Qed.

Lemma binary_round_rounds (s : bool) (m : positive) (e : Z) :
  exists M E,
    rnd (IZR (Z.pos m) * bpow e) M E /\
    binary_round prec emax s m e = pack s M E.
Proof.
  unfold binary_round. rewrite fexp_eq.
  set (f := fexp64 (Z.pos (digits2_pos m) + e)).
  destruct (shl_align_spec m e f) as [He Hm].
  destruct (shl_align m e f) as [mz ez]. cbn [fst snd] in He, Hm.
  rewrite <- He in Hm.
  apply binary_round_aux_correct.
  - lia.
  - unfold located. rewrite Hm, mult_IZR.
    rewrite <- (bpow_IZR (e - ez)) by lia.
    rewrite Rmult_assoc, <- bpow_add. f_equal. f_equal. lia.
  - rewrite Hm, Zdigits2_shift by lia. cbn [Zdigits2].
    replace (Z.pos (digits2_pos m) + (e - ez) + ez)%Z
      with (Z.pos (digits2_pos m) + e)%Z by lia.
    fold f. lia.
Qed.

Lemma binary_normalize_rounds (m e : Z) (szero : bool) :
  rounds (IZR m * bpow e) (binary_normalize prec emax m e szero).
Proof.
  pose proof (bpow_pos e) as HB.
  destruct m as [|p|p]; cbn [binary_normalize].
  - left. split; [ring|eauto].
  - right. left.
    assert (0 < IZR (Z.pos p)) by (apply IZR_lt; lia).
    split; [nra|].
    destruct (binary_round_rounds false p e) as (M & E & Hr & ->). eauto.
  - right. right.
    assert (IZR (Z.neg p) = - IZR (Z.pos p))
      by (rewrite <- opp_IZR; reflexivity).
    assert (0 < IZR (Z.pos p)) by (apply IZR_lt; lia).
    split; [nra|].
    destruct (binary_round_rounds true p e) as (M & E & Hr & ->).
    exists M, E. split; [|reflexivity].
    replace (- (IZR (Z.neg p) * bpow e)) with (IZR (Z.pos p) * bpow e)
      by (rewrite H; ring).
    exact Hr.
Qed.

(** The sum of two doubles is the rounding of the sum of their values. *)
Lemma SFadd_rounds (x y : spec_float) :
  valid_binary x = true -> valid_binary y = true ->
  finite_or_zero x = true -> finite_or_zero y = true ->
  rounds (SF2R x + SF2R y) (SFadd prec emax x y).
Proof.
  intros Hx Hy Fx Fy.
  destruct x as [sx|sx| |sx mx ex], y as [sy|sy| |sy my ey];
    try discriminate; cbn [SFadd].
  - left. split; [cbn; ring|]. destruct sx, sy; eauto.
  - replace (SF2R (S754_zero sx) + SF2R (S754_finite sy my ey))
      with (SF2R (S754_finite sy my ey)) by (cbn [SF2R]; ring).
    apply (rounds_id _ Hy).
  - replace (SF2R (S754_finite sx mx ex) + SF2R (S754_zero sy))
      with (SF2R (S754_finite sx mx ex)) by (cbn [SF2R]; ring).
    apply (rounds_id _ Hx).
  - set (ez := Z.min ex ey).
    destruct (shl_align_spec mx ex ez) as [_ Hmx].
    destruct (shl_align_spec my ey ez) as [_ Hmy].
    replace (Z.min ex ez) with ez in Hmx by (subst ez; lia).
    replace (Z.min ey ez) with ez in Hmy by (subst ez; lia).
    match goal with
    | |- rounds ?t (binary_normalize _ _ ?S _ _) =>
        replace t with (IZR S * bpow ez);
        [apply binary_normalize_rounds|]
    end.
    rewrite plus_IZR, Rmult_plus_distr_r.
    cbn [SF2R]. rewrite !SF2R_sign.
    assert (Hsx : IZR (Z.pos (fst (shl_align mx ex ez))) * bpow ez
                  = IZR (Z.pos mx) * bpow ex).
    { rewrite Hmx, mult_IZR, <- (bpow_IZR (ex - ez)) by (subst ez; lia).
      rewrite Rmult_assoc, <- bpow_add. f_equal. f_equal. lia. }
    assert (Hsy : IZR (Z.pos (fst (shl_align my ey ez))) * bpow ez
                  = IZR (Z.pos my) * bpow ey).
    { rewrite Hmy, mult_IZR, <- (bpow_IZR (ey - ez)) by (subst ez; lia).
      rewrite Rmult_assoc, <- bpow_add. f_equal. f_equal. lia. }
    f_equal.
    + destruct sx; cbn [cond_Zopp]; rewrite ?opp_IZR; rewrite <- Hsx; ring.
    + destruct sy; cbn [cond_Zopp]; rewrite ?opp_IZR; rewrite <- Hsy; ring.
Qed.

Lemma SF2R_finite_range (s : bool) (m : positive) (e : Z) :
  valid_binary (S754_finite s m e) = true ->
  - bpow 1024 < SF2R (S754_finite s m e) < bpow 1024 /\
  SF2R (S754_finite s m e) <> 0 /\
  (if s then SF2R (S754_finite s m e) < 0
   else 0 < SF2R (S754_finite s m e)).
Proof.
  intros Hv. pose proof (valid_value _ _ _ Hv) as V.
  cbn [SF2R]. rewrite SF2R_sign. destruct s; repeat split; lra.
Qed.

Lemma SF2R_infinity (s : bool) :
  SF2R (S754_infinity s) = if s then - bpow 1024 else bpow 1024.
Proof. cbn [SF2R]. rewrite SF2R_sign. destruct s; lra. Qed.

Lemma SF2R_zero (s : bool) : SF2R (S754_zero s) = 0.
Proof. reflexivity. Qed.

(** Multiplying by a double that is not negative is monotone. *)
Lemma SFmul_mono (l f g : spec_float) :
  valid_binary l = true -> valid_binary f = true -> valid_binary g = true ->
  is_nan_SF f = false -> is_nan_SF g = false ->
  0 <= SF2R l ->
  SF2R f <= SF2R g ->
  is_nan_SF (SFmul prec emax l f) = false ->
  is_nan_SF (SFmul prec emax l g) = false ->
  SF2R (SFmul prec emax l f) <= SF2R (SFmul prec emax l g).
Proof.
  intros Hl Hf Hg Nf Ng Hl0 Hfg Nlf Nlg.
  pose proof (bpow_pos 1024) as HT.
  assert (Hrounds : forall y,
            valid_binary y = true -> finite_or_zero l = true ->
            finite_or_zero y = true ->
            rounds (SF2R l * SF2R y) (SFmul prec emax l y))
    by (intros; now apply SFmul_rounds).
  destruct l as [sl|sl| |sl ml el]; try discriminate.
  - (* zero *)
    destruct f as [sf|sf| |sf mf ef], g as [sg|sg| |sg mg eg];
      try discriminate; cbn [SFmul SF2R]; lra.
  - (* infinity *)
    rewrite SF2R_infinity in Hl0. destruct sl; [lra|].
    destruct f as [sf|sf| |sf mf ef], g as [sg|sg| |sg mg eg];
      try discriminate; cbn [SFmul xorb];
      rewrite ?SF2R_infinity, ?SF2R_zero in *;
      try (destruct (SF2R_finite_range _ _ _ Hf) as (Rf & Zf & Sf));
      try (destruct (SF2R_finite_range _ _ _ Hg) as (Rg & Zg & Sg));
      try destruct sf; try destruct sg; lra.
  - (* finite *)
    destruct (SF2R_finite_range _ _ _ Hl) as (Rl & Zl & Sl).
    destruct sl; [lra|].
    destruct f as [sf|sf| |sf mf ef] eqn:Ef, g as [sg|sg| |sg mg eg] eqn:Eg;
      try discriminate;
      try (pose proof (Hrounds _ Hf eq_refl eq_refl) as Rf);
      try (pose proof (Hrounds _ Hg eq_refl eq_refl) as Rg);
      try (pose proof (rounds_range _ _ Rf));
      try (pose proof (rounds_range _ _ Rg));
      try (destruct (SF2R_finite_range _ _ _ Hf) as (Bf & Zf & Sf));
      try (destruct (SF2R_finite_range _ _ _ Hg) as (Bg & Zg & Sg));
      try (apply (rounds_mono _ _ _ _ Rf Rg); nra);
      cbn [SFmul xorb] in *; rewrite ?SF2R_infinity, ?SF2R_zero in *;
      try destruct sf; try destruct sg; try lra.
Qed.

(** Dividing by a positive double is monotone. *)
Lemma SFdiv_mono (x y c : spec_float) (mc : positive) (ec : Z) :
  valid_binary x = true -> valid_binary y = true -> valid_binary c = true ->
  c = S754_finite false mc ec ->
  is_nan_SF x = false -> is_nan_SF y = false ->
  SF2R x <= SF2R y ->
  is_nan_SF (SFdiv prec emax x c) = false /\
  is_nan_SF (SFdiv prec emax y c) = false /\
  SF2R (SFdiv prec emax x c) <= SF2R (SFdiv prec emax y c).
Proof.
  intros Hx Hy Hc -> Nx Ny Hxy.
  pose proof (bpow_pos 1024) as HT.
  destruct (SF2R_finite_range _ _ _ Hc) as (Rc & Zc & Sc).
  assert (Hrounds : forall z,
            valid_binary z = true -> finite_or_zero z = true ->
            rounds (SF2R z / SF2R (S754_finite false mc ec))
              (SFdiv prec emax z (S754_finite false mc ec))).
  { intros z Hz Fz. apply SFdiv_rounds; eauto. }
  assert (Hmono : forall a b, a <= b ->
            a / SF2R (S754_finite false mc ec)
            <= b / SF2R (S754_finite false mc ec)).
  { intros a b Hab. unfold Rdiv. apply Rmult_le_compat_r; [|exact Hab].
    apply Rlt_le, Rinv_0_lt_compat, Sc. }
  destruct x as [sx|sx| |sx mx ex] eqn:Ex, y as [sy|sy| |sy my ey] eqn:Ey;
    try discriminate;
    try (pose proof (Hrounds _ Hx eq_refl) as Rx);
    try (pose proof (Hrounds _ Hy eq_refl) as Ry);
    try (pose proof (rounds_range _ _ Rx));
    try (pose proof (rounds_range _ _ Ry));
    try (pose proof (rounds_not_nan _ _ Rx));
    try (pose proof (rounds_not_nan _ _ Ry));
    try (destruct (SF2R_finite_range _ _ _ Hx) as (Bx & Zx & Sx));
    try (destruct (SF2R_finite_range _ _ _ Hy) as (By & Zy & Sy));
    (split; [first [assumption|reflexivity]|]);
    (split; [first [assumption|reflexivity]|]);
    try (apply (rounds_mono _ _ _ _ Rx Ry); apply Hmono; exact Hxy);
    cbn [SFdiv xorb] in *; rewrite ?SF2R_infinity, ?SF2R_zero in *;
    try destruct sx; try destruct sy; cbn [xorb] in *; try lra.
Qed.

(** Adding a finite double is monotone. *)
Lemma SFadd_mono (c x y : spec_float) :
  valid_binary x = true -> valid_binary y = true -> valid_binary c = true ->
  finite_or_zero c = true ->
  is_nan_SF x = false -> is_nan_SF y = false ->
  SF2R x <= SF2R y ->
  is_nan_SF (SFadd prec emax c x) = false /\
  is_nan_SF (SFadd prec emax c y) = false /\
  SF2R (SFadd prec emax c x) <= SF2R (SFadd prec emax c y).
Proof.
  intros Hx Hy Hc Fc Nx Ny Hxy.
  pose proof (bpow_pos 1024) as HT.
  assert (Hrounds : forall z,
            valid_binary z = true -> finite_or_zero z = true ->
            rounds (SF2R c + SF2R z) (SFadd prec emax c z)).
  { intros z Hz Fz. apply SFadd_rounds; auto. }
  destruct x as [sx|sx| |sx mx ex] eqn:Ex, y as [sy|sy| |sy my ey] eqn:Ey;
    try discriminate;
    try (pose proof (Hrounds _ Hx eq_refl) as Rx);
    try (pose proof (Hrounds _ Hy eq_refl) as Ry);
    try (pose proof (rounds_range _ _ Rx));
    try (pose proof (rounds_range _ _ Ry));
    try (pose proof (rounds_not_nan _ _ Rx));
    try (pose proof (rounds_not_nan _ _ Ry));
    try (destruct (SF2R_finite_range _ _ _ Hx) as (Bx & Zx & Sx));
    try (destruct (SF2R_finite_range _ _ _ Hy) as (By & Zy & Sy));
    destruct c as [sc|sc| |sc mc ec]; try discriminate;
    (split; [first [assumption|reflexivity]|]);
    (split; [first [assumption|reflexivity]|]);
    try (apply (rounds_mono _ _ _ _ Rx Ry); lra);
    cbn [SFadd] in *; rewrite ?SF2R_infinity, ?SF2R_zero in *;
    try destruct sx; try destruct sy; try lra.
Qed.

(** *** Primitive doubles *)

Lemma is_nan_spec (x : float) :
  PrimFloat.is_nan x = is_nan_SF (Prim2SF x).
Proof.
  unfold PrimFloat.is_nan. rewrite FloatAxioms.eqb_spec. unfold SFeqb.
  destruct (Prim2SF x) as [s|s| |s m e]; cbn [SFcompare is_nan_SF].
  - reflexivity.
  - destruct s; reflexivity.
  - reflexivity.
  - destruct s; rewrite Z.compare_refl, Pos.compare_cont_refl; reflexivity.
Qed.

Lemma ltb_B2R (x y : float) :
  PrimFloat.is_nan x = false -> PrimFloat.is_nan y = false ->
  (PrimFloat.ltb x y = true <-> B2R x < B2R y).
Proof.
  rewrite !is_nan_spec, FloatAxioms.ltb_spec. intros Nx Ny.
  apply SFltb_SF2R; auto using Prim2SF_valid.
Qed.

Lemma ltb_nan_false (x y : float) :
  PrimFloat.is_nan x = true \/ PrimFloat.is_nan y = true ->
  PrimFloat.ltb x y = false.
Proof.
  rewrite !is_nan_spec, FloatAxioms.ltb_spec. unfold SFltb.
  intros [H|H]; destruct (Prim2SF x), (Prim2SF y); try discriminate;
    reflexivity.
Qed.

Lemma ltb_false_intro (x y : float) :
  (PrimFloat.is_nan x = false -> PrimFloat.is_nan y = false ->
   B2R y <= B2R x) ->
  PrimFloat.ltb x y = false.
Proof.
  intros H.
  destruct (PrimFloat.is_nan x) eqn:Nx; [apply ltb_nan_false; auto|].
  destruct (PrimFloat.is_nan y) eqn:Ny; [apply ltb_nan_false; auto|].
  destruct (PrimFloat.ltb x y) eqn:E; [|reflexivity].
  apply ltb_B2R in E; auto. specialize (H eq_refl eq_refl). lra.
Qed.

Lemma ltb_false_elim (x y : float) :
  PrimFloat.ltb x y = false ->
  PrimFloat.is_nan x = false -> PrimFloat.is_nan y = false ->
  B2R y <= B2R x.
Proof.
  intros E Nx Ny. destruct (Rle_or_lt (B2R y) (B2R x)) as [H|H]; [exact H|].
  apply ltb_B2R in H; auto. congruence.
Qed.

Lemma ltb_true_elim (x y : float) :
  PrimFloat.ltb x y = true ->
  PrimFloat.is_nan x = false /\ PrimFloat.is_nan y = false /\
  B2R x < B2R y.
Proof.
  intros E.
  destruct (PrimFloat.is_nan x) eqn:Nx;
    [rewrite ltb_nan_false in E by auto; discriminate|].
  destruct (PrimFloat.is_nan y) eqn:Ny;
    [rewrite ltb_nan_false in E by auto; discriminate|].
  repeat split. now apply ltb_B2R.
Qed.

Lemma mul_nan_inv (x y : float) :
  PrimFloat.is_nan (x * y) = false ->
  PrimFloat.is_nan x = false /\ PrimFloat.is_nan y = false.
Proof.
  rewrite !is_nan_spec, FloatAxioms.mul_spec. unfold SF64mul.
  destruct (Prim2SF x), (Prim2SF y); cbn; auto; discriminate.
Qed.

(** Multiplication by a double that is not negative is monotone. *)
Lemma mul_mono (l f g : float) :
  PrimFloat.ltb l 0 = false ->
  PrimFloat.ltb g f = false ->
  PrimFloat.ltb (l * g) (l * f) = false.
Proof.
  intros Hl Hfg. apply ltb_false_intro. intros Nlg Nlf.
  destruct (mul_nan_inv _ _ Nlg) as [Nl Ng].
  destruct (mul_nan_inv _ _ Nlf) as [_ Nf].
  pose proof (ltb_false_elim _ _ Hl Nl eq_refl) as Hl0.
  pose proof (ltb_false_elim _ _ Hfg Ng Nf) as Hfg'.
  rewrite is_nan_spec in *. unfold B2R in *. rewrite !FloatAxioms.mul_spec in *.
  change (Prim2SF 0) with (S754_zero false) in Hl0. cbn [SF2R] in Hl0.
  apply SFmul_mono; auto using Prim2SF_valid.
Qed.

Lemma div_nan_inv (x y : float) :
  PrimFloat.is_nan (x / y) = false ->
  PrimFloat.is_nan x = false /\ PrimFloat.is_nan y = false.
Proof.
  rewrite !is_nan_spec, FloatAxioms.div_spec. unfold SF64div.
  destruct (Prim2SF x), (Prim2SF y); cbn; auto; discriminate.
Qed.

Lemma add_nan_inv (x y : float) :
  PrimFloat.is_nan (x + y) = false ->
  PrimFloat.is_nan x = false /\ PrimFloat.is_nan y = false.
Proof.
  rewrite !is_nan_spec, FloatAxioms.add_spec. unfold SF64add.
  destruct (Prim2SF x), (Prim2SF y); cbn; auto; discriminate.
Qed.

(** Division by a positive finite double is monotone. *)
Lemma div_mono (x y c : float) (mc : positive) (ec : Z) :
  Prim2SF c = S754_finite false mc ec ->
  PrimFloat.ltb y x = false ->
  PrimFloat.ltb (y / c) (x / c) = false.
Proof.
  intros Hc Hxy. apply ltb_false_intro. intros Ny Nx.
  destruct (div_nan_inv _ _ Ny) as [Ny' _].
  destruct (div_nan_inv _ _ Nx) as [Nx' _].
  pose proof (ltb_false_elim _ _ Hxy Ny' Nx') as Hle.
  rewrite is_nan_spec in *. unfold B2R in *.
  rewrite !FloatAxioms.div_spec.
  eapply SFdiv_mono; eauto using Prim2SF_valid.
Qed.

(** Adding to a finite double is monotone. *)
Lemma add_mono (c x y : float) :
  finite_or_zero (Prim2SF c) = true ->
  PrimFloat.ltb y x = false ->
  PrimFloat.ltb (c + y) (c + x) = false.
Proof.
  intros Hc Hxy. apply ltb_false_intro. intros Ny Nx.
  destruct (add_nan_inv _ _ Ny) as [_ Ny'].
  destruct (add_nan_inv _ _ Nx) as [_ Nx'].
  pose proof (ltb_false_elim _ _ Hxy Ny' Nx') as Hle.
  rewrite is_nan_spec in *. unfold B2R in *.
  rewrite !FloatAxioms.add_spec.
  eapply SFadd_mono; eauto using Prim2SF_valid.
Qed.

(** The error of a rounding that gives a normal number. *)
Lemma rounds_error_normal (t : R) (z : spec_float) (s : bool)
    (m : positive) (e : Z) :
  rounds t z -> z = S754_finite s m e -> Z.pos (digits2_pos m) = 53%Z ->
  Rabs (SF2R z - t) <= bpow (-53) * Rabs (SF2R z).
Proof.
  intros Hz -> Hd.
  assert (Hm : (2 ^ 52 <= Z.pos m)%Z).
  { pose proof (Zdigits2_spec (Z.pos m) ltac:(lia)) as [Hlo _].
    cbn [Zdigits2] in Hlo. rewrite Hd in Hlo. exact Hlo. }
  assert (Hkey : forall s' M E r,
            rnd r M E -> pack s' M E = S754_finite s m e ->
            IZR (Z.pos m) * bpow e = IZR M * bpow E /\
            bpow E / 2 <= bpow (-53) * (IZR M * bpow E)).
  { intros s' M E r Hr Hp. pose proof (bpow_pos E) as HB.
    assert (H53 : bpow (-53) * IZR (2 ^ 52) = / 2).
    { rewrite <- (bpow_IZR 52) by lia. rewrite <- bpow_add.
      unfold bpow. simpl. lra. }
    unfold pack in Hp.
    destruct (Z.eqb_spec M 0) as [HM0|HM0]; [discriminate|].
    destruct (Z.ltb_spec M (2 ^ 53)) as [Hlt|Hge].
    - destruct (E <=? 971)%Z; [|discriminate].
      injection Hp as _ Hm' <-.
      destruct (rnd_nonneg _ _ _ Hr) as (HM & _).
      assert (HM' : Z.pos m = M).
      { rewrite <- Hm'. rewrite Z2Pos.id; [reflexivity|lia]. }
      rewrite HM'. split; [reflexivity|].
      assert (IZR (2 ^ 52) <= IZR M) by (apply IZR_le; lia).
      assert (0 < bpow (-53)) by apply bpow_pos.
      replace (bpow E / 2) with (bpow (-53) * (IZR (2 ^ 52) * bpow E))
        by (rewrite <- Rmult_assoc, H53; lra).
      apply Rmult_le_compat_l; [lra|]. nra.
    - destruct (E + 1 <=? 971)%Z; [|discriminate].
      injection Hp as _ Hm' <-.
      destruct (rnd_nonneg _ _ _ Hr) as (HM & _).
      assert (HM' : M = (2 ^ 53)%Z) by lia.
      rewrite <- Hm', HM'.
      change (Z.pos (Z.to_pos (2 ^ 52))) with (2 ^ 52)%Z.
      rewrite bpow_succ.
      replace (IZR (2 ^ 53)) with (2 * IZR (2 ^ 52))
        by (rewrite <- mult_IZR; reflexivity).
      change (IZR (2 ^ 52)) with 4503599627370496 in *.
      split; [lra|].
      replace (bpow (-53) * (2 * 4503599627370496 * bpow E))
        with (2 * (bpow (-53) * 4503599627370496) * bpow E) by ring.
      rewrite H53. lra. }
  destruct Hz as [[_ [s0 H]]|[[Ht (M & E & Hr & Hp)]|[Ht (M & E & Hr & Hp)]]];
    [discriminate| |].
  - assert (s = false).
    { unfold pack in Hp. destruct (M =? 0)%Z; [discriminate|].
      destruct (M <? 2 ^ 53)%Z;
        [destruct (E <=? 971)%Z|destruct (E + 1 <=? 971)%Z];
        try discriminate; now injection Hp. }
    subst s. destruct (Hkey _ _ _ _ Hr (eq_sym Hp)) as [Hv Hb].
    pose proof (rnd_error _ _ _ Hr) as He.
    pose proof (rnd_value_nonneg _ _ _ Hr) as Hn.
    cbn [SF2R]. rewrite F2R_pos, Hv. rewrite (Rabs_pos_eq _ Hn).
    lra.
  - assert (s = true).
    { unfold pack in Hp. destruct (M =? 0)%Z; [discriminate|].
      destruct (M <? 2 ^ 53)%Z;
        [destruct (E <=? 971)%Z|destruct (E + 1 <=? 971)%Z];
        try discriminate; now injection Hp. }
    subst s. destruct (Hkey _ _ _ _ Hr (eq_sym Hp)) as [Hv Hb].
    pose proof (rnd_error _ _ _ Hr) as He.
    pose proof (rnd_value_nonneg _ _ _ Hr) as Hn.
    cbn [SF2R]. rewrite F2R_neg, Hv.
    rewrite Rabs_Ropp, (Rabs_pos_eq _ Hn).
    replace (- (IZR M * bpow E) - t) with (- (IZR M * bpow E - - t)) by ring.
    rewrite Rabs_Ropp. lra.
Qed.

Lemma normal_spec (x : float) :
  normal x = true ->
  exists s m e, Prim2SF x = S754_finite s m e /\
                Z.pos (digits2_pos m) = 53%Z.
Proof.
  unfold normal. rewrite classify_spec. unfold SF64classify, SFclassify.
  destruct (Prim2SF x) as [[]|[]| |[] m e]; try discriminate.
  - destruct (Z.eqb_spec (Z.pos (digits2_pos m)) prec); [|discriminate].
    intros _. exists true, m, e. auto.
  - destruct (Z.eqb_spec (Z.pos (digits2_pos m)) prec); [|discriminate].
    intros _. exists false, m, e. auto.
Qed.

(** A product that is a normal number is within [eps] of the exact
    product. *)
Lemma mul_error (x y : float) :
  normal (x * y) = true ->
  Rabs (B2R (x * y) - B2R x * B2R y) <= eps * Rabs (B2R (x * y)).
Proof.
  intros Hn. destruct (normal_spec _ Hn) as (s & m & e & Hz & Hd).
  unfold B2R. eapply rounds_error_normal; [|exact Hz|exact Hd].
  rewrite FloatAxioms.mul_spec in *. unfold SF64mul in *.
  pose proof (Prim2SF_valid x) as Vx. pose proof (Prim2SF_valid y) as Vy.
  destruct (Prim2SF x) as [sx|sx| |sx mx ex] eqn:Ex,
           (Prim2SF y) as [sy|sy| |sy my ey] eqn:Ey;
    try discriminate; apply SFmul_rounds; auto.
Qed.

(** A quotient that is a normal number is within [eps] of the exact
    quotient. *)
Lemma div_error (x y : float) :
  normal (x / y) = true ->
  Rabs (B2R (x / y) - B2R x / B2R y) <= eps * Rabs (B2R (x / y)) /\
  B2R y <> 0.
Proof.
  intros Hn. destruct (normal_spec _ Hn) as (s & m & e & Hz & Hd).
  unfold B2R.
  rewrite FloatAxioms.div_spec in *. unfold SF64div in *.
  pose proof (Prim2SF_valid x) as Vx. pose proof (Prim2SF_valid y) as Vy.
  destruct (Prim2SF x) as [sx|sx| |sx mx ex] eqn:Ex,
           (Prim2SF y) as [sy|sy| |sy my ey] eqn:Ey;
    try discriminate.
  split.
  - eapply rounds_error_normal; [|exact Hz|exact Hd].
    apply SFdiv_rounds; eauto.
  - apply (SF2R_finite_range _ _ _ Vy).
Qed.

(** A product by a double that is at least 1 is not below the other
    factor. *)
Lemma mul_grow (l g : float) :
  PrimFloat.ltb l 0 = false ->
  PrimFloat.ltb g 1 = false ->
  PrimFloat.ltb (l * g) l = false.
Proof.
  intros Hl Hg. apply ltb_false_intro. intros Nlg Nl.
  destruct (mul_nan_inv _ _ Nlg) as [_ Ng].
  pose proof (ltb_false_elim _ _ Hl Nl eq_refl) as Hl0.
  pose proof (ltb_false_elim _ _ Hg Ng eq_refl) as Hg1.
  rewrite is_nan_spec in *. unfold B2R in *.
  rewrite FloatAxioms.mul_spec in *. unfold SF64mul in *.
  change (Prim2SF 0) with (S754_zero false) in Hl0. cbn [SF2R] in Hl0.
  assert (H1 : SF2R (Prim2SF 1) = 1).
  { change (Prim2SF 1) with (S754_finite false 4503599627370496 (-52)).
    cbn [SF2R]. rewrite F2R_pos.
    change 4503599627370496%Z with (2 ^ 52)%Z.
    rewrite <- (bpow_IZR 52), <- bpow_add by lia. reflexivity. }
  rewrite H1 in Hg1.
  pose proof (Prim2SF_valid l) as Vl. pose proof (Prim2SF_valid g) as Vg.
  pose proof (bpow_pos 1024) as HT.
  destruct (Prim2SF l) as [sl|sl| |sl ml el] eqn:El; try discriminate.
  - destruct (Prim2SF g) as [sg|sg| |sg mg eg]; try discriminate;
      cbn [SFmul SF2R] in *; lra.
  - rewrite SF2R_infinity in Hl0. destruct sl; [lra|].
    destruct (Prim2SF g) as [sg|sg| |sg mg eg] eqn:Eg; try discriminate;
      cbn [SFmul xorb] in *; rewrite ?SF2R_infinity, ?SF2R_zero in *;
      try (destruct (SF2R_finite_range _ _ _ Vg) as (Rg & Zg & Sg));
      try destruct sg; lra.
  - destruct (SF2R_finite_range _ _ _ Vl) as (Rl & Zl & Sl).
    destruct sl; [lra|].
    destruct (Prim2SF g) as [sg|sg| |sg mg eg] eqn:Eg; try discriminate.
    + cbn [SF2R] in Hg1. lra.
    + rewrite SF2R_infinity in Hg1. destruct sg; [lra|].
      cbn [SFmul xorb]. rewrite SF2R_infinity. lra.
    + pose proof (SFmul_rounds _ _ Vl Vg eq_refl eq_refl) as Rlg.
      pose proof (rounds_id _ Vl) as Rid. cbv beta iota in Rid.
      apply (rounds_mono _ _ _ _ Rid Rlg). nra.
Qed.

Lemma bpow_neg (k : Z) : (0 <= k)%Z -> bpow (- k) = / IZR (2 ^ k).
Proof.
  intros Hk. rewrite <- (bpow_IZR k) by lia. unfold bpow.
  apply powerRZ_neg'.
Qed.

Lemma Rabs_bounds (a b : R) : Rabs a <= b -> - b <= a <= b.
Proof. unfold Rabs. destruct (Rcase_abs a); lra. Qed.

(** Within a relative error of the result. *)
Lemma relative_bounds (e v t : R) :
  0 <= e < 1 -> Rabs (v - t) <= e * Rabs v -> 0 < t ->
  0 < v /\ (1 - e) * v <= t <= (1 + e) * v.
Proof.
  intros He Herr Ht.
  destruct (Rle_or_lt v 0) as [Hv|Hv].
  - exfalso. rewrite (Rabs_left1 v Hv) in Herr.
    apply Rabs_bounds in Herr. nra.
  - split; [exact Hv|]. rewrite (Rabs_pos_eq v) in Herr by lra.
    apply Rabs_bounds in Herr. lra.
Qed.

Lemma relative_bounds_result (e v t : R) :
  0 <= e < 1 -> Rabs (v - t) <= e * Rabs v -> 0 < v ->
  0 < t /\ (1 - e) * v <= t <= (1 + e) * v.
Proof.
  intros He Herr Hv. rewrite (Rabs_pos_eq v) in Herr by lra.
  apply Rabs_bounds in Herr. split; [nra|lra].
Qed.

(** The arithmetic of a frozen year: with every rounding within
    [e <= 1/1000], a factor of at most 1.07 and an upper guardrail of at
    most 0.81 times the rate, a withdrawal that exceeds the rate once
    adjusted is not below the upper guardrail unadjusted. *)
Lemma frozen_arithmetic (e L F S A Bq C P D U Rr W : R) :
  0 <= e <= / 1000 ->
  0 < L -> 0 < S -> 0 < Rr ->
  F <= 107 / 100 -> 0 < W <= 81 / 100 ->
  Rabs (A - L * F) <= e * Rabs A ->
  Rabs (Bq - A / S) <= e * Rabs Bq ->
  Rabs (C - Bq * 100) <= e * Rabs C ->
  Rr < C ->
  Rabs (P - L / S) <= e * Rabs P ->
  Rabs (D - P * 100) <= e * Rabs D ->
  Rabs (U - Rr * W) <= e * Rabs U ->
  U <= D.
Proof.
  intros He HL HS HR HF HW EA EB EC HC EP ED EU.
  assert (He1 : 0 <= e < 1) by lra.
  assert (HC0 : 0 < C) by lra.
  destruct (relative_bounds_result _ _ _ He1 EC HC0) as [HB100 HCb].
  assert (HB0 : 0 < Bq) by lra.
  destruct (relative_bounds_result _ _ _ He1 EB HB0) as [HAS HBb].
  assert (HA0 : 0 < A).
  { destruct (Rle_or_lt A 0) as [H|H]; [|exact H]. exfalso.
    assert (A / S <= 0); [|lra].
    unfold Rdiv. pose proof (Rinv_0_lt_compat S HS). nra. }
  destruct (relative_bounds_result _ _ _ He1 EA HA0) as [HLF HAb].
  assert (HF0 : 0 < F) by nra.
  assert (HQ : 0 < L / S) by (apply Rdiv_lt_0_compat; lra).
  destruct (relative_bounds _ _ _ He1 EP HQ) as [HP0 HPb].
  assert (HP100 : 0 < P * 100) by lra.
  destruct (relative_bounds _ _ _ He1 ED HP100) as [HD0 HDb].
  assert (HRW : 0 < Rr * W) by nra.
  destruct (relative_bounds _ _ _ He1 EU HRW) as [HU0 HUb].
  set (q := L / S) in *. set (a := A / S) in *.
  assert (Hqa : (1 - e) * a <= q * F).
  { subst q a. unfold Rdiv.
    pose proof (Rinv_0_lt_compat S HS) as HiS.
    replace (L * / S * F) with (L * F * / S) by ring.
    replace ((1 - e) * (A * / S)) with ((1 - e) * A * / S) by ring.
    apply Rmult_le_compat_r; lra. }
  set (k := 1 - e) in *.
  assert (Hk : 0 <= k <= 1) by (subst k; lra).
  assert (Hk' : 999 / 1000 <= k) by (subst k; lra).
  assert (Hq : k * a <= q * (107 / 100)).
  { apply Rle_trans with (q * F); [exact Hqa|].
    apply Rmult_le_compat_l; lra. }
  assert (Ha : k * Bq <= a) by lra.
  assert (Hb : k * C <= Bq * 100) by lra.
  assert (S1 : k * (k * Bq) <= k * a)
    by (apply Rmult_le_compat_l; lra).
  assert (S3 : k * (k * (k * C)) <= k * (k * (Bq * 100)))
    by (do 2 (apply Rmult_le_compat_l; [lra|]); exact Hb).
  assert (S5 : k * (k * (k * Rr)) <= k * (k * (k * C)))
    by (do 3 (apply Rmult_le_compat_l; [lra|]); lra).
  assert (H1 : k * (k * (k * Rr)) <= q * 107) by lra.
  (* the unadjusted rate *)
  set (h := 1 + e) in *.
  assert (Hh : 1 <= h <= 1001 / 1000) by (subst h; lra).
  assert (T1 : q <= h * P) by lra.
  assert (T2 : P * 100 <= h * D) by lra.
  assert (T3 : q * 100 <= h * (h * D)).
  { apply Rle_trans with (h * (P * 100)); [lra|].
    apply Rmult_le_compat_l; lra. }
  assert (V1 : k * U <= Rr * (81 / 100)).
  { apply Rle_trans with (Rr * W); [lra|].
    apply Rmult_le_compat_l; lra. }
  assert (V2 : k * (k * (k * (k * U))) <= k * (k * (k * (Rr * (81 / 100)))))
    by (do 3 (apply Rmult_le_compat_l; [lra|]); exact V1).
  assert (V3 : k * (k * (k * (k * U))) * 100 <= 81 * 107 / 100 * (h * (h * D)))
    by lra.
  set (K := k * (k * (k * k))).
  set (H := h * h).
  assert (HK : 996 / 1000 <= K).
  { subst K. 
    assert (999 / 1000 * (999 / 1000) <= k * k) by nra.
    assert (999 / 1000 * (999 / 1000 * (999 / 1000)) <= k * (k * k)) by nra.
    assert (999 / 1000 * (999 / 1000 * (999 / 1000 * (999 / 1000)))
            <= k * (k * (k * k))) by nra.
    lra. }
  assert (HH : H <= 1003 / 1000) by (subst H; nra).
  assert (V4 : K * U * 100 <= 81 * 107 / 100 * (H * D))
    by (subst K H; lra).
  assert (HD : 0 <= D) by lra. assert (HU : 0 <= U) by lra.
  assert (V5 : 996 / 1000 * U * 100 <= K * U * 100) by nra.
  assert (V6 : 81 * 107 / 100 * (H * D)
               <= 81 * 107 / 100 * (1003 / 1000 * D)) by nra.
  lra.
Qed.

(** *** Products *)

Lemma B2R_one : B2R 1 = 1.
Proof.
  unfold B2R.
  change (Prim2SF 1) with (S754_finite false 4503599627370496 (-52)).
  cbn [SF2R]. rewrite F2R_pos.
  change 4503599627370496%Z with (2 ^ 52)%Z.
  rewrite <- (bpow_IZR 52), <- bpow_add by lia. reflexivity.
Qed.

(** The product of two doubles does not depend on their order. *)
Lemma mul_comm (x y : float) : (x * y)%float = (y * x)%float.
Proof.
  apply Prim2SF_inj. rewrite !FloatAxioms.mul_spec. unfold SF64mul.
  destruct (Prim2SF x) as [sx|sx| |sx mx ex],
           (Prim2SF y) as [sy|sy| |sy my ey];
    cbn [SFmul]; rewrite ?(xorb_comm sx sy); try reflexivity.
  rewrite (Pos.mul_comm mx my), (Z.add_comm ex ey). reflexivity.
Qed.

(** Multiplication by a double that is not negative is monotone, on the
    other side too. *)
Lemma mul_mono_r (c x y : float) :
  PrimFloat.ltb c 0 = false ->
  PrimFloat.ltb y x = false ->
  PrimFloat.ltb (y * c) (x * c) = false.
Proof.
  intros Hc Hxy. rewrite (mul_comm y c), (mul_comm x c).
  now apply mul_mono.
Qed.

(** A product by a double that is at most 1 is not above the other
    factor, when that one is not negative. *)
Lemma mul_shrink (l g : float) :
  PrimFloat.ltb l 0 = false ->
  PrimFloat.ltb 1 g = false ->
  PrimFloat.ltb l (l * g) = false.
Proof.
  intros Hl Hg. apply ltb_false_intro. intros Nl Nlg.
  destruct (mul_nan_inv _ _ Nlg) as [_ Ng].
  pose proof (ltb_false_elim _ _ Hl Nl eq_refl) as Hl0.
  pose proof (ltb_false_elim _ _ Hg eq_refl Ng) as Hg1.
  rewrite B2R_one in Hg1.
  rewrite is_nan_spec in *. unfold B2R in *.
  rewrite FloatAxioms.mul_spec in *. unfold SF64mul in *.
  change (Prim2SF 0) with (S754_zero false) in Hl0. cbn [SF2R] in Hl0.
  pose proof (Prim2SF_valid l) as Vl. pose proof (Prim2SF_valid g) as Vg.
  assert (HT : 1 < bpow 1024) by (apply (bpow_lt 0 1024); lia).
  destruct (Prim2SF l) as [sl|sl| |sl ml el] eqn:El; try discriminate.
  - destruct (Prim2SF g) as [sg|sg| |sg mg eg]; try discriminate;
      cbn [SFmul is_nan_SF] in *; try discriminate;
      rewrite ?SF2R_zero; lra.
  - rewrite SF2R_infinity in Hl0. destruct sl; [lra|].
    destruct (Prim2SF g) as [sg|sg| |sg mg eg] eqn:Eg; try discriminate;
      cbn [SFmul is_nan_SF] in *; try discriminate;
      destruct sg; cbn [xorb]; rewrite ?SF2R_infinity in *; lra.
  - destruct (SF2R_finite_range _ _ _ Vl) as (Rl & Zl & Sl).
    destruct sl; [lra|].
    destruct (Prim2SF g) as [sg|sg| |sg mg eg] eqn:Eg; try discriminate.
    + cbn [SFmul SF2R] in *. lra.
    + rewrite SF2R_infinity in Hg1. destruct sg; [|lra].
      cbn [SFmul xorb]. rewrite SF2R_infinity. lra.
    + pose proof (SFmul_rounds _ _ Vl Vg eq_refl eq_refl) as Rlg.
      pose proof (rounds_id _ Vl) as Rid. cbv beta iota in Rid.
      apply (rounds_mono _ _ _ _ Rlg Rid). nra.
Qed.

(** The product of two doubles that are not negative is not negative. *)
Lemma mul_nonneg (x y : float) :
  PrimFloat.ltb x 0 = false ->
  PrimFloat.ltb y 0 = false ->
  PrimFloat.ltb (x * y) 0 = false.
Proof.
  intros Hx Hy. apply ltb_false_intro. intros Nxy _.
  destruct (mul_nan_inv _ _ Nxy) as [Nx Ny].
  pose proof (ltb_false_elim _ _ Hx Nx eq_refl) as Hx0.
  pose proof (ltb_false_elim _ _ Hy Ny eq_refl) as Hy0.
  rewrite is_nan_spec in *. unfold B2R in *.
  rewrite FloatAxioms.mul_spec in *. unfold SF64mul in *.
  change (Prim2SF 0) with (S754_zero false) in *. cbn [SF2R] in Hx0, Hy0 |- *.
  pose proof (Prim2SF_valid x) as Vx. pose proof (Prim2SF_valid y) as Vy.
  pose proof (bpow_pos 1024) as HT.
  destruct (Prim2SF x) as [sx|sx| |sx mx ex] eqn:Ex; try discriminate;
    destruct (Prim2SF y) as [sy|sy| |sy my ey] eqn:Ey; try discriminate;
    cbn [SFmul] in *; try discriminate;
    rewrite ?SF2R_infinity, ?SF2R_zero in *; try lra;
    try (destruct (SF2R_finite_range _ _ _ Vx) as (Rx & Zx & Sx));
    try (destruct (SF2R_finite_range _ _ _ Vy) as (Ry & Zy & Sy));
    try (destruct sx; [lra|]); try (destruct sy; [lra|]);
    cbn [xorb]; try lra.
  pose proof (SFmul_rounds _ _ Vx Vy eq_refl eq_refl) as Rxy.
  cbn [SFmul xorb] in Rxy.
  assert (R0 : rounds 0 (S754_zero false)) by (left; eauto).
  apply (rounds_mono _ _ _ _ R0 Rxy). nra.
Qed.

(** A product by a finite double that is not zero is [NaN] only when
    the other factor is. *)
Lemma mul_not_nan (x c : float) (s : bool) (m : positive) (e : Z) :
  Prim2SF c = S754_finite s m e ->
  PrimFloat.is_nan x = false ->
  PrimFloat.is_nan (x * c) = false.
Proof.
  rewrite !is_nan_spec, FloatAxioms.mul_spec. unfold SF64mul.
  intros Hc Nx. pose proof (Prim2SF_valid x) as Vx.
  pose proof (Prim2SF_valid c) as Vc. rewrite Hc in *.
  destruct (Prim2SF x) as [sx|sx| |sx mx ex] eqn:Ex; try discriminate;
    try reflexivity.
  eapply rounds_not_nan.
  apply (SFmul_rounds (S754_finite sx mx ex) (S754_finite s m e));
    try reflexivity; assumption.
Qed.

Set Implicit Arguments.

End RoundingFacts.

(** ** A run on doubles *)

Module DoubleRunFacts.

Import DoubleFacts Rounding RoundingFacts.
Local Open Scope js_scope.

(** The factor [1 + 6/100] of an inflation at the cap. *)
Local Abbreviation factorAtCap := (lit 1 + lit 6.0 / lit 100 : float).

(** Whatever the inflation of the year is, the factor is not above the
    factor at the cap: [Math.min], the division by 100 and the addition
    to 1 are monotone. *)
Lemma factor_le_double (v : value float) :
  (factorAtCap <? lit 1 + inflationToApply v / lit 100) = false.
Proof.
  apply (add_mono (lit 1)); [reflexivity|].
  apply (@div_mono _ _ (lit 100) 7036874417766400 (-46)); [reflexivity|].
  apply inflationToApply_le_6_double.
Qed.

Lemma normal_not_nan (x : float) :
  normal x = true -> PrimFloat.is_nan x = false.
Proof.
  intros Hn. destruct (normal_spec _ Hn) as (s & m & e & Hx & _).
  rewrite is_nan_spec, Hx. reflexivity.
Qed.

Local Open Scope R_scope.

Lemma B2R_zero : B2R (lit 0) = 0.
Proof. reflexivity. Qed.

Lemma B2R_hundred : B2R (lit 100) = 100.
Proof.
  unfold B2R.
  change (Prim2SF (lit 100)) with (S754_finite false 7036874417766400 (-46)).
  cbn [SF2R]. unfold F2R.
  change (bpow (-46)) with (bpow (Z.opp 46)). rewrite (bpow_neg 46) by lia.
  change (2 ^ 46)%Z with 70368744177664%Z. lra.
Qed.

Lemma B2R_upper : 0 < B2R (lit 0.8) <= 81 / 100.
Proof.
  unfold B2R.
  change (Prim2SF (lit 0.8)) with (S754_finite false 7205759403792794 (-53)).
  cbn [SF2R]. unfold F2R.
  change (bpow (-53)) with (bpow (Z.opp 53)). rewrite (bpow_neg 53) by lia.
  change (2 ^ 53)%Z with 9007199254740992%Z. lra.
Qed.

Lemma eps_value : eps = / 9007199254740992.
Proof.
  unfold eps. change (bpow (-53)) with (bpow (Z.opp 53)).
  rewrite (bpow_neg 53) by lia. reflexivity.
Qed.

(** The double [1 + 6/100] is the one next above 1.06. *)
Lemma B2R_factorAtCap : 106 / 100 < B2R factorAtCap <= 106 / 100 + eps.
Proof.
  rewrite eps_value. unfold B2R.
  change (Prim2SF factorAtCap)
    with (S754_finite false 4773815605012726 (-52)).
  cbn [SF2R]. unfold F2R.
  change (bpow (-52)) with (bpow (Z.opp 52)). rewrite (bpow_neg 52) by lia.
  change (2 ^ 52)%Z with 4503599627370496%Z. lra.
Qed.

Lemma eps_small : 0 <= eps <= / 1000.
Proof. rewrite eps_value. lra. Qed.

(** In real numbers: the value of the factor is at most 1.06, up to the
    rounding of [1 + 6/100]. *)
Lemma factor_value (v : value float) :
  PrimFloat.is_nan (lit 1 + inflationToApply v / lit 100)%js = false ->
  B2R (lit 1 + inflationToApply v / lit 100)%js <= 106 / 100 + eps.
Proof.
  intros Nf.
  pose proof (ltb_false_elim _ _ (factor_le_double v)
                (normal_not_nan factorAtCap eq_refl) Nf).
  pose proof B2R_factorAtCap. lra.
Qed.

Lemma positive_value (x : float) :
  PrimFloat.ltb (lit 0) x = true -> 0 < B2R x.
Proof.
  intros Hx. apply ltb_true_elim in Hx. destruct Hx as (_ & _ & Hx).
  rewrite B2R_zero in Hx. exact Hx.
Qed.

(** The rate of the withdrawal carried over is not below the upper
    guardrail when the rate of the inflation-adjusted withdrawal is above
    the initial rate and no operation underflows or overflows. *)
Lemma frozen_rate_not_below_double
    (initialWithdrawalRate last startWorth : float) (infl : value float) :
  (lit 0 <? initialWithdrawalRate)%js = true ->
  (lit 0 <? startWorth)%js = true ->
  (lit 0 <? last)%js = true ->
  (plannedRateWithInflation last infl startWorth >? initialWithdrawalRate)%js
  = true ->
  normal (plannedWithdrawalWithInflation last infl) = true ->
  normal (plannedWithdrawalWithInflation last infl / startWorth)%js = true ->
  normal (plannedRateWithInflation last infl startWorth) = true ->
  normal (last / startWorth)%js = true ->
  normal ((last / startWorth) * lit 100)%js = true ->
  normal (upperGuardrail initialWithdrawalRate) = true ->
  ((last / startWorth) * lit 100 <? upperGuardrail initialWithdrawalRate)%js
  = false.
Proof.
  intros HR Hs Hl Hrate Na Nb Nc Np Nd NU.
  apply positive_value in HR, Hs, Hl.
  apply ltb_true_elim in Hrate. destruct Hrate as (_ & _ & Hrate).
  apply ltb_false_intro. intros _ _.
  unfold plannedRateWithInflation, plannedWithdrawalWithInflation,
    upperGuardrail in *.
  set (f := (lit 1 + inflationToApply infl / lit 100)%js) in *.
  pose proof (normal_not_nan _ Na) as Nan.
  apply (mul_nan_inv last f) in Nan. destruct Nan as [Nl Nf].
  pose proof (factor_value infl Nf) as Hf. fold f in Hf.
  pose proof eps_small as Heps.
  pose proof (mul_error _ _ Na) as Ea.
  pose proof (div_error _ _ Nb) as [Eb _].
  pose proof (mul_error _ _ Nc) as Ec.
  pose proof (div_error _ _ Np) as [Ep _].
  pose proof (mul_error _ _ Nd) as Ed.
  pose proof (mul_error _ _ NU) as EU.
  rewrite B2R_hundred in Ec, Ed.
  apply (frozen_arithmetic eps (B2R last) (B2R f) (B2R startWorth)
           (B2R (last * f)%js) (B2R (last * f / startWorth)%js)
           (B2R (last * f / startWorth * lit 100)%js)
           (B2R (last / startWorth)%js)
           (B2R (last / startWorth * lit 100)%js)
           (B2R (initialWithdrawalRate * lit 0.8)%js)
           (B2R initialWithdrawalRate) (B2R (lit 0.8)));
    try assumption.
  - lra.
  - exact B2R_upper.
Qed.

End DoubleRunFacts.

Section DoubleRun.

Import DoubleFacts DoubleRunFacts.
Local Open Scope js_scope.

Variables initialAssets initialWithdrawalRate : float.
Variable annualData : nat -> outcome (annual float).
Variable simulationYears : Z.
Variable simulationData : list (yearData float).

Hypothesis run :
  simulate initialAssets initialWithdrawalRate annualData simulationYears
  = Return simulationData.

(** C5.  In every year after the first the planned withdrawal is last
    year's withdrawal times [1 + min(inflation, 6.0)/100], unless the
    increase is frozen, when it is last year's withdrawal unchanged.  The
    capped inflation is never above 6; an inflation of 6 or more gives the
    factor [1 + 6/100] whatever it is, and no inflation gives a factor
    above that one, whose value is 1.06 up to its rounding ([2^-53]).  So
    a withdrawal that is not negative grows by at most the factor
    [1 + 6/100], however large the inflation of the year is.  All of it
    on the doubles the program computes with. *)
Theorem inflation_cap (i : nat) (prev r : yearData float) :
  nth_error simulationData i = Some prev ->
  nth_error simulationData (S i) = Some r ->
  let cappedInflation := Math_min (ToNumber (inflation r)) (lit 6.0) in
  let factor := lit 1 + cappedInflation / lit 100 in
  (exists data,
      annualData (S i) = Return data /\ inflation r = annual_inflation data) /\
  plannedWithdrawal r
  = (if inflationFrozen initialWithdrawalRate (returnRate prev)
          (actualWithdrawal prev) (inflation r) (startWorth r)
     then actualWithdrawal prev
     else actualWithdrawal prev * factor) /\
  (lit 6.0 <? cappedInflation) = false /\
  (PrimFloat.leb (lit 6.0) (ToNumber (inflation r)) = true ->
   cappedInflation = lit 6.0 /\ factor = lit 1 + lit 6.0 / lit 100) /\
  (lit 1 + lit 6.0 / lit 100 <? factor) = false /\
  (PrimFloat.is_nan factor = false ->
   (Rounding.B2R factor <= 106 / 100 + Rounding.eps)%R) /\
  ((actualWithdrawal prev <? lit 0) = false ->
   (actualWithdrawal prev * (lit 1 + lit 6.0 / lit 100)
      <? plannedWithdrawal r) = false).
Proof.
  intros Hprev Hr cappedInflation factor.
  assert (Hplanned :
            plannedWithdrawal r
            = (if inflationFrozen initialWithdrawalRate (returnRate prev)
                    (actualWithdrawal prev) (inflation r) (startWorth r)
               then actualWithdrawal prev
               else actualWithdrawal prev * factor)).
  { destruct (run_later run Hprev Hr) as (data & _ & ->).
    cbn. unfold inflationStep.
    destruct (inflationFrozen _ _ _ _ _); reflexivity. }
  pose proof (factor_le_double (inflation r)) as Hfactor.
  split; [exact (proj1 (inflation_factor_applied run Hprev Hr))|].
  split; [exact Hplanned|].
  split; [apply inflationToApply_le_6_double|].
  split.
  { intros Hle. subst factor cappedInflation.
    change (Math_min (ToNumber (inflation r)) (lit 6.0))
      with (Double.Math_min (ToNumber (inflation r)) 6).
    rewrite (Math_min_capped Hle). split; reflexivity. }
  split; [exact Hfactor|].
  split; [exact (factor_value (inflation r))|].
  intros Hlast. rewrite Hplanned.
  destruct (inflationFrozen _ _ _ _ _).
  - apply RoundingFacts.mul_grow; [exact Hlast|reflexivity].
  - apply RoundingFacts.mul_mono; [exact Hlast|exact Hfactor].
Qed.

(** C10, on doubles, for a positive withdrawal to carry over and
    operations that neither underflow nor overflow.  In a year after the
    first in which the increase is frozen (the previous return negative,
    the rate of the inflation-adjusted withdrawal above
    [initialWithdrawalRate]), with a positive [initialWithdrawalRate], a
    positive [startWorth] and a positive withdrawal the year before, and
    when the results of the six operations of the test and of the planned
    rate are normal numbers, the planned rate is not below the upper
    guardrail: the rule of the year is [InflationFrozen] or
    [CapitalPreservation], never [Prosperity]. *)
Theorem frozen_never_prosperity (i : nat) (prev r : yearData float) :
  nth_error simulationData i = Some prev ->
  nth_error simulationData (S i) = Some r ->
  (lit 0 <? initialWithdrawalRate) = true ->
  (lit 0 <? startWorth r) = true ->
  (lit 0 <? actualWithdrawal prev) = true ->
  (ToNumber (returnRate prev) <? lit 0) = true ->
  (plannedRateWithInflation (actualWithdrawal prev) (inflation r)
     (startWorth r) >? initialWithdrawalRate) = true ->
  Rounding.normal
    (plannedWithdrawalWithInflation (actualWithdrawal prev) (inflation r))
  = true ->
  Rounding.normal
    (plannedWithdrawalWithInflation (actualWithdrawal prev) (inflation r)
     / startWorth r) = true ->
  Rounding.normal
    (plannedRateWithInflation (actualWithdrawal prev) (inflation r)
       (startWorth r)) = true ->
  Rounding.normal (actualWithdrawal prev / startWorth r) = true ->
  Rounding.normal ((actualWithdrawal prev / startWorth r) * lit 100) = true ->
  Rounding.normal (upperGuardrail initialWithdrawalRate) = true ->
  plannedWithdrawal r = actualWithdrawal prev /\
  (exists rate,
      plannedRate r = number rate /\
      (rate <? upperGuardrail initialWithdrawalRate) = false) /\
  (rule r = InflationFrozen \/ rule r = CapitalPreservation) /\
  rule r <> Prosperity.
Proof.
  intros Hprev Hr HR Hstart Hlast Hneg Hrate Na Nb Nc Np Nd NU.
  pose proof (frozen_rate_not_below_double
                HR Hstart Hlast Hrate Na Nb Nc Np Nd NU) as Hup.
  destruct (frozen_not_below run Hprev Hr Hneg Hrate Hup)
    as (Hplanned & Hplannedrate & Hrule).
  repeat split; eauto. destruct Hrule; congruence.
Qed.

End DoubleRun.

(** ** The theorems on concrete runs *)

Section Concrete.

Import Scenario.
Local Open Scope js_scope.

Ltac computed := vm_compute; reflexivity.

(** Scenario B with an initial rate of 15: the capital-preservation
    guardrail triggers in the second year. *)
Lemma guardrail_evaluation_witness :
  exists prev r,
    nth_error freeze_cut_records 0 = Some prev /\
    nth_error freeze_cut_records 1 = Some r /\
    plannedRate r = number 18.575851393188856%float /\
    rule r = CapitalPreservation /\
    actualWithdrawal r = (plannedWithdrawal r * 0.9)%float.
Proof.
  eexists. eexists. split; [reflexivity|]. split; [reflexivity|].
  pose proof (@guardrail_evaluation float _
                (App.initialAssets freeze_cut)
                (App.initialWithdrawalRate freeze_cut)
                (App.annualData freeze_cut)
                (App.simulationYears freeze_cut)
                freeze_cut_records) as W.
  specialize (W ltac:(computed) 0%nat _ _ eq_refl eq_refl).
  destruct W as (_ & _ & Hrate & Hcase & _).
  split; [exact Hrate|exact Hcase].
Defined.

(** Scenario B: the increase of the second year is frozen. *)
Lemma inflation_freeze_witness :
  exists prev r,
    nth_error freeze_records 0 = Some prev /\
    nth_error freeze_records 1 = Some r /\
    plannedWithdrawal r = actualWithdrawal prev /\
    (rule r, actualWithdrawal r) = (InflationFrozen, 50000%float).
Proof.
  eexists. eexists. split; [reflexivity|]. split; [reflexivity|].
  pose proof (@inflation_freeze float _
                (App.initialAssets freeze) (App.initialWithdrawalRate freeze)
                (App.annualData freeze) (App.simulationYears freeze)
                freeze_records) as W.
  specialize (W ltac:(computed) 0%nat _ _ eq_refl eq_refl).
  destruct W as (_ & Hcase). exact Hcase.
Defined.

(** Scenario B: two records, chained. *)
Lemma chaining_witness :
  exists simulationData,
    App.calculateSimulation freeze = Return simulationData /\
    length simulationData = 2%nat /\
    (forall r, nth_error simulationData 0 = Some r ->
               startWorth r = 1000000%float) /\
    (forall i prev r,
        nth_error simulationData i = Some prev ->
        nth_error simulationData (S i) = Some r ->
        startWorth r = endWorth prev).
Proof.
  apply (@chaining float _
           (App.initialAssets freeze) (App.initialWithdrawalRate freeze)
           (App.annualData freeze) (App.simulationYears freeze)).
  intros k _. eexists. reflexivity.
Defined.

(** Scenario B: the second record. *)
Lemma finalization_witness :
  exists r,
    nth_error freeze_records 1 = Some r /\
    postWithdrawalBalance r = (902500 - 50000)%float /\
    endWorth r = (852500 * (1 + 3 / 100))%float /\
    actualRate r = (50000 / 902500 * 100)%float.
Proof.
  eexists. split; [reflexivity|].
  pose proof (@finalization float _
                (App.initialAssets freeze) (App.initialWithdrawalRate freeze)
                (App.annualData freeze) (App.simulationYears freeze)
                freeze_records) as W.
  specialize (W ltac:(computed) 1%nat _ eq_refl).
  destruct W as (Hpost & Hend & Hrate & _).
  split; [exact Hpost|]. split; [exact Hend|exact Hrate].
Defined.

(** Scenario A: one year, one record, rule [Initial]. *)
Lemma initial_year_witness :
  exists r0,
    App.calculateSimulation single = Return [r0] /\
    startWorth r0 = 1000000%float /\
    rule r0 = Initial /\
    plannedWithdrawal r0 = 50000%float /\
    actualWithdrawal r0 = 50000%float.
Proof.
  destruct (@initial_year float _
              (App.initialAssets single) (App.initialWithdrawalRate single)
              (App.annualData single) (App.simulationYears single))
    as (r0 & rest & Hrun & Hstart & _ & Hrule & Hplanned & Hactual & _ & Hone).
  - intros k _. eexists. reflexivity.
  - cbn. lia.
  - exists r0. rewrite (Hone eq_refl) in Hrun.
    split; [exact Hrun|]. split; [exact Hstart|]. split; [exact Hrule|].
    split; [exact Hplanned|]. rewrite Hactual. exact Hplanned.
Defined.

(** Numbers that are not finite go through, and [src/unnamed/part_000]
    throws on an array that is too short. *)
Lemma no_input_validation_witness :
  (exists simulationData,
      App.calculateSimulation not_finite = Return simulationData /\
      length simulationData = 1%nat) /\
  MixMatch.calculateSimulation short_data = TypeError.
Proof.
  destruct (@no_input_validation float _) as (Happ & Hmix). split.
  - destruct (Happ not_finite) as (out & Hrun & Hlen & _). eauto.
  - apply (Hmix short_data). cbn. lia.
Defined.

(** C7 as stated fails: with no year to simulate, with numbers that are
    not finite and with arrays shorter than [simulationYears],
    [calculateSimulation] of [src/app.js] returns a sequence. *)
Lemma invalid_input_accepted :
  ((App.simulationYears no_year < 1)%Z /\
   App.calculateSimulation no_year = Return []) /\
  (PrimFloat.is_nan (App.initialAssets not_finite) = true /\
   exists r0,
     App.calculateSimulation not_finite = Return [r0] /\
     rule r0 = Initial /\
     PrimFloat.is_nan (endWorth r0) = true) /\
  (length (App.annualReturns short) <> Z.to_nat (App.simulationYears short) /\
   exists r0 r1,
     App.calculateSimulation short = Return [r0; r1] /\
     inflation r1 = undefined /\
     PrimFloat.is_nan (actualWithdrawal r1) = true).
Proof.
  split; [|split].
  - split; [reflexivity|]. reflexivity.
  - split; [reflexivity|]. eexists. vm_compute. repeat split.
  - split; [cbn; lia|]. eexists. eexists. vm_compute. repeat split.
Qed.

(** Scenario B with an initial rate of 15: the increase of the second
    year is frozen, its rule is [CapitalPreservation] and its withdrawal is
    not the initial year's. *)
Lemma scenario_freeze_witness :
  exists r0 r1,
    App.calculateSimulation freeze_cut = Return [r0; r1] /\
    plannedWithdrawal r1 = actualWithdrawal r0 /\
    rule r1 = CapitalPreservation /\
    actualWithdrawal r1 = (actualWithdrawal r0 * 0.9)%float.
Proof.
  eexists. eexists. split; [vm_compute; reflexivity|].
  pose proof (@scenario_freeze float _
                (App.initialAssets freeze_cut)
                (App.initialWithdrawalRate freeze_cut)
                (App.annualData freeze_cut)
                (App.simulationYears freeze_cut)
                freeze_cut_records) as W.
  specialize (W ltac:(computed) _ _ eq_refl eq_refl).
  specialize (W ltac:(computed) ltac:(computed)
                ltac:(computed)).
  destruct W as (Hplanned & _ & _ & Hcut & _).
  split; [exact Hplanned|]. exact (Hcut eq_refl).
Defined.

(** C8 as stated fails: in that run the initial year's return is negative,
    the second year's inflation is 5 and the rate of its inflation-adjusted
    withdrawal is above the initial rate, yet its rule is
    [CapitalPreservation] and its withdrawal 135000, not 150000. *)
Lemma scenario_freeze_overridden :
  exists r0 r1,
    App.calculateSimulation freeze_cut = Return [r0; r1] /\
    (ToNumber (returnRate r0) <? lit 0) = true /\
    inflation r1 = number (lit 5) /\
    (plannedRateWithInflation (actualWithdrawal r0) (inflation r1)
       (startWorth r1) >? App.initialWithdrawalRate freeze_cut) = true /\
    rule r1 = CapitalPreservation /\
    actualWithdrawal r0 = 150000%float /\
    actualWithdrawal r1 = 135000%float.
Proof.
  eexists. eexists. vm_compute. repeat split.
Qed.

(** Scenario B: no planned rate in the initial year's record, one in the
    second year's. *)
Lemma planned_rate_of_records_witness :
  exists r0 r1,
    freeze_records = [r0; r1] /\
    plannedRate r0 = undefined /\
    plannedRate r1 = number (50000 / 902500 * 100)%float.
Proof.
  eexists. eexists. split; [reflexivity|].
  pose proof (@planned_rate_of_records float _
                (App.initialAssets freeze) (App.initialWithdrawalRate freeze)
                (App.annualData freeze) (App.simulationYears freeze)
                freeze_records) as W.
  specialize (W ltac:(computed)).
  destruct W as (Hfirst & Hlater).
  split; [exact (Hfirst _ eq_refl)|exact (Hlater 0%nat _ eq_refl)].
Defined.

(** C9 as stated fails: the record of Scenario A has no planned rate. *)
Lemma initial_record_without_planned_rate :
  exists r0,
    App.calculateSimulation single = Return [r0] /\
    plannedRate r0 = undefined /\
    plannedWithdrawal r0 = 50000%float /\
    startWorth r0 = 1000000%float.
Proof.
  eexists. vm_compute. repeat split.
Qed.

(** C10 as stated fails: after a year of inflation below -100 the
    withdrawal carried over is negative; the next such year freezes it and
    the prosperity guardrail triggers, on a positive rate and a positive
    worth, and with no operation that underflows or overflows. *)
Lemma prosperity_in_frozen_year :
  exists r0 r1 r2,
    App.calculateSimulation deflation = Return [r0; r1; r2] /\
    (lit 0 <? App.initialWithdrawalRate deflation) = true /\
    (lit 0 <? startWorth r2) = true /\
    (ToNumber (returnRate r1) <? lit 0) = true /\
    (plannedRateWithInflation (actualWithdrawal r1) (inflation r2)
       (startWorth r2) >? App.initialWithdrawalRate deflation) = true /\
    Rounding.normal
      (plannedWithdrawalWithInflation (actualWithdrawal r1) (inflation r2))
    = true /\
    Rounding.normal
      (plannedWithdrawalWithInflation (actualWithdrawal r1) (inflation r2)
       / startWorth r2) = true /\
    Rounding.normal
      (plannedRateWithInflation (actualWithdrawal r1) (inflation r2)
         (startWorth r2)) = true /\
    Rounding.normal (actualWithdrawal r1 / startWorth r2) = true /\
    Rounding.normal ((actualWithdrawal r1 / startWorth r2) * lit 100) = true /\
    Rounding.normal (upperGuardrail (App.initialWithdrawalRate deflation))
    = true /\
    plannedWithdrawal r2 = actualWithdrawal r1 /\
    (actualWithdrawal r1 <? lit 0) = true /\
    rule r2 = Prosperity.
Proof.
  eexists. eexists. eexists. vm_compute. repeat split.
Qed.

(** A year of inflation 8 after a good year: the increase is not frozen,
    the inflation applied is 6 and the planned withdrawal is the 50000 of
    the year before times the factor [1 + 6/100]. *)
Lemma inflation_cap_witness :
  exists prev r,
    nth_error capped_records 0 = Some prev /\
    nth_error capped_records 1 = Some r /\
    inflation r = number 8%float /\
    actualWithdrawal prev = 50000%float /\
    Math_min (ToNumber (inflation r)) (lit 6.0) = 6%float /\
    plannedWithdrawal r
    = (actualWithdrawal prev * 1.0600000000000001)%float /\
    (actualWithdrawal prev * (lit 1 + lit 6.0 / lit 100)
       <? plannedWithdrawal r) = false.
Proof.
  eexists. eexists. split; [reflexivity|]. split; [reflexivity|].
  split; [reflexivity|]. split; [reflexivity|].
  pose proof (@inflation_cap
                (App.initialAssets capped)
                (App.initialWithdrawalRate capped)
                (App.annualData capped)
                (App.simulationYears capped)
                capped_records) as W.
  specialize (W ltac:(computed) 0%nat _ _ eq_refl eq_refl).
  destruct W as (_ & Hplanned & _ & Hcapped & _ & _ & Hgrowth).
  destruct (Hcapped ltac:(computed)) as [Hsix _].
  split; [exact Hsix|].
  split; [etransitivity; [exact Hplanned|computed]|].
  apply Hgrowth. computed.
Defined.

(** Scenario B: the increase is frozen and the rule is
    [InflationFrozen]. *)
Lemma frozen_never_prosperity_witness :
  exists prev r,
    nth_error freeze_records 0 = Some prev /\
    nth_error freeze_records 1 = Some r /\
    plannedWithdrawal r = actualWithdrawal prev /\
    (rule r = InflationFrozen \/ rule r = CapitalPreservation) /\
    rule r <> Prosperity.
Proof.
  eexists. eexists. split; [reflexivity|]. split; [reflexivity|].
  pose proof (@frozen_never_prosperity
                (App.initialAssets freeze)
                (App.initialWithdrawalRate freeze)
                (App.annualData freeze)
                (App.simulationYears freeze)
                freeze_records) as W.
  specialize (W ltac:(computed) 0%nat _ _ eq_refl eq_refl).
  specialize (W ltac:(computed) ltac:(computed)
                ltac:(computed) ltac:(computed)
                ltac:(computed)).
  specialize (W ltac:(computed) ltac:(computed)
                ltac:(computed) ltac:(computed)
                ltac:(computed) ltac:(computed)).
  destruct W as (Hplanned & _ & Hrule & Hnot).
  split; [exact Hplanned|]. split; [exact Hrule|exact Hnot].
Defined.

(** The bound of C10 needs operations that do not underflow: among the
    subnormal doubles the quotient [lastActualWithdrawal / startWorth] can
    round to zero while that of the inflation-adjusted withdrawal does
    not, and the prosperity guardrail triggers in a frozen year with
    every quantity positive. *)
Lemma prosperity_in_frozen_year_by_rounding :
  exists r0 r1 r2,
    App.calculateSimulation subnormal = Return [r0; r1; r2] /\
    (lit 0 <? App.initialWithdrawalRate subnormal) = true /\
    (lit 0 <? startWorth r2) = true /\
    (lit 0 <? actualWithdrawal r1) = true /\
    (ToNumber (returnRate r1) <? lit 0) = true /\
    (plannedRateWithInflation (actualWithdrawal r1) (inflation r2)
       (startWorth r2) >? App.initialWithdrawalRate subnormal) = true /\
    plannedWithdrawal r2 = actualWithdrawal r1 /\
    Rounding.normal (actualWithdrawal r1 / startWorth r2) = false /\
    plannedRate r2 = number 0%float /\
    rule r2 = Prosperity.
Proof.
  eexists. eexists. eexists. vm_compute. repeat split.
Qed.

(** It needs an inflation-adjusted withdrawal that does not overflow
    either: near the largest double that withdrawal is infinite and so is
    its rate, above any initial rate, while the rate of the withdrawal
    carried over is an ordinary number below the upper guardrail. *)
Lemma prosperity_in_frozen_year_by_overflow :
  exists r0 r1,
    App.calculateSimulation overflow = Return [r0; r1] /\
    (lit 0 <? App.initialWithdrawalRate overflow) = true /\
    (lit 0 <? startWorth r1) = true /\
    (lit 0 <? actualWithdrawal r0) = true /\
    (ToNumber (returnRate r0) <? lit 0) = true /\
    plannedWithdrawalWithInflation (actualWithdrawal r0) (inflation r1)
    = PrimFloat.infinity /\
    (plannedRateWithInflation (actualWithdrawal r0) (inflation r1)
       (startWorth r1) >? App.initialWithdrawalRate overflow) = true /\
    plannedWithdrawal r1 = actualWithdrawal r0 /\
    Rounding.normal (actualWithdrawal r0 / startWorth r1) = true /\
    plannedRate r1 = number 95.238095238095227%float /\
    upperGuardrail (App.initialWithdrawalRate overflow) = 160%float /\
    rule r1 = Prosperity.
Proof.
  eexists. eexists. vm_compute. repeat split.
Qed.

End Concrete.

(** * Beyond the engine *)

(** ** The map of [combineData] *)

Module JSMapFacts.

Section JSMapFacts.

Context {V : Type}.

Lemma find_append {A : Type} (f : A -> bool) (l1 l2 : list A) :
  find f (l1 ++ l2)
  = match find f l1 with
    | Some x => Some x
    | None => find f l2
    end.
Proof.
  induction l1 as [|x l1 IH]; cbn; [reflexivity|].
  destruct (f x); [reflexivity|exact IH].
Qed.

Lemma find_replaced (m : JSMap.t V) (key key' : Z) (v : V) :
  key <> key' ->
  find (fun e => Z.eqb (fst e) key')
    (map (fun e => if Z.eqb (fst e) key then (key, v) else e) m)
  = find (fun e => Z.eqb (fst e) key') m.
Proof.
  intros Hne. induction m as [|[k w] m IH]; cbn; [reflexivity|].
  destruct (Z.eqb_spec k key) as [->|Hk]; cbn.
  - destruct (Z.eqb_spec key key'); [contradiction|exact IH].
  - destruct (Z.eqb_spec k key'); [reflexivity|exact IH].
Qed.

Lemma get_set (m : JSMap.t V) (key key' : Z) (v : V) :
  JSMap.get (JSMap.set m key v) key'
  = if Z.eqb key key' then number v else JSMap.get m key'.
Proof.
  unfold JSMap.set, JSMap.get, JSMap.has.
  destruct (Z.eqb_spec key key') as [<-|Hne].
  - destruct (existsb _ m) eqn:Hhas.
    + induction m as [|[k w] m IH]; cbn in *; [discriminate|].
      destruct (Z.eqb_spec k key) as [->|Hk]; cbn.
      * rewrite Z.eqb_refl. reflexivity.
      * destruct (Z.eqb_spec k key); [contradiction|]. apply IH, Hhas.
    + induction m as [|[k w] m IH]; cbn in *.
      * rewrite Z.eqb_refl. reflexivity.
      * apply orb_false_iff in Hhas. destruct Hhas as [-> Hm]. apply IH, Hm.
  - destruct (existsb _ m).
    + now rewrite find_replaced.
    + induction m as [|[k w] m IH]; cbn.
      * destruct (Z.eqb_spec key key'); [contradiction|reflexivity].
      * destruct (Z.eqb k key'); [reflexivity|exact IH].
Qed.

(** A key set several times keeps its last value. *)
Lemma get_fold_set (entries : list (Z * V)) (m : JSMap.t V) (key : Z) :
  JSMap.get (fold_left (fun m e => JSMap.set m (fst e) (snd e)) entries m) key
  = match find (fun e => Z.eqb (fst e) key) (rev entries) with
    | Some e => number (snd e)
    | None => JSMap.get m key
    end.
Proof.
  revert m. induction entries as [|[k w] entries IH]; intros m; cbn.
  - reflexivity.
  - rewrite IH, find_append.
    destruct (find _ (rev entries)); [reflexivity|].
    cbn. rewrite get_set. destruct (Z.eqb k key); reflexivity.
Qed.

Lemma get_of_entries (entries : list (Z * V)) (key : Z) :
  JSMap.get (JSMap.of_entries entries) key
  = match find (fun e => Z.eqb (fst e) key) (rev entries) with
    | Some e => number (snd e)
    | None => undefined
    end.
Proof.
  unfold JSMap.of_entries. now rewrite get_fold_set.
Qed.

Lemma has_get (m : JSMap.t V) (key : Z) :
  JSMap.has m key = match JSMap.get m key with
                    | number _ => true
                    | undefined => false
                    end.
Proof.
  unfold JSMap.has, JSMap.get.
  induction m as [|[k w] m IH]; cbn; [reflexivity|].
  destruct (Z.eqb k key); [reflexivity|exact IH].
Qed.

Lemma has_of_entries (entries : list (Z * V)) (key : Z) :
  JSMap.has (JSMap.of_entries entries) key
  = existsb (fun e => Z.eqb (fst e) key) entries.
Proof.
  rewrite has_get, get_of_entries.
  destruct (find _ (rev entries)) as [e|] eqn:Hfind.
  - symmetry. apply existsb_exists. exists e.
    apply find_some in Hfind. destruct Hfind as [Hin He].
    split; [now apply in_rev|exact He].
  - destruct (existsb _ entries) eqn:Hex; [|reflexivity].
    apply existsb_exists in Hex. destruct Hex as (e & Hin & He).
    apply in_rev in Hin.
    now rewrite (find_none _ _ Hfind e Hin) in He.
Qed.

End JSMapFacts.

End JSMapFacts.

(** ** [combineData] *)

Module DatasetsFacts.

Import Datasets.

Section DatasetsFacts.

Context {num : Type}.

Implicit Types (investmentData : list (InvestmentItem num))
  (inflationData : list (InflationItem num)).

Lemma fold_push {A B : Type} (keep : A -> bool) (g : A -> B) (l : list A)
    (acc : list B) :
  fold_left (fun acc x => if keep x then acc ++ [g x] else acc) l acc
  = acc ++ map g (filter keep l).
Proof.
  revert acc. induction l as [|x l IH]; intros acc; cbn.
  - now rewrite app_nil_r.
  - rewrite IH. destruct (keep x); cbn; [|reflexivity].
    now rewrite <- app_assoc.
Qed.

Lemma fold_left_agree {A B : Type} (f g : B -> A -> B) (l : list A) (b : B) :
  (forall acc x, f acc x = g acc x) -> fold_left f l b = fold_left g l b.
Proof.
  intros Hfg. revert b. induction l as [|x l IH]; intros b; cbn.
  - reflexivity.
  - now rewrite Hfg, IH.
Qed.

Lemma find_map {A B : Type} (f : B -> bool) (g : A -> B) (l : list A) :
  find f (map g l) = option_map g (find (fun x => f (g x)) l).
Proof.
  induction l as [|x l IH]; cbn; [reflexivity|].
  destruct (f (g x)); [reflexivity|exact IH].
Qed.

Lemma existsb_map {A B : Type} (f : B -> bool) (g : A -> B) (l : list A) :
  existsb f (map g l) = existsb (fun x => f (g x)) l.
Proof.
  induction l as [|x l IH]; cbn; [reflexivity|]. now rewrite IH.
Qed.

Lemma inflationMap_has inflationData (y : Z) :
  JSMap.has
    (JSMap.of_entries
       (map (fun item => (inflation_year item, inflation_value item))
          inflationData)) y
  = inInflationData inflationData y.
Proof.
  rewrite JSMapFacts.has_of_entries, existsb_map. reflexivity.
Qed.

Lemma inflationMap_get inflationData (y : Z) :
  JSMap.get
    (JSMap.of_entries
       (map (fun item => (inflation_year item, inflation_value item))
          inflationData)) y
  = lastInflation inflationData y.
Proof.
  rewrite JSMapFacts.get_of_entries, <- map_rev, find_map.
  unfold lastInflation. cbn [fst].
  destruct (find _ (rev inflationData)); reflexivity.
Qed.

(** The loop of [combineData] as a filter followed by a map. *)
Lemma combineData_filter investmentData inflationData :
  combineData investmentData inflationData
  = map (fun item =>
           {| year := investment_year item;
              return_ := investment_return item;
              inflation :=
                lastInflation inflationData (investment_year item) |})
      (filter (fun item =>
                 inInflationData inflationData (investment_year item))
         investmentData).
Proof.
  unfold combineData.
  rewrite (fold_left_agree _
             (fun combined item =>
                if inInflationData inflationData (investment_year item)
                then combined ++
                     [ {| year := investment_year item;
                          return_ := investment_return item;
                          inflation :=
                            lastInflation inflationData
                              (investment_year item) |} ]
                else combined)).
  - now rewrite fold_push.
  - intros combined item. now rewrite inflationMap_has, inflationMap_get.
Qed.

(** The last element of a list that satisfies a test. *)
Lemma find_rev_split {A : Type} (f : A -> bool) (l : list A) (x : A) :
  find f (rev l) = Some x <->
  exists before after,
    l = before ++ x :: after /\ f x = true /\
    forall y, In y after -> f y = false.
Proof.
  split.
  - revert x. induction l as [|a l IH]; intros x; cbn; [discriminate|].
    rewrite JSMapFacts.find_append.
    destruct (find f (rev l)) as [x'|] eqn:Hfind.
    + intros [= <-]. destruct (IH x' eq_refl) as (b & aft & -> & Hx & Haft).
      exists (a :: b), aft. auto.
    + cbn. destruct (f a) eqn:Ha; [|discriminate]. intros [= <-].
      exists [], l. repeat split; [exact Ha|].
      intros y Hy. apply (find_none _ _ Hfind). now apply in_rev in Hy.
  - intros (before & after & -> & Hx & Hafter).
    rewrite rev_app_distr. cbn. rewrite <- app_assoc.
    rewrite JSMapFacts.find_append.
    destruct (find f (rev after)) as [y|] eqn:Hfind.
    + apply find_some in Hfind. destruct Hfind as [Hin Hy].
      apply in_rev in Hin. now rewrite (Hafter y Hin) in Hy.
    + cbn. now rewrite Hx.
Qed.

(** X1.  A record is in the result of [combineData] exactly when it pairs
    an element of the investment data with the last element of the
    inflation data that has its year: the year and the return are the
    investment element's, the inflation is that last element's. *)
Theorem combineData_records investmentData inflationData
    (d : CombinedItem num) :
  In d (combineData investmentData inflationData) <->
  exists item before last after,
    In item investmentData /\
    inflationData = before ++ last :: after /\
    inflation_year last = investment_year item /\
    (forall x, In x after -> inflation_year x <> investment_year item) /\
    d = {| year := investment_year item;
           return_ := investment_return item;
           inflation := number (inflation_value last) |}.
Proof.
  rewrite combineData_filter, in_map_iff. split.
  - intros (item & <- & Hin). apply filter_In in Hin.
    destruct Hin as [Hin Hhas]. unfold lastInflation.
    destruct (find _ (rev inflationData)) as [last|] eqn:Hfind.
    + apply find_rev_split in Hfind.
      destruct Hfind as (before & after & -> & Hlast & Hafter).
      exists item, before, last, after. repeat split; auto.
      * now apply Z.eqb_eq.
      * intros x Hx. apply Z.eqb_neq. auto.
    + exfalso. unfold inInflationData in Hhas.
      apply existsb_exists in Hhas. destruct Hhas as (x & Hx & Hyear).
      apply in_rev in Hx. now rewrite (find_none _ _ Hfind x Hx) in Hyear.
  - intros (item & before & last & after & Hin & -> & Hyear & Hafter & ->).
    exists item. split.
    + unfold lastInflation.
      replace (find _ (rev (before ++ last :: after))) with (Some last);
        [reflexivity|].
      symmetry. apply find_rev_split. exists before, after.
      repeat split; [now apply Z.eqb_eq|].
      intros x Hx. apply Z.eqb_neq. auto.
    + apply filter_In. split; [exact Hin|].
      unfold inInflationData. apply existsb_exists. exists last.
      split; [apply in_elt|now apply Z.eqb_eq].
Qed.

(** X2.  The result of [combineData] follows the investment data: its
    years and returns are, in the same order and with repetitions kept,
    those of the investment elements whose year occurs in the inflation
    data. *)
Theorem combineData_order investmentData inflationData :
  map (fun d => (year d, return_ d))
    (combineData investmentData inflationData)
  = map (fun item => (investment_year item, investment_return item))
      (filter (fun item =>
                 inInflationData inflationData (investment_year item))
         investmentData).
Proof.
  rewrite combineData_filter, map_map. reflexivity.
Qed.

Lemma filter_all {A : Type} (f : A -> bool) (l : list A) :
  length (filter f l) = length l <-> forall x, In x l -> f x = true.
Proof.
  induction l as [|a l IH]; cbn.
  - split; [intros _ x []|reflexivity].
  - pose proof (filter_length_le f l) as Hle.
    destruct (f a) eqn:Ha; cbn.
    + split.
      * intros [= Hlen] x [<-|Hx]; [exact Ha|]. now apply IH.
      * intros Hall. f_equal. apply IH. auto.
    + split; [lia|]. intros Hall. rewrite (Hall a) in Ha by auto.
      discriminate.
Qed.

Lemma filter_none {A : Type} (f : A -> bool) (l : list A) :
  filter f l = [] <-> forall x, In x l -> f x = false.
Proof.
  induction l as [|a l IH]; cbn.
  - split; [intros _ x []|reflexivity].
  - destruct (f a) eqn:Ha.
    + split; [discriminate|]. intros Hall. rewrite (Hall a) in Ha by auto.
      discriminate.
    + rewrite IH. split.
      * intros Hall x [<-|Hx]; auto.
      * intros Hall x Hx. auto.
Qed.

(** X3.  [combineData] drops the investment elements whose year the
    inflation data lack, and nothing else: the result is never longer
    than the investment data, as long exactly when every investment year
    occurs in the inflation data, and empty exactly when none does. *)
Theorem combineData_length investmentData inflationData :
  (length (combineData investmentData inflationData)
   <= length investmentData)%nat /\
  (length (combineData investmentData inflationData) = length investmentData
   <-> forall item, In item investmentData ->
         inInflationData inflationData (investment_year item) = true) /\
  (combineData investmentData inflationData = []
   <-> forall item, In item investmentData ->
         inInflationData inflationData (investment_year item) = false).
Proof.
  rewrite combineData_filter, length_map. split; [apply filter_length_le|].
  split; [apply filter_all|].
  rewrite <- filter_none. split.
  - intros Hnil. apply map_eq_nil in Hnil. exact Hnil.
  - intros ->. reflexivity.
Qed.

End DatasetsFacts.

End DatasetsFacts.

(** ** More on the year loop *)

Section LoopFacts.

Context {num : Type} `{Number num}.
Local Open Scope js_scope.

Variables initialAssets initialWithdrawalRate : num.
Variable annualData : nat -> outcome (annual num).

Local Abbreviation loopBody :=
  (loopBody initialAssets initialWithdrawalRate annualData).
Local Abbreviation forLoop :=
  (forLoop initialAssets initialWithdrawalRate annualData).
Local Abbreviation simulate :=
  (simulate initialAssets initialWithdrawalRate annualData).





End LoopFacts.

Section RecordFacts.

Context {num : Type} `{Number num}.
Local Open Scope js_scope.

Variables initialAssets initialWithdrawalRate : num.
Variable annualData : nat -> outcome (annual num).
Variable simulationYears : Z.
Variable simulationData : list (yearData num).

Hypothesis run :
  simulate initialAssets initialWithdrawalRate annualData simulationYears
  = Return simulationData.

Lemma run_previous (i : nat) (r : yearData num) :
  nth_error simulationData (S i) = Some r ->
  exists prev, nth_error simulationData i = Some prev.
Proof.
  intros Hr.
  assert (Hi : (i < length simulationData)%nat).
  { apply Nat.lt_succ_l. apply nth_error_Some. congruence. }
  destruct (nth_error simulationData i) as [prev|] eqn:Hprev; [eauto|].
  apply nth_error_None in Hprev. lia.
Qed.

(** X5.  The rule [Initial] tags the first record and no other. *)
Theorem initial_rule_only_first (i : nat) (r : yearData num) :
  nth_error simulationData i = Some r ->
  (rule r = Initial <-> i = 0%nat).
Proof.
  intros Hr. destruct i as [|i].
  - destruct (run_first run Hr) as (data & _ & ->). now split.
  - destruct (run_previous _ Hr) as [prev Hprev].
    destruct (run_later run Hprev Hr) as (data & _ & ->).
    split; [|discriminate]. cbn.
    unfold guardrails, inflationStep.
    destruct (inflationFrozen _ _ _ _ _); cbn;
      destruct (_ >? lowerGuardrail _); cbn; try discriminate;
      destruct (_ <? upperGuardrail _); cbn; discriminate.
Qed.

(** What a record keeps of the annual data of its year. *)
Lemma run_data (i : nat) (r : yearData num) :
  nth_error simulationData i = Some r ->
  exists data,
    annualData i = Return data /\
    year r = annual_year data /\
    returnRate r = annual_return data /\
    inflation r = if Nat.eqb i 0 then number (lit 0) else annual_inflation data.
Proof.
  intros Hr. destruct i as [|i].
  - destruct (run_first run Hr) as (data & Hdata & ->). eauto.
  - destruct (run_previous _ Hr) as [prev Hprev].
    destruct (run_later run Hprev Hr) as (data & Hdata & ->). eauto.
Qed.

End RecordFacts.

Arguments run_data {num _ _ _ _ _ _} run {i r} _.
Arguments run_previous {num simulationData i r} _.

(** ** What the records keep of the input *)

Section InputFacts.

Context {num : Type} `{Number num}.

(** X6.  The records follow the input, year by year.  In [src/app.js] the
    record of index [i] is labelled [i] and carries [annualReturns[i]]
    and, after the first, [annualInflations[i]] ([undefined] past the end
    of an array).  In [src/unnamed/part_000] it carries the year, the
    return and, after the first, the inflation of [annualData[i]].  The
    first record's inflation is 0 in both. *)
Theorem records_follow_input :
  (forall (p : App.params num) simulationData i r,
      App.calculateSimulation p = Return simulationData ->
      nth_error simulationData i = Some r ->
      year r = Z.of_nat i /\
      returnRate r = element (App.annualReturns p) i /\
      inflation r = if Nat.eqb i 0 then number (lit 0)
                    else element (App.annualInflations p) i) /\
  (forall (p : MixMatch.params num) simulationData i r,
      MixMatch.calculateSimulation p = Return simulationData ->
      nth_error simulationData i = Some r ->
      exists d,
        nth_error (MixMatch.annualData p) i = Some d /\
        year r = MixMatch.year d /\
        returnRate r = number (MixMatch.return_ d) /\
        inflation r = if Nat.eqb i 0 then number (lit 0)
                      else number (MixMatch.inflation d)).
Proof.
  split.
  - intros p out i r Hrun Hr.
    destruct (run_data Hrun Hr) as (data & Hdata & Hyear & Hret & Hinf).
    unfold App.annualData in Hdata. injection Hdata as <-.
    auto.
  - intros p out i r Hrun Hr.
    destruct (run_data Hrun Hr) as (data & Hdata & Hyear & Hret & Hinf).
    unfold MixMatch.annualData_at, item in Hdata.
    destruct (nth_error (MixMatch.annualData p) i) as [d|]; [|discriminate].
    cbn in Hdata. injection Hdata as <-. eauto.
Qed.

End InputFacts.

Section FirstInflation.

Context {num : Type} `{Number num}.
Local Open Scope js_scope.

Variables initialAssets initialWithdrawalRate : num.

(** Two readings of the annual data that differ at most in the inflation
    of the first year. *)
Variables annualData annualData' : nat -> outcome (annual num).

Hypothesis later_same : forall i, i <> 0%nat -> annualData' i = annualData i.

Hypothesis first_same :
  match annualData 0, annualData' 0 with
  | Return d, Return d' =>
      annual_year d = annual_year d' /\ annual_return d = annual_return d'
  | TypeError, TypeError => True
  | _, _ => False
  end.

Lemma loopBody_first_inflation (i : nat) (st : state) :
  loopBody initialAssets initialWithdrawalRate annualData i st
  = loopBody initialAssets initialWithdrawalRate annualData' i st.
Proof.
  destruct st as [sd last]. destruct i as [|i].
  - rewrite !loopBody_first.
    destruct (annualData 0) as [d|], (annualData' 0) as [d'|];
      try contradiction; [|reflexivity].
    destruct first_same as [Hyear Hret]. cbn.
    unfold firstYear, finalize. now rewrite Hyear, Hret.
  - unfold loopBody. now rewrite later_same.
Qed.

Lemma forLoop_first_inflation (n i : nat) (st : state) :
  forLoop initialAssets initialWithdrawalRate annualData n i st
  = forLoop initialAssets initialWithdrawalRate annualData' n i st.
Proof.
  revert i st. induction n as [|n IH]; intros i st; cbn; [reflexivity|].
  rewrite loopBody_first_inflation.
  destruct (loopBody _ _ annualData' i st); cbn; [apply IH|reflexivity].
Qed.

Lemma simulate_first_inflation (simulationYears : Z) :
  simulate initialAssets initialWithdrawalRate annualData simulationYears
  = simulate initialAssets initialWithdrawalRate annualData' simulationYears.
Proof.
  unfold simulate. now rewrite forLoop_first_inflation.
Qed.

End FirstInflation.

Section FirstInflationIgnored.

Context {num : Type} `{Number num}.

(** X7.  The inflation given for the first year is never used: replacing
    it, in [annualInflations] of [src/app.js] or in the first element of
    [annualData] of [src/unnamed/part_000], changes nothing in the
    result. *)
Theorem first_inflation_ignored :
  (forall initialAssets initialWithdrawalRate simulationYears annualReturns
          (x x' : num) (rest : list num),
      App.calculateSimulation
        {| App.initialAssets := initialAssets;
           App.initialWithdrawalRate := initialWithdrawalRate;
           App.simulationYears := simulationYears;
           App.annualReturns := annualReturns;
           App.annualInflations := x :: rest |}
      = App.calculateSimulation
          {| App.initialAssets := initialAssets;
             App.initialWithdrawalRate := initialWithdrawalRate;
             App.simulationYears := simulationYears;
             App.annualReturns := annualReturns;
             App.annualInflations := x' :: rest |}) /\
  (forall initialAssets initialWithdrawalRate simulationYears
          (y : Z) (ret x x' : num) (rest : list (MixMatch.AnnualDatum num)),
      MixMatch.calculateSimulation
        {| MixMatch.initialAssets := initialAssets;
           MixMatch.initialWithdrawalRate := initialWithdrawalRate;
           MixMatch.simulationYears := simulationYears;
           MixMatch.annualData :=
             {| MixMatch.year := y; MixMatch.return_ := ret;
                MixMatch.inflation := x |} :: rest |}
      = MixMatch.calculateSimulation
          {| MixMatch.initialAssets := initialAssets;
             MixMatch.initialWithdrawalRate := initialWithdrawalRate;
             MixMatch.simulationYears := simulationYears;
             MixMatch.annualData :=
               {| MixMatch.year := y; MixMatch.return_ := ret;
                  MixMatch.inflation := x' |} :: rest |}).
Proof.
  split; intros; unfold App.calculateSimulation, MixMatch.calculateSimulation;
    apply simulate_first_inflation.
  - intros [|i] Hi; [contradiction|reflexivity].
  - cbn. split; reflexivity.
  - intros [|i] Hi; [contradiction|reflexivity].
  - cbn. split; reflexivity.
Qed.

End FirstInflationIgnored.

(** ** The two files on the same data *)

Section TwoFiles.

Context {num : Type} `{Number num}.
Local Open Scope js_scope.

Lemma element_map {A : Type} (f : A -> num) (l : list A) (i : nat) (d : A) :
  nth_error l i = Some d -> element (map f l) i = number (f d).
Proof.
  intros Hd. unfold element. now rewrite nth_error_map, Hd.
Qed.

Lemma unlabelled_later (initialWithdrawalRate : num)
    (data data' : annual num) (prev prev' : yearData num) :
  annual_inflation data = annual_inflation data' ->
  annual_return data = annual_return data' ->
  Sides.unlabelled prev = Sides.unlabelled prev' ->
  Sides.unlabelled
    (laterYear initialWithdrawalRate data prev (actualWithdrawal prev))
  = Sides.unlabelled
      (laterYear initialWithdrawalRate data' prev' (actualWithdrawal prev')).
Proof.
  intros Hinf Hret Hprev.
  pose proof (f_equal (@endWorth num) Hprev) as Hend.
  pose proof (f_equal (@returnRate num) Hprev) as Hrate.
  pose proof (f_equal (@actualWithdrawal num) Hprev) as Hactual.
  cbn in Hend, Hrate, Hactual.
  unfold laterYear, finalize, Sides.unlabelled. cbn.
  now rewrite Hinf, Hret, Hend, Hrate, Hactual.
Qed.

(** X8.  On the same data the two files compute the same records, year
    labels apart: [src/unnamed/part_000] on an array of at least
    [simulationYears] elements, [src/app.js] on the arrays of its returns
    and of its inflations. *)
Theorem two_files_agree (p : MixMatch.params num) :
  (Z.to_nat (MixMatch.simulationYears p)
   <= length (MixMatch.annualData p))%nat ->
  exists simulationData simulationData',
    MixMatch.calculateSimulation p = Return simulationData /\
    App.calculateSimulation (Sides.arrays p) = Return simulationData' /\
    map Sides.unlabelled simulationData
    = map Sides.unlabelled simulationData'.
Proof.
  intros Hlen.
  destruct (simulate_returns (MixMatch.initialAssets p)
              (MixMatch.initialWithdrawalRate p) (MixMatch.annualData_at p)
              (MixMatch.simulationYears p)) as [out Hrun].
  { intros k Hk. unfold MixMatch.annualData_at, item.
    destruct (nth_error (MixMatch.annualData p) k) eqn:E; [cbn; eauto|].
    apply nth_error_None in E. lia. }
  destruct (simulate_returns (App.initialAssets (Sides.arrays p))
              (App.initialWithdrawalRate (Sides.arrays p))
              (App.annualData (Sides.arrays p))
              (App.simulationYears (Sides.arrays p))) as [out' Hrun'].
  { intros k _. unfold App.annualData. eauto. }
  exists out, out'. split; [exact Hrun|]. split; [exact Hrun'|].
  apply nth_error_ext. intros i. rewrite !nth_error_map.
  pose proof (run_length Hrun) as Hn. pose proof (run_length Hrun') as Hn'.
  cbn [Sides.arrays App.simulationYears] in Hn'.
  induction i as [|i IH].
  - destruct (nth_error out 0) as [r|] eqn:Hr,
             (nth_error out' 0) as [r'|] eqn:Hr'; cbn.
    + destruct (run_first Hrun Hr) as (data & Hdata & ->).
      destruct (run_first Hrun' Hr') as (data' & Hdata' & ->).
      unfold MixMatch.annualData_at, item in Hdata.
      destruct (nth_error (MixMatch.annualData p) 0) as [d|] eqn:Hd;
        [|discriminate].
      cbn in Hdata. injection Hdata as <-.
      unfold App.annualData in Hdata'. injection Hdata' as <-.
      cbn [Sides.arrays App.annualReturns App.annualInflations
           App.initialAssets App.initialWithdrawalRate].
      unfold firstYear, finalize, Sides.unlabelled. cbn.
      now rewrite (element_map _ _ _ Hd).
    + apply nth_error_None in Hr'. assert (0 < length out)%nat; [|lia].
      apply nth_error_Some. congruence.
    + apply nth_error_None in Hr. assert (0 < length out')%nat; [|lia].
      apply nth_error_Some. congruence.
    + reflexivity.
  - destruct (nth_error out (S i)) as [r|] eqn:Hr,
             (nth_error out' (S i)) as [r'|] eqn:Hr'; cbn.
    + destruct (run_previous Hr) as [prev Hprev].
      destruct (run_previous Hr') as [prev' Hprev'].
      rewrite Hprev, Hprev' in IH. cbn [option_map] in IH.
      assert (Hunl : Sides.unlabelled prev = Sides.unlabelled prev')
        by congruence.
      destruct (run_later Hrun Hprev Hr) as (data & Hdata & ->).
      destruct (run_later Hrun' Hprev' Hr') as (data' & Hdata' & ->).
      unfold MixMatch.annualData_at, item in Hdata.
      destruct (nth_error (MixMatch.annualData p) (S i)) as [d|] eqn:Hd;
        [|discriminate].
      cbn in Hdata. injection Hdata as <-.
      unfold App.annualData in Hdata'. injection Hdata' as <-.
      cbn [Sides.arrays App.annualReturns App.annualInflations
           App.initialAssets App.initialWithdrawalRate].
      f_equal. apply unlabelled_later; cbn;
        [now rewrite (element_map _ _ _ Hd)
        |now rewrite (element_map _ _ _ Hd)
        |exact Hunl].
    + apply nth_error_None in Hr'.
      assert (S i < length out)%nat; [|lia].
      apply nth_error_Some. congruence.
    + apply nth_error_None in Hr.
      assert (S i < length out')%nat; [|lia].
      apply nth_error_Some. congruence.
    + reflexivity.
Qed.

End TwoFiles.

(** ** A worth that is not a number *)

Module NaNFacts.

Local Open Scope float_scope.

Lemma Prim2SF_nan (x : float) : Prim2SF x = S754_nan -> x = PrimFloat.nan.
Proof.
  intros Hx. apply Prim2SF_inj. now rewrite Hx.
Qed.

Lemma div_nan_r (x : float) : x / PrimFloat.nan = PrimFloat.nan.
Proof.
  apply Prim2SF_nan. rewrite div_spec.
  change (Prim2SF PrimFloat.nan) with S754_nan.
  unfold SF64div, SFdiv. destruct (Prim2SF x); reflexivity.
Qed.

Lemma mul_nan_l (x : float) : PrimFloat.nan * x = PrimFloat.nan.
Proof.
  apply Prim2SF_nan. rewrite mul_spec. reflexivity.
Qed.

Lemma sub_nan_l (x : float) : PrimFloat.nan - x = PrimFloat.nan.
Proof.
  apply Prim2SF_nan. rewrite sub_spec. reflexivity.
Qed.

Lemma ltb_nan_l (x : float) : (PrimFloat.nan <? x) = false.
Proof.
  rewrite ltb_spec. reflexivity.
Qed.

End NaNFacts.

Section LostWorth.

Local Open Scope js_scope.

Variables initialAssets initialWithdrawalRate : float.
Variable annualData : nat -> outcome (annual float).
Variable simulationYears : Z.
Variable simulationData : list (yearData float).

Hypothesis run :
  simulate initialAssets initialWithdrawalRate annualData simulationYears
  = Return simulationData.

(** The year after a worth that is not a number. *)
Lemma laterYear_lost (data : annual float) (prev : yearData float) :
  endWorth prev = PrimFloat.nan ->
  let r := laterYear initialWithdrawalRate data prev (actualWithdrawal prev) in
  startWorth r = PrimFloat.nan /\
  rule r = Inflation /\
  plannedRate r = number PrimFloat.nan /\
  actualWithdrawal r
  = plannedWithdrawalWithInflation (actualWithdrawal prev)
      (annual_inflation data) /\
  actualRate r = PrimFloat.nan /\
  endWorth r = PrimFloat.nan.
Proof.
  intros Hend. unfold laterYear, finalize. rewrite Hend.
  unfold inflationStep, inflationFrozen, plannedRateWithInflation,
    guardrails, gt.
  cbn [div mul sub lt Number_double startWorth rule plannedRate
       actualWithdrawal actualRate endWorth].
  repeat (rewrite ?NaNFacts.div_nan_r, ?NaNFacts.mul_nan_l,
            ?NaNFacts.sub_nan_l, ?DoubleFacts.ltb_nan_r, ?NaNFacts.ltb_nan_l,
            ?andb_false_r;
          cbn [fst snd]).
  repeat split.
Qed.

(** X9.  On doubles a worth that is not a number is never recovered from
    and never reported: once a record ends on [NaN], every later record
    starts and ends on [NaN], has [NaN] for its planned and actual rates,
    and is tagged [Inflation], since no test of the freeze or of a
    guardrail holds on [NaN]; its withdrawal is last year's with the
    capped inflation applied. *)
Theorem lost_worth (i j : nat) (lost r : yearData float) :
  nth_error simulationData i = Some lost ->
  endWorth lost = PrimFloat.nan ->
  (i < j)%nat ->
  nth_error simulationData j = Some r ->
  startWorth r = PrimFloat.nan /\
  endWorth r = PrimFloat.nan /\
  rule r = Inflation /\
  plannedRate r = number PrimFloat.nan /\
  actualRate r = PrimFloat.nan /\
  exists prev,
    nth_error simulationData (j - 1) = Some prev /\
    actualWithdrawal r
    = actualWithdrawal prev
      * (lit 1 + Math_min (ToNumber (inflation r)) (lit 6.0) / lit 100).
Proof.
  intros Hlost Hnan Hij. revert r.
  induction j as [|j IH]; [lia|]. intros r Hr.
  destruct (run_previous Hr) as [prev Hprev].
  assert (Hprevnan : endWorth prev = PrimFloat.nan).
  { destruct (Nat.eq_dec i j) as [<-|Hne].
    - congruence.
    - apply (IH ltac:(lia) prev Hprev). }
  destruct (run_later run Hprev Hr) as (data & _ & ->).
  destruct (laterYear_lost data prev Hprevnan)
    as (Hstart & Hrule & Hrate & Hactual & Harate & Hend).
  repeat split; try assumption.
  exists prev. replace (S j - 1)%nat with j by lia.
  split; [exact Hprev|]. rewrite Hactual. reflexivity.
Qed.

End LostWorth.

(** ** The submit handler of [src/app.js] *)

Module AppPageFacts.

Import AppPage.

Lemma firstn_snoc {A : Type} (l : list A) (i : nat) (x : A) :
  nth_error l i = Some x -> firstn (S i) l = firstn i l ++ [x].
Proof.
  revert i. induction l as [|a l IH]; intros [|i] Hx; cbn in *;
    try discriminate.
  - now injection Hx as ->.
  - f_equal. now apply IH.
Qed.

Lemma readTable_done (n i : nat) (table : list (float * float)) :
  (forall k, (i <= k < i + n)%nat ->
     exists r, nth_error table k = Some r /\ accepted r = true) ->
  readTable n i table (map fst (firstn i table)) (map snd (firstn i table))
  = Done (map fst (firstn (i + n) table), map snd (firstn (i + n) table)).
Proof.
  revert i. induction n as [|n IH]; intros i Hrows; cbn.
  - now rewrite Nat.add_0_r.
  - destruct (Hrows i) as ([x y] & Hr & Hok); [lia|].
    rewrite Hr. unfold accepted in Hok. cbn [fst snd] in Hok.
    apply negb_true_iff in Hok. rewrite Hok.
    replace (map fst (firstn i table) ++ [x])
      with (map fst (firstn (S i) table))
      by (rewrite (firstn_snoc _ _ Hr), map_app; reflexivity).
    replace (map snd (firstn i table) ++ [y])
      with (map snd (firstn (S i) table))
      by (rewrite (firstn_snoc _ _ Hr), map_app; reflexivity).
    rewrite IH; [now rewrite Nat.add_succ_r|].
    intros k Hk. apply Hrows. lia.
Qed.

Lemma readTable_done_inv (n i : nat) (table : list (float * float))
    (rets infs : list float) (read : list float * list float) :
  readTable n i table rets infs = Done read ->
  forall k, (i <= k < i + n)%nat ->
    exists r, nth_error table k = Some r /\ accepted r = true.
Proof.
  revert i rets infs. induction n as [|n IH]; intros i rets infs; cbn.
  - intros _ k Hk. lia.
  - destruct (nth_error table i) as [[x y]|] eqn:Hr; [|discriminate].
    destruct (PrimFloat.is_nan x || PrimFloat.is_nan y) eqn:Hnan;
      [discriminate|].
    intros Hread k Hk. destruct (Nat.eq_dec k i) as [->|Hne].
    + exists (x, y). split; [exact Hr|]. unfold accepted. cbn.
      now rewrite Hnan.
    + eapply IH; [exact Hread|lia].
Qed.

(** The first row that is missing or not accepted decides the error. *)
Lemma readTable_thrown (n i j : nat) (table : list (float * float))
    (rets infs : list float) :
  (i <= j < i + n)%nat ->
  (forall k, (i <= k < j)%nat ->
     exists r, nth_error table k = Some r /\ accepted r = true) ->
  readTable n i table rets infs
  = match nth_error table j with
    | None => Thrown TypeErrorThrown
    | Some r =>
        if accepted r
        then readTable (i + n - j) j table
               (rets ++ map fst (firstn (j - i) (skipn i table)))
               (infs ++ map snd (firstn (j - i) (skipn i table)))
        else Thrown (InvalidYear (2000 + Z.of_nat j))
    end.
Proof.
  revert i rets infs. induction n as [|n IH]; intros i rets infs Hj Hrows;
    [lia|].
  destruct (Nat.eq_dec j i) as [->|Hne].
  - replace (i + S n - i)%nat with (S n) by lia.
    rewrite Nat.sub_diag. cbn [firstn map]. rewrite !app_nil_r.
    destruct (nth_error table i) as [[x y]|] eqn:Hr; cbn; rewrite Hr;
      [|reflexivity].
    unfold accepted. cbn [fst snd].
    destruct (PrimFloat.is_nan x || PrimFloat.is_nan y); reflexivity.
  - cbn. destruct (Hrows i) as ([x y] & Hr & Hok); [lia|].
    rewrite Hr. unfold accepted in Hok. cbn [fst snd] in Hok.
    apply negb_true_iff in Hok. rewrite Hok.
    rewrite (IH (S i)); [|lia|intros k Hk; apply Hrows; lia].
    destruct (nth_error table j) as [r|]; [|reflexivity].
    destruct (accepted r); [|reflexivity].
    replace (S i + n - j)%nat with (i + S n - j)%nat by lia.
    assert (Hskip : skipn i table = (x, y) :: skipn (S i) table).
    { clear -Hr. revert i Hr. induction table as [|a l IHl];
        intros [|i] Hr; cbn in *; try discriminate.
      - now injection Hr as ->.
      - now apply IHl. }
    replace (j - i)%nat with (S (j - S i)) by lia.
    rewrite Hskip. cbn [firstn map fst snd]. now rewrite <- !app_assoc.
Qed.

(** X10.  The handler of [src/app.js] displays results exactly when the
    table holds a row for every year below the number of years and none
    of these rows reads as [NaN]; what it displays is then what
    [calculateSimulation] returns on the returns and the inflations of
    exactly these rows. *)
Theorem app_handler_displays (p : page)
    (results : list (yearData float)) :
  runSimulationHandler p = Displayed results <->
  readable (iterations (simulationYears p)) (table p) /\
  App.calculateSimulation
    {| App.initialAssets := initialAssets p;
       App.initialWithdrawalRate := initialWithdrawalRate p;
       App.simulationYears := bound (simulationYears p);
       App.annualReturns :=
         map fst (firstn (iterations (simulationYears p)) (table p));
       App.annualInflations :=
         map snd (firstn (iterations (simulationYears p)) (table p)) |}
  = Return results.
Proof.
  unfold runSimulationHandler. set (n := iterations (simulationYears p)).
  split.
  - destruct (readTable n 0 (table p) [] []) as [[rets infs]|e] eqn:Hread;
      [|discriminate].
    assert (Hrows : readable n (table p)).
    { intros k Hk. eapply readTable_done_inv; [exact Hread|lia]. }
    pose proof (@readTable_done n 0%nat (table p)) as Hdone.
    cbn [firstn map Nat.add] in Hdone. rewrite Hdone in Hread.
    2:{ intros k Hk. apply Hrows. lia. }
    injection Hread as <- <-.
    destruct (App.calculateSimulation _) as [out|]; [|discriminate].
    intros [= ->]. split; [exact Hrows|reflexivity].
  - intros [Hrows Hrun].
    pose proof (@readTable_done n 0%nat (table p)) as Hdone.
    cbn [firstn map Nat.add] in Hdone. rewrite Hdone.
    2:{ intros k Hk. apply Hrows. lia. }
    now rewrite Hrun.
Qed.

(** X11.  The first row that is missing or reads as [NaN] decides what
    the handler of [src/app.js] alerts: a [TypeError] for a missing row,
    the error naming the year [2000 + i] for a row [i] with a [NaN]; the
    engine is not run. *)
Theorem app_handler_alerts (p : page) (i : nat) :
  (i < iterations (simulationYears p))%nat ->
  readable i (table p) ->
  match nth_error (table p) i with
  | None => runSimulationHandler p = Alerted TypeErrorThrown
  | Some r =>
      accepted r = false ->
      runSimulationHandler p = Alerted (InvalidYear (2000 + Z.of_nat i))
  end.
Proof.
  intros Hi Hrows. unfold runSimulationHandler.
  rewrite (@readTable_thrown (iterations (simulationYears p)) 0%nat i);
    [|lia|intros k Hk; apply Hrows; lia].
  destruct (nth_error (table p) i) as [r|]; [|reflexivity].
  intros ->. reflexivity.
Qed.

End AppPageFacts.

(** ** The submit handler of [src/unnamed/part_000] *)

Module MixPageFacts.

Import MixPage.

Lemma rows_read_done (n i : nat) (table : list row) :
  (forall k, (i <= k < i + n)%nat ->
     exists r, nth_error table k = Some r /\ accepted r = true) ->
  readTable n i table (map datum (firstn i table))
  = Done (map datum (firstn (i + n) table)).
Proof.
  revert i. induction n as [|n IH]; intros i Hrows; cbn.
  - now rewrite Nat.add_0_r.
  - destruct (Hrows i) as (r & Hr & Hok); [lia|].
    rewrite Hr. unfold accepted in Hok.
    apply negb_true_iff in Hok. rewrite Hok.
    replace (map datum (firstn i table) ++ _)
      with (map datum (firstn (S i) table))
      by (rewrite (AppPageFacts.firstn_snoc _ _ Hr), map_app; reflexivity).
    rewrite IH; [now rewrite Nat.add_succ_r|].
    intros k Hk. apply Hrows. lia.
Qed.

Lemma rows_read_inv (n i : nat) (table : list row)
    (annualData read : list (MixMatch.AnnualDatum float)) :
  readTable n i table annualData = Done read ->
  forall k, (i <= k < i + n)%nat ->
    exists r, nth_error table k = Some r /\ accepted r = true.
Proof.
  revert i annualData. induction n as [|n IH]; intros i annualData; cbn.
  - intros _ k Hk. lia.
  - destruct (nth_error table i) as [r|] eqn:Hr; [|discriminate].
    destruct (PrimFloat.is_nan (retVal r) || PrimFloat.is_nan (infVal r))
      eqn:Hnan; [discriminate|].
    intros Hread k Hk. destruct (Nat.eq_dec k i) as [->|Hne].
    + exists r. split; [exact Hr|]. unfold accepted. now rewrite Hnan.
    + eapply IH; [exact Hread|lia].
Qed.

Lemma rows_read_thrown (n i j : nat) (table : list row)
    (annualData : list (MixMatch.AnnualDatum float)) :
  (i <= j < i + n)%nat ->
  (forall k, (i <= k < j)%nat ->
     exists r, nth_error table k = Some r /\ accepted r = true) ->
  match nth_error table j with
  | None => readTable n i table annualData = Thrown TypeErrorThrown
  | Some r =>
      accepted r = false ->
      readTable n i table annualData = Thrown (InvalidYear (year r))
  end.
Proof.
  revert i annualData. induction n as [|n IH]; intros i annualData Hj Hrows;
    [lia|].
  destruct (Nat.eq_dec j i) as [->|Hne].
  - cbn. destruct (nth_error table i) as [r|] eqn:Hr; [|reflexivity].
    unfold accepted. intros Hno. apply negb_false_iff in Hno.
    now rewrite Hno.
  - cbn. destruct (Hrows i) as (r & Hr & Hok); [lia|].
    rewrite Hr. unfold accepted in Hok.
    apply negb_true_iff in Hok. rewrite Hok.
    apply IH; [lia|]. intros k Hk. apply Hrows. lia.
Qed.

Lemma read_all (n : nat) (table : list row) :
  readable n table ->
  readTable n 0 table [] = Done (map datum (firstn n table)).
Proof.
  intros Hrows. apply (@rows_read_done n 0%nat table).
  intros k Hk. apply Hrows. lia.
Qed.

Lemma read_all_inv (n : nat) (table : list row)
    (read : list (MixMatch.AnnualDatum float)) :
  readTable n 0 table [] = Done read -> readable n table.
Proof.
  intros Hread k Hk. eapply rows_read_inv; [exact Hread|lia].
Qed.

(** An array of [simulationYears] elements is enough for the engine. *)
Lemma engine_returns (initialAssets initialWithdrawalRate : float)
    (simulationYears : parsedInt)
    (annualData : list (MixMatch.AnnualDatum float)) :
  (iterations simulationYears <= length annualData)%nat ->
  exists results,
    MixMatch.calculateSimulation
      {| MixMatch.initialAssets := initialAssets;
         MixMatch.initialWithdrawalRate := initialWithdrawalRate;
         MixMatch.simulationYears := bound simulationYears;
         MixMatch.annualData := annualData |}
    = Return results.
Proof.
  intros Hlen. unfold MixMatch.calculateSimulation.
  apply simulate_returns. cbn. intros k Hk.
  unfold MixMatch.annualData_at, item. cbn.
  destruct (nth_error annualData k) eqn:E; [cbn; eauto|].
  apply nth_error_None in E.
  destruct simulationYears; cbn in *; lia.
Qed.

(** X12.  The handler of [src/unnamed/part_000] displays results exactly
    when the number of years is not 0, the table holds a row for every
    year below it and none of these rows reads as [NaN].  It then
    displays what [calculateSimulation] returns on exactly these rows,
    one record per row: the [TypeError] of the engine on too short an
    array cannot occur. *)
Theorem mix_handler_displays (p : page) :
  (simulationYears p <> Integer 0 /\
   readable (iterations (simulationYears p)) (table p)
   <-> exists results, runSimulationHandler p = Displayed results) /\
  (forall results,
      runSimulationHandler p = Displayed results ->
      MixMatch.calculateSimulation
        {| MixMatch.initialAssets := initialAssets p;
           MixMatch.initialWithdrawalRate := initialWithdrawalRate p;
           MixMatch.simulationYears := bound (simulationYears p);
           MixMatch.annualData :=
             map datum
               (firstn (iterations (simulationYears p)) (table p)) |}
      = Return results /\
      length results = iterations (simulationYears p)).
Proof.
  set (n := iterations (simulationYears p)).
  assert (Hshown : forall results,
            runSimulationHandler p = Displayed results ->
            simulationYears p <> Integer 0 /\ readable n (table p) /\
            MixMatch.calculateSimulation
              {| MixMatch.initialAssets := initialAssets p;
                 MixMatch.initialWithdrawalRate := initialWithdrawalRate p;
                 MixMatch.simulationYears := bound (simulationYears p);
                 MixMatch.annualData := map datum (firstn n (table p)) |}
            = Return results).
  { intros results. unfold runSimulationHandler. fold n.
    destruct (readTable n 0 (table p) []) as [read|e] eqn:Hread.
    - pose proof (@read_all_inv _ _ _ Hread) as Hrows.
      rewrite (read_all Hrows) in Hread. injection Hread as <-.
      destruct (MixMatch.calculateSimulation _) as [out|] eqn:Hrun.
      + destruct (simulationYears p) as [|[| |]]; try discriminate;
          intros [= ->]; repeat split; try assumption; discriminate.
      + destruct (simulationYears p) as [|[| |]]; discriminate.
    - destruct (simulationYears p) as [|[| |]]; discriminate. }
  split; [split|].
  - intros [Hyears Hrows].
    destruct (engine_returns (initialAssets p) (initialWithdrawalRate p)
                (simulationYears p) (map datum (firstn n (table p))))
      as [results Hrun].
    { rewrite length_map, length_firstn. fold n.
      destruct (Nat.eq_dec n 0) as [Hn|Hn]; [lia|].
      destruct (Hrows (n - 1)%nat) as (r & Hr & _); [lia|].
      assert (n - 1 < length (table p))%nat; [|lia].
      apply nth_error_Some. congruence. }
    exists results. unfold runSimulationHandler. fold n.
    rewrite (read_all Hrows), Hrun.
    destruct (simulationYears p) as [|[| |]]; try reflexivity.
    now elim Hyears.
  - intros [results Hshow]. destruct (Hshown _ Hshow) as (H1 & H2 & _).
    split; assumption.
  - intros results Hshow. destruct (Hshown _ Hshow) as (_ & _ & Hrun).
    split; [exact Hrun|].
    pose proof (run_length Hrun) as Hlen. cbn in Hlen.
    rewrite Hlen. subst n. destruct (simulationYears p); reflexivity.
Qed.

(** X13.  What the handler of [src/unnamed/part_000] alerts: the error of
    having no data when the number of years is 0, whatever the table
    holds; otherwise the first row that is missing or reads as [NaN]
    decides, a [TypeError] for a missing row and the error naming the
    year in the row's first cell for a [NaN]. *)
Theorem mix_handler_alerts (p : page) (i : nat) :
  (simulationYears p = Integer 0 ->
   runSimulationHandler p = Alerted NoData) /\
  ((i < iterations (simulationYears p))%nat ->
   readable i (table p) ->
   match nth_error (table p) i with
   | None => runSimulationHandler p = Alerted TypeErrorThrown
   | Some r =>
       accepted r = false ->
       runSimulationHandler p = Alerted (InvalidYear (year r))
   end).
Proof.
  split.
  - unfold runSimulationHandler. now intros ->.
  - intros Hi Hrows.
    pose proof (@rows_read_thrown (iterations (simulationYears p)) 0%nat i
                  (table p) []) as Hthrown.
    destruct (nth_error (table p) i) as [r|].
    + intros Hno. unfold runSimulationHandler.
      rewrite Hthrown; [|lia|intros k Hk; apply Hrows; lia|exact Hno].
      destruct (simulationYears p) as [|[| |]]; try reflexivity.
      cbn in Hi. lia.
    + unfold runSimulationHandler.
      rewrite Hthrown; [|lia|intros k Hk; apply Hrows; lia].
      destruct (simulationYears p) as [|[| |]]; try reflexivity.
      cbn in Hi. lia.
Qed.

End MixPageFacts.

(** ** From the tables to the results *)

Section Reread.

(** What [parseFloat] reads from an input whose [value] was printed from
    a value: for a plain number, the number. *)
Variable reread : value float -> float.

Hypothesis reread_plain :
  forall x, plain x = true -> reread (number x) = x.

Lemma plain_not_nan (x : float) :
  plain x = true -> PrimFloat.is_nan x = false.
Proof.
  unfold plain, PrimFloat.is_finite. intros Hx.
  apply andb_true_iff in Hx. destruct Hx as [Hfin _].
  apply negb_true_iff, orb_false_iff in Hfin. apply Hfin.
Qed.

Lemma orDefault_in (defaults : list float) (i : nat) (fallback : float) :
  In (AppPage.orDefault defaults i fallback) (fallback :: defaults).
Proof.
  unfold AppPage.orDefault.
  destruct (nth_error defaults i) as [x|] eqn:Hx; [|now left].
  right. eapply nth_error_In, Hx.
Qed.

Lemma defaults_plain (i : nat) :
  plain (AppPage.orDefault AppPage.defaultReturns i 7) = true /\
  plain (AppPage.orDefault AppPage.defaultInflations i 2) = true.
Proof.
  assert (Hall : forall l,
             forallb plain l = true -> forall x, In x l -> plain x = true).
  { intros l Hl x Hx. rewrite forallb_forall in Hl. auto. }
  split; (eapply Hall; [|apply orDefault_in]); vm_compute; reflexivity.
Qed.

(** X14.  In [src/app.js], for a number of years within 1..100 the
    generated table has one row per year, holding the historical return
    and inflation for the first 25 years and 7 and 2 beyond, and
    submitting it as it is displays one record per year. *)
Theorem generated_table_submits (p : AppPage.page) (z : Z) :
  AppPage.simulationYears p = Integer z ->
  (1 <= z <= 100)%Z ->
  let generated :=
    {| AppPage.initialAssets := AppPage.initialAssets p;
       AppPage.initialWithdrawalRate := AppPage.initialWithdrawalRate p;
       AppPage.simulationYears := AppPage.simulationYears p;
       AppPage.table := AppPage.generateInputTable reread p |} in
  AppPage.table generated
  = map (fun i => (AppPage.orDefault AppPage.defaultReturns i 7,
                   AppPage.orDefault AppPage.defaultInflations i 2))
      (seq 0 (Z.to_nat z)) /\
  exists results,
    AppPage.runSimulationHandler generated = Displayed results /\
    length results = Z.to_nat z.
Proof.
  intros Hyears Hz generated.
  assert (Htable :
            AppPage.table generated
            = map (fun i => (AppPage.orDefault AppPage.defaultReturns i 7,
                             AppPage.orDefault AppPage.defaultInflations i 2))
                (seq 0 (Z.to_nat z))).
  { cbn. unfold AppPage.generateInputTable. rewrite Hyears.
    replace ((z <=? 0)%Z || (z >? 100)%Z) with false
      by (symmetry; apply orb_false_iff; split;
          [apply Z.leb_gt|rewrite Z.gtb_ltb; apply Z.ltb_ge]; lia).
    apply map_ext. intros i.
    destruct (defaults_plain i) as [Hr Hi].
    now rewrite !reread_plain. }
  split; [exact Htable|].
  assert (Hrows : AppPage.readable (Z.to_nat z) (AppPage.table generated)).
  { intros k Hk. rewrite Htable.
    rewrite nth_error_map, nth_error_seq.
    replace (k <? Z.to_nat z)%nat with true
      by (symmetry; apply Nat.ltb_lt; exact Hk).
    cbn. eexists. split; [reflexivity|].
    unfold AppPage.accepted. cbn [fst snd].
    destruct (defaults_plain k) as [Hr Hi].
    now rewrite (plain_not_nan _ Hr), (plain_not_nan _ Hi). }
  unfold AppPage.runSimulationHandler.
  change (AppPage.simulationYears generated) with (AppPage.simulationYears p).
  rewrite Hyears. cbn [iterations bound].
  pose proof (@AppPageFacts.readTable_done (Z.to_nat z) 0%nat
                (AppPage.table generated)) as Hdone.
  cbn [firstn map Nat.add] in Hdone. rewrite Hdone.
  2:{ intros k Hk. apply Hrows. lia. }
  destruct (simulate_returns (AppPage.initialAssets generated)
              (AppPage.initialWithdrawalRate generated)
              (App.annualData
                 {| App.initialAssets := AppPage.initialAssets generated;
                    App.initialWithdrawalRate :=
                      AppPage.initialWithdrawalRate generated;
                    App.simulationYears := z;
                    App.annualReturns :=
                      map fst (firstn (Z.to_nat z) (AppPage.table generated));
                    App.annualInflations :=
                      map snd (firstn (Z.to_nat z) (AppPage.table generated))
                 |})
              z) as [results Hrun].
  { intros k _. unfold App.annualData. eauto. }
  exists results. unfold App.calculateSimulation.
  cbn [App.initialAssets App.initialWithdrawalRate App.simulationYears].
  rewrite Hrun. split; [reflexivity|]. exact (run_length Hrun).
Qed.

End Reread.

Section OutOfRange.

Variable reread : value float -> float.

(** X15.  In [src/app.js], a number of years that is not within 1..100
    leaves the table as it was.  Submitting then displays no record when
    the number of years is unreadable, zero or negative, and alerts a
    [TypeError] when it is above 100, since the table, of at most 100
    accepted rows, has no row for the last years. *)
Theorem years_out_of_range (p : AppPage.page) :
  (forall z, AppPage.simulationYears p = Integer z ->
             (z <= 0)%Z \/ (100 < z)%Z) ->
  AppPage.generateInputTable reread p = AppPage.table p /\
  ((bound (AppPage.simulationYears p) <= 0)%Z ->
   AppPage.runSimulationHandler p = Displayed []) /\
  ((100 < bound (AppPage.simulationYears p))%Z ->
   (length (AppPage.table p) <= 100)%nat ->
   (forall r, In r (AppPage.table p) -> AppPage.accepted r = true) ->
   AppPage.runSimulationHandler p = Alerted TypeErrorThrown).
Proof.
  intros Hout. split; [|split].
  - unfold AppPage.generateInputTable.
    destruct (AppPage.simulationYears p) as [|z]; [reflexivity|].
    destruct (Hout z eq_refl) as [Hz|Hz].
    + replace (z <=? 0)%Z with true by (symmetry; apply Z.leb_le; lia).
      reflexivity.
    + replace (z >? 100)%Z with true
        by (symmetry; rewrite Z.gtb_ltb; apply Z.ltb_lt; lia).
      now rewrite orb_true_r.
  - intros Hle. unfold AppPage.runSimulationHandler.
    destruct (AppPage.simulationYears p) as [|[|z|z]]; cbn in Hle;
      try lia; reflexivity.
  - intros Hgt Hlen Hrows.
    assert (Hi : (length (AppPage.table p)
                  < iterations (AppPage.simulationYears p))%nat).
    { destruct (AppPage.simulationYears p); cbn in *; lia. }
    unfold AppPage.runSimulationHandler.
    rewrite (@AppPageFacts.readTable_thrown
               (iterations (AppPage.simulationYears p)) 0%nat
               (length (AppPage.table p))); [|lia|].
    + replace (nth_error (AppPage.table p) (length (AppPage.table p)))
        with (@None (float * float)); [reflexivity|].
      symmetry. now apply nth_error_None.
    + intros k Hk.
      destruct (nth_error (AppPage.table p) k) as [r|] eqn:Hr.
      * exists r. split; [reflexivity|].
        apply Hrows. eapply nth_error_In, Hr.
      * apply nth_error_None in Hr. lia.
Qed.

End OutOfRange.

(** ** From the loaded data sets to the results *)

Section Loaded.

Variable reread : value float -> float.

Hypothesis reread_plain :
  forall x, plain x = true -> reread (number x) = x.

(** A year below [10^21] in absolute value is printed into its cell in
    decimal digits, which [parseInt] reads back as the year. *)
Variable rereadYear : Z -> Z.

Hypothesis rereadYear_decimal :
  forall y, (Z.abs y < 10 ^ 21)%Z -> rereadYear y = y.

Variable investmentData : list (Datasets.InvestmentItem float).
Variable inflationData : list (Datasets.InflationItem float).

Hypothesis years_decimal :
  forall item, In item investmentData ->
    (Z.abs (Datasets.investment_year item) < 10 ^ 21)%Z.

Hypothesis returns_plain :
  forall item, In item investmentData ->
    plain (Datasets.investment_return item) = true.

Hypothesis inflations_plain :
  forall item, In item inflationData ->
    plain (Datasets.inflation_value item) = true.

Lemma lastInflation_plain (y : Z) :
  Datasets.inInflationData inflationData y = true ->
  exists x,
    Datasets.lastInflation inflationData y = number x /\ plain x = true.
Proof.
  unfold Datasets.inInflationData, Datasets.lastInflation. intros Hhas.
  destruct (find _ (rev inflationData)) as [last|] eqn:Hfind.
  - apply find_some in Hfind. destruct Hfind as [Hin _].
    apply in_rev in Hin. eauto.
  - apply existsb_exists in Hhas. destruct Hhas as (x & Hx & Hyear).
    apply in_rev in Hx. now rewrite (find_none _ _ Hfind x Hx) in Hyear.
Qed.

Lemma combined_plain (d : Datasets.CombinedItem float) :
  In d (Datasets.combineData investmentData inflationData) ->
  plain (Datasets.return_ d) = true /\
  exists x, Datasets.inflation d = number x /\ plain x = true.
Proof.
  rewrite DatasetsFacts.combineData_filter, in_map_iff.
  intros (item & <- & Hin). apply filter_In in Hin.
  destruct Hin as [Hin Hhas]. cbn. split; [now apply returns_plain|].
  now apply lastInflation_plain.
Qed.

Lemma combined_year (d : Datasets.CombinedItem float) :
  In d (Datasets.combineData investmentData inflationData) ->
  (Z.abs (Datasets.year d) < 10 ^ 21)%Z.
Proof.
  rewrite DatasetsFacts.combineData_filter, in_map_iff.
  intros (item & <- & Hin). apply filter_In in Hin.
  destruct Hin as [Hin _]. cbn [Datasets.year]. now apply years_decimal.
Qed.

(** The row [generateInputTable] makes of a combined element of plain
    numbers and the handler reads. *)
Lemma generated_rows :
  MixPage.generateInputTable rereadYear reread
    (Datasets.combineData investmentData inflationData)
  = map (fun d => {| MixPage.year := Datasets.year d;
                     MixPage.retVal := Datasets.return_ d;
                     MixPage.infVal := ToNumber (Datasets.inflation d) |})
      (Datasets.combineData investmentData inflationData).
Proof.
  unfold MixPage.generateInputTable. apply map_ext_in. intros d Hd.
  destruct (combined_plain _ Hd) as (Hret & x & Hinf & Hx).
  rewrite Hinf. cbn.
  now rewrite !reread_plain, (rereadYear_decimal _ (combined_year _ Hd)).
Qed.

(** X16.  In [src/unnamed/part_000], once two data sets of plain numbers
    are loaded, whose years are below [10^21] in absolute value (years
    that are printed into the table in decimal digits and read back as
    themselves), submitting the form as [updateForm] filled it alerts
    the error of having no data when the two sets share no year, and
    otherwise displays one record per combined element, which carries
    that element's year and return and, after the first record, its
    inflation. *)
Theorem loaded_data_submits (p : MixPage.page) :
  let combinedData := Datasets.combineData investmentData inflationData in
  let loaded :=
    MixPage.updateForm rereadYear reread p investmentData inflationData in
  (combinedData = [] ->
   MixPage.runSimulationHandler loaded = Alerted NoData) /\
  (combinedData <> [] ->
   exists results,
     MixPage.runSimulationHandler loaded = Displayed results /\
     length results = length combinedData /\
     forall i r d,
       nth_error results i = Some r ->
       nth_error combinedData i = Some d ->
       year r = Datasets.year d /\
       returnRate r = number (Datasets.return_ d) /\
       inflation r
       = if Nat.eqb i 0 then number 0%float else Datasets.inflation d).
Proof.
  intros combinedData loaded. split.
  - intros Hnil. unfold loaded, MixPage.updateForm, MixPage.runSimulationHandler.
    cbn. fold combinedData. now rewrite Hnil.
  - intros Hsome.
    set (n := length combinedData).
    assert (Hn : (0 < n)%nat).
    { subst n. destruct combinedData; [congruence|cbn; lia]. }
    assert (Hyears : MixPage.simulationYears loaded = Integer (Z.of_nat n))
      by reflexivity.
    assert (Hiter : iterations (MixPage.simulationYears loaded) = n).
    { rewrite Hyears. cbn. apply Nat2Z.id. }
    set (rowOf := fun d => {| MixPage.year := Datasets.year d;
                     MixPage.retVal := Datasets.return_ d;
                     MixPage.infVal := ToNumber (Datasets.inflation d) |}).
    assert (Htable : MixPage.table loaded = map rowOf combinedData)
      by apply generated_rows.
    assert (Hrows : MixPage.readable n (MixPage.table loaded)).
    { intros k Hk. rewrite Htable, nth_error_map.
      destruct (nth_error combinedData k) as [d|] eqn:Hd.
      2:{ apply nth_error_None in Hd. fold n in Hd. lia. }
      cbn. eexists. split; [reflexivity|].
      destruct (combined_plain d) as (Hret & x & Hinf & Hx).
      { eapply nth_error_In, Hd. }
      unfold MixPage.accepted, rowOf. cbn. rewrite Hinf. cbn.
      now rewrite (plain_not_nan _ Hret), (plain_not_nan _ Hx). }
    destruct (MixPageFacts.engine_returns
                (MixPage.initialAssets loaded)
                (MixPage.initialWithdrawalRate loaded)
                (MixPage.simulationYears loaded)
                (map MixPage.datum (firstn n (MixPage.table loaded))))
      as [results Hrun].
    { rewrite Hiter, length_map, length_firstn, Htable, length_map.
      fold n. lia. }
    exists results. split; [|split].
    + unfold MixPage.runSimulationHandler. rewrite Hiter.
      rewrite (MixPageFacts.read_all Hrows), Hrun, Hyears.
      destruct (Z.of_nat n) eqn:Hz; try reflexivity. lia.
    + pose proof (run_length Hrun) as Hlen. cbn in Hlen.
      rewrite Hlen. apply Nat2Z.id.
    + intros i r d Hr Hd.
      destruct (run_data Hrun Hr) as (data & Hdata & Hy & Hret & Hinf).
      unfold MixMatch.annualData_at, item in Hdata.
      cbn [MixMatch.annualData] in Hdata.
      rewrite firstn_all2 in Hdata
        by (rewrite Htable, length_map; fold n; lia).
      rewrite Htable, map_map, nth_error_map, Hd in Hdata. cbn in Hdata.
      injection Hdata as <-. cbn in Hy, Hret, Hinf.
      repeat split; try assumption.
      rewrite Hinf. destruct (Nat.eqb i 0); [reflexivity|].
      destruct (combined_plain d) as (_ & x & Hx & _).
      { eapply nth_error_In, Hd. }
      now rewrite Hx.
Qed.

End Loaded.

(** ** What the results table shows *)

Section Shown.

(** X17.  The inflation cell of the results table.  In [src/app.js] it
    shows ['N/A'] for the first record and for no other.  In
    [src/unnamed/part_000] it shows ['N/A'] for the first record and for
    every record whose year has an inflation of zero, which is therefore
    never shown as [0.00%]. *)
Theorem inflation_cell_shown :
  (forall (p : App.params float) results i r,
      App.calculateSimulation p = Return results ->
      nth_error results i = Some r ->
      (Display.inflationCell_app r = Display.NA <-> i = 0%nat)) /\
  (forall (p : MixMatch.params float) results i r d,
      MixMatch.calculateSimulation p = Return results ->
      nth_error results i = Some r ->
      nth_error (MixMatch.annualData p) i = Some d ->
      (Display.inflationCell_mix r = Display.NA <->
       i = 0%nat \/ PrimFloat.eqb (MixMatch.inflation d) 0 = true)).
Proof.
  split.
  - intros p results i r Hrun Hr.
    destruct (run_data Hrun Hr) as (data & Hdata & Hyear & _).
    unfold App.annualData in Hdata. injection Hdata as <-. cbn in Hyear.
    unfold Display.inflationCell_app. rewrite Hyear.
    destruct i as [|i]; cbn.
    + now split.
    + split; [discriminate|lia].
  - intros p results i r d Hrun Hr Hd.
    destruct (run_data Hrun Hr) as (data & Hdata & _ & _ & Hinf).
    unfold MixMatch.annualData_at, item in Hdata. rewrite Hd in Hdata.
    cbn in Hdata. injection Hdata as <-. cbn in Hinf.
    unfold Display.inflationCell_mix, Display.formatPercent. rewrite Hinf.
    destruct i as [|i]; cbn.
    + split; auto.
    + destruct (PrimFloat.eqb (MixMatch.inflation d) 0).
      * split; auto.
      * split; [discriminate|]. intros [Hi|Hz]; discriminate.
Qed.

(** X18.  In both files the planned-rate cell of the first record shows
    [0.00%] whatever the input: the first record has no planned rate,
    and [formatPercent] prints an absent rate as zero. *)
Theorem first_planned_rate_shown :
  (forall (p : App.params float) results r,
      App.calculateSimulation p = Return results ->
      nth_error results 0 = Some r ->
      Display.plannedRateCell r = Display.Percent 0) /\
  (forall (p : MixMatch.params float) results r,
      MixMatch.calculateSimulation p = Return results ->
      nth_error results 0 = Some r ->
      Display.plannedRateCell r = Display.Percent 0).
Proof.
  split; intros p results r Hrun Hr;
    destruct (run_first Hrun Hr) as (data & _ & ->); reflexivity.
Qed.

End Shown.

(** ** Nothing to withdraw from *)

Module ZeroFacts.

Local Open Scope float_scope.

Lemma zeroOrNaN_spec (x : float) :
  zeroOrNaN x = true <->
  (exists s, Prim2SF x = S754_zero s) \/ Prim2SF x = S754_nan.
Proof.
  unfold zeroOrNaN, PrimFloat.is_zero, PrimFloat.is_nan.
  rewrite !eqb_spec. change (Prim2SF PrimFloat.zero) with (S754_zero false).
  destruct (Prim2SF x) as [s|s| |s m e]; unfold SFeqb; cbn [SFcompare].
  - split; [eauto|reflexivity].
  - destruct s; cbn; split; try discriminate;
      intros [[s Hs]|Hs]; discriminate.
  - split; [auto|reflexivity].
  - rewrite Z.compare_refl, Pos.compare_cont_refl.
    destruct s; cbn; split; try discriminate;
      intros [[s Hs]|Hs]; discriminate.
Qed.

Lemma mul_zeroOrNaN (x y : float) :
  zeroOrNaN x = true -> zeroOrNaN (x * y) = true.
Proof.
  rewrite !zeroOrNaN_spec, mul_spec. unfold SF64mul.
  intros [[s Hx]|Hx]; rewrite Hx; destruct (Prim2SF y); cbn; eauto.
Qed.

Lemma sub_zeroOrNaN (x y : float) :
  zeroOrNaN x = true -> zeroOrNaN y = true -> zeroOrNaN (x - y) = true.
Proof.
  rewrite !zeroOrNaN_spec, sub_spec. unfold SF64sub.
  intros [[s Hx]|Hx] [[t Hy]|Hy]; rewrite Hx, Hy; cbn; eauto.
  destruct s, t; eauto.
Qed.

Lemma div_zeroOrNaN (x y : float) :
  zeroOrNaN x = true -> zeroOrNaN y = true -> x / y = PrimFloat.nan.
Proof.
  rewrite !zeroOrNaN_spec. intros Hx Hy.
  apply NaNFacts.Prim2SF_nan. rewrite div_spec. unfold SF64div.
  destruct Hx as [[s Hx]|Hx], Hy as [[t Hy]|Hy]; rewrite Hx, Hy; reflexivity.
Qed.

End ZeroFacts.

Section ZeroAssets.

Local Open Scope js_scope.

Variables initialAssets initialWithdrawalRate : float.
Variable annualData : nat -> outcome (annual float).
Variable simulationYears : Z.
Variable simulationData : list (yearData float).

Hypothesis run :
  simulate initialAssets initialWithdrawalRate annualData simulationYears
  = Return simulationData.

Lemma finalize_nothing (data : annual float) (startWorth : float)
    (inflation : value float) (plannedWithdrawal : float)
    (plannedRate : value float) (rule : Rule) (actualWithdrawal : float) :
  zeroOrNaN startWorth = true ->
  zeroOrNaN actualWithdrawal = true ->
  let r := finalize data startWorth inflation plannedWithdrawal plannedRate
             rule actualWithdrawal in
  actualRate r = PrimFloat.nan /\ zeroOrNaN (endWorth r) = true.
Proof.
  intros Hs Hw. unfold finalize. cbn [actualRate endWorth]. split.
  - cbn [div mul Number_double].
    rewrite (ZeroFacts.div_zeroOrNaN _ _ Hw Hs). apply NaNFacts.mul_nan_l.
  - apply ZeroFacts.mul_zeroOrNaN. now apply ZeroFacts.sub_zeroOrNaN.
Qed.

Lemma laterYear_nothing (data : annual float) (prev : yearData float) :
  zeroOrNaN (endWorth prev) = true ->
  zeroOrNaN (actualWithdrawal prev) = true ->
  let r := laterYear initialWithdrawalRate data prev (actualWithdrawal prev) in
  rule r = Inflation /\
  plannedRate r = number PrimFloat.nan /\
  zeroOrNaN (actualWithdrawal r) = true /\
  actualRate r = PrimFloat.nan /\
  zeroOrNaN (endWorth r) = true.
Proof.
  intros Hs Hw.
  assert (Hplanned :
            zeroOrNaN (plannedWithdrawalWithInflation (actualWithdrawal prev)
                         (annual_inflation data)) = true)
    by now apply ZeroFacts.mul_zeroOrNaN.
  assert (Hstep :
            inflationStep initialWithdrawalRate (returnRate prev)
              (actualWithdrawal prev) (annual_inflation data) (endWorth prev)
            = (plannedWithdrawalWithInflation (actualWithdrawal prev)
                 (annual_inflation data), Inflation)).
  { unfold inflationStep, inflationFrozen, plannedRateWithInflation, gt.
    cbn [div mul lt Number_double].
    rewrite (ZeroFacts.div_zeroOrNaN _ _ Hplanned Hs), NaNFacts.mul_nan_l,
      DoubleFacts.ltb_nan_r, andb_false_r. reflexivity. }
  unfold laterYear. rewrite Hstep. cbn [fst snd].
  assert (Hrate :
            (plannedWithdrawalWithInflation (actualWithdrawal prev)
               (annual_inflation data) / endWorth prev) * lit 100
            = PrimFloat.nan).
  { cbn [div mul Number_double].
    rewrite (ZeroFacts.div_zeroOrNaN _ _ Hplanned Hs).
    apply NaNFacts.mul_nan_l. }
  rewrite Hrate. unfold guardrails, gt. cbn [lt Number_double].
  rewrite DoubleFacts.ltb_nan_r, NaNFacts.ltb_nan_l. cbn [fst snd].
  destruct (finalize_nothing data (endWorth prev) (annual_inflation data)
              (plannedWithdrawalWithInflation (actualWithdrawal prev)
                 (annual_inflation data))
              (number PrimFloat.nan) Inflation
              (plannedWithdrawalWithInflation (actualWithdrawal prev)
                 (annual_inflation data)) Hs Hplanned) as [Hrate' Hend].
  repeat split; assumption.
Qed.

(** X19.  On doubles, initial assets of zero leave nothing to decide:
    whatever the rate, the returns and the inflations, every record
    starts and ends on a zero or on [NaN], withdraws a zero or [NaN], and
    has [NaN] for its actual rate; after the first, every record has
    [NaN] for its planned rate and is tagged [Inflation], no freeze and
    no guardrail ever applying. *)
Theorem zero_assets (i : nat) (r : yearData float) :
  PrimFloat.is_zero initialAssets = true ->
  nth_error simulationData i = Some r ->
  zeroOrNaN (startWorth r) = true /\
  zeroOrNaN (actualWithdrawal r) = true /\
  zeroOrNaN (endWorth r) = true /\
  actualRate r = PrimFloat.nan /\
  rule r = (if Nat.eqb i 0 then Initial else Inflation) /\
  plannedRate r
  = (if Nat.eqb i 0 then undefined else number PrimFloat.nan).
Proof.
  intros Hzero.
  assert (Hassets : zeroOrNaN initialAssets = true).
  { unfold zeroOrNaN. now rewrite Hzero. }
  revert r. induction i as [|i IH]; intros r Hr.
  - destruct (run_first run Hr) as (data & _ & ->).
    assert (Hw : zeroOrNaN (initialAssets * (initialWithdrawalRate / lit 100))
                 = true)
      by now apply ZeroFacts.mul_zeroOrNaN.
    destruct (finalize_nothing data initialAssets (number (lit 0))
                (initialAssets * (initialWithdrawalRate / lit 100))
                undefined Initial
                (initialAssets * (initialWithdrawalRate / lit 100))
                Hassets Hw) as [Hrate Hend].
    repeat split; assumption.
  - destruct (run_previous Hr) as [prev Hprev].
    destruct (IH prev Hprev) as (_ & Hw & Hend & _).
    destruct (run_later run Hprev Hr) as (data & _ & ->).
    destruct (laterYear_nothing data prev Hend Hw)
      as (Hrule & Hplanned & Hactual & Hrate & Hend').
    repeat split; assumption.
Qed.

End ZeroAssets.

(** ** From one withdrawal to the next *)

Module ChangeFacts.

Import DoubleFacts Rounding RoundingFacts DoubleRunFacts.
Local Open Scope js_scope.

(** [Math.min] of a number that is not negative and of 6 is not
    negative. *)
Lemma inflationToApply_nonneg (v : value float) :
  (ToNumber v <? lit 0) = false -> (inflationToApply v <? lit 0) = false.
Proof.
  intros Hv. unfold inflationToApply.
  change (Math_min (ToNumber v) (lit 6.0))
    with (Double.Math_min (ToNumber v) 6).
  unfold Double.Math_min.
  destruct (PrimFloat.is_nan (ToNumber v) || PrimFloat.is_nan 6);
    [reflexivity|].
  destruct (PrimFloat.ltb (ToNumber v) 6); [exact Hv|].
  destruct (PrimFloat.ltb 6 (ToNumber v)); [reflexivity|].
  destruct (PrimFloat.get_sign (ToNumber v)); [exact Hv|reflexivity].
Qed.

(** The factor of an inflation that is not negative is not below 1. *)
Lemma factor_ge_one (v : value float) :
  (ToNumber v <? lit 0) = false ->
  (lit 1 + inflationToApply v / lit 100 <? lit 1) = false.
Proof.
  intros Hv.
  change (lit 1 + inflationToApply v / lit 100 <? lit 1)
    with (lit 1 + inflationToApply v / lit 100
            <? lit 1 + (lit 0 / lit 100 : float)).
  apply (add_mono (lit 1)); [reflexivity|].
  apply (@div_mono _ _ (lit 100) 7036874417766400 (-46)); [reflexivity|].
  now apply inflationToApply_nonneg.
Qed.

(** A withdrawal [P] that is not above [u], times 0.9, 1.1 or as it is,
    is not above [u * 1.1]. *)
Lemma raised_le (u P c : float) (s : bool) (m : positive) (e : Z) :
  Prim2SF c = S754_finite s m e ->
  (c <? lit 0) = false ->
  (lit 1.1 <? c) = false ->
  (u <? lit 0) = false ->
  (u <? P) = false ->
  (u * lit 1.1 <? P * c) = false.
Proof.
  intros Hc Hc0 Hc1 Hu HuP. apply ltb_false_intro. intros NT NA.
  destruct (mul_nan_inv _ _ NT) as [Nu _].
  pose proof (mul_not_nan u c s m e Hc Nu) as Nuc.
  eapply Rle_trans.
  - exact (ltb_false_elim _ _ (mul_mono_r c P u Hc0 HuP) Nuc NA).
  - exact (ltb_false_elim _ _ (mul_mono u c (lit 1.1) Hu Hc1) NT Nuc).
Qed.

Lemma unraised_le (u P : float) :
  (u <? lit 0) = false ->
  (u <? P) = false ->
  (u * lit 1.1 <? P) = false.
Proof.
  intros Hu HuP. apply ltb_false_intro. intros NT NP.
  destruct (mul_nan_inv _ _ NT) as [Nu _].
  eapply Rle_trans.
  - exact (ltb_false_elim _ _ HuP Nu NP).
  - exact (ltb_false_elim _ _ (mul_grow u (lit 1.1) Hu eq_refl) NT Nu).
Qed.

(** A withdrawal [P] that is not below [l], times 0.9, 1.1 or as it is,
    is not below [l * 0.9]. *)
Lemma lowered_le (l P c : float) (s : bool) (m : positive) (e : Z) :
  Prim2SF c = S754_finite s m e ->
  (c <? lit 0) = false ->
  (c <? lit 0.9) = false ->
  (l <? lit 0) = false ->
  (P <? l) = false ->
  (P * c <? l * lit 0.9) = false.
Proof.
  intros Hc Hc0 Hc1 Hl HlP. apply ltb_false_intro. intros NA NT.
  destruct (mul_nan_inv _ _ NT) as [Nl _].
  pose proof (mul_not_nan l c s m e Hc Nl) as Nlc.
  eapply Rle_trans.
  - exact (ltb_false_elim _ _ (mul_mono l (lit 0.9) c Hl Hc1) Nlc NT).
  - exact (ltb_false_elim _ _ (mul_mono_r c l P Hc0 HlP) NA Nlc).
Qed.

Lemma unlowered_le (l P : float) :
  (l <? lit 0) = false ->
  (P <? l) = false ->
  (P <? l * lit 0.9) = false.
Proof.
  intros Hl HlP. apply ltb_false_intro. intros NP NT.
  destruct (mul_nan_inv _ _ NT) as [Nl _].
  eapply Rle_trans.
  - exact (ltb_false_elim _ _ (mul_shrink l (lit 0.9) Hl eq_refl) Nl NT).
  - exact (ltb_false_elim _ _ HlP NP Nl).
Qed.

End ChangeFacts.

Section DoubleChange.

Import DoubleFacts DoubleRunFacts ChangeFacts.
Local Open Scope js_scope.

Variables initialAssets initialWithdrawalRate : float.
Variable annualData : nat -> outcome (annual float).
Variable simulationYears : Z.
Variable simulationData : list (yearData float).

Hypothesis run :
  simulate initialAssets initialWithdrawalRate annualData simulationYears
  = Return simulationData.

(** X20.  On doubles, the inflation step and the guardrails together
    never raise a withdrawal that is not negative above its product by
    the factor [1 + 6/100] of the cap and then by the 1.1 of a prosperity
    raise, and in a year whose inflation is not negative they never
    lower it below its product by 0.9. *)
Theorem withdrawal_change_bounded (i : nat) (prev r : yearData float) :
  nth_error simulationData i = Some prev ->
  nth_error simulationData (S i) = Some r ->
  (actualWithdrawal prev <? lit 0) = false ->
  (actualWithdrawal prev * (lit 1 + lit 6.0 / lit 100) * lit 1.1
     <? actualWithdrawal r) = false /\
  ((ToNumber (inflation r) <? lit 0) = false ->
   (actualWithdrawal r <? actualWithdrawal prev * lit 0.9) = false).
Proof.
  intros Hprev Hr Hlast.
  destruct (run_later run Hprev Hr) as (data & _ & ->).
  unfold laterYear, finalize. cbn [actualWithdrawal inflation].
  set (l := actualWithdrawal prev) in *.
  set (planned := inflationStep _ _ _ _ _).
  assert (Hup : (l * (lit 1 + lit 6.0 / lit 100) <? fst planned) = false).
  { subst planned. unfold inflationStep.
    destruct (inflationFrozen _ _ _ _ _); cbn [fst].
    - apply RoundingFacts.mul_grow; [exact Hlast|reflexivity].
    - apply RoundingFacts.mul_mono; [exact Hlast|apply factor_le_double]. }
  assert (Hlow : (ToNumber (annual_inflation data) <? lit 0) = false ->
                 (fst planned <? l) = false).
  { intros Hinf. subst planned. unfold inflationStep.
    destruct (inflationFrozen _ _ _ _ _); cbn [fst].
    - apply ltb_irrefl.
    - apply RoundingFacts.mul_grow; [exact Hlast|now apply factor_ge_one]. }
  pose proof (RoundingFacts.mul_nonneg l (lit 1 + lit 6.0 / lit 100)
                Hlast eq_refl) as Hcap.
  unfold guardrails.
  destruct (_ >? lowerGuardrail _); cbn [snd];
    [|destruct (_ <? upperGuardrail _); cbn [snd]].
  - split.
    + now apply (@raised_le _ _ (lit 0.9) false 8106479329266893 (-53)).
    + intros Hinf.
      apply (@lowered_le _ _ (lit 0.9) false 8106479329266893 (-53));
        auto.
  - split.
    + now apply (@raised_le _ _ (lit 1.1) false 4953959590107546 (-52)).
    + intros Hinf.
      apply (@lowered_le _ _ (lit 1.1) false 4953959590107546 (-52));
        auto.
  - split.
    + now apply unraised_le.
    + intros Hinf. apply unlowered_le; auto.
Qed.

End DoubleChange.


(** ** The properties at work *)

Section AtWork.

Import Scenario Examples.
Local Open Scope js_scope.

Ltac computed := vm_compute; reflexivity.


(** The second record of Scenario B is not tagged [Initial]. *)
Lemma initial_rule_only_first_witness :
  exists r,
    nth_error freeze_records 1 = Some r /\
    (rule r = Initial <-> 1%nat = 0%nat).
Proof.
  eexists. split; [reflexivity|].
  pose proof (@initial_rule_only_first float _
                (App.initialAssets freeze)
                (App.initialWithdrawalRate freeze)
                (App.annualData freeze)
                (App.simulationYears freeze)
                freeze_records) as W.
  specialize (W ltac:(computed) 1%nat _ eq_refl). exact W.
Defined.

(** The third record of the three years of [src/unnamed/part_000]. *)
Lemma records_follow_input_witness :
  exists r d,
    nth_error mix_records 2 = Some r /\
    nth_error (MixMatch.annualData mix) 2 = Some d /\
    year r = MixMatch.year d /\
    returnRate r = number (MixMatch.return_ d) /\
    inflation r = number (MixMatch.inflation d).
Proof.
  eexists.
  destruct (@records_follow_input float _) as [_ W].
  destruct (W mix mix_records 2%nat _ ltac:(computed) eq_refl)
    as (d & Hd & Hyear & Hret & Hinf).
  exists d. split; [reflexivity|]. split; [exact Hd|].
  split; [exact Hyear|]. split; [exact Hret|exact Hinf].
Defined.

(** The three years of [src/unnamed/part_000], and the same returns and
    inflations given to [src/app.js]. *)
Lemma two_files_agree_witness :
  exists simulationData simulationData',
    MixMatch.calculateSimulation mix = Return simulationData /\
    App.calculateSimulation (Sides.arrays mix) = Return simulationData' /\
    map Sides.unlabelled simulationData
    = map Sides.unlabelled simulationData'.
Proof.
  apply (@two_files_agree float _ mix). vm_compute. lia.
Defined.

(** Assets that are not a number: the third record. *)
Lemma lost_worth_witness :
  exists lost0 r,
    nth_error lost_records 0 = Some lost0 /\
    nth_error lost_records 2 = Some r /\
    endWorth r = PrimFloat.nan /\
    rule r = Inflation /\
    actualRate r = PrimFloat.nan.
Proof.
  eexists. eexists. split; [reflexivity|]. split; [reflexivity|].
  pose proof (@lost_worth
                (App.initialAssets lost)
                (App.initialWithdrawalRate lost)
                (App.annualData lost)
                (App.simulationYears lost)
                lost_records ltac:(computed) 0%nat 2%nat _ _
                eq_refl eq_refl ltac:(lia) eq_refl) as W.
  destruct W as (_ & Hend & Hrule & _ & Hrate & _).
  split; [exact Hend|]. split; [exact Hrule|exact Hrate].
Defined.

(** Two years asked for and one row: the second row is missing. *)
Lemma app_handler_alerts_witness :
  AppPage.runSimulationHandler short_page = Alerted TypeErrorThrown.
Proof.
  pose proof (@AppPageFacts.app_handler_alerts short_page 1%nat) as W.
  apply W.
  - vm_compute. lia.
  - intros k Hk. assert (k = 0%nat) as -> by lia.
    eexists. split; reflexivity.
Defined.

(** Two rows as loaded: two records are displayed. *)
Lemma mix_handler_displays_witness :
  exists results,
    MixPage.runSimulationHandler mix_page = Displayed results /\
    length results = 2%nat.
Proof.
  destruct (@MixPageFacts.mix_handler_displays mix_page) as [Hiff Hshown].
  destruct Hiff as [Hshow _].
  destruct Hshow as [results Hresults].
  - split; [discriminate|].
    intros k Hk.
    assert (Hcases : k = 0%nat \/ k = 1%nat) by (cbn in Hk; lia).
    destruct Hcases as [-> | ->]; eexists; split; reflexivity.
  - exists results. split; [exact Hresults|].
    apply (Hshown results Hresults).
Defined.

(** An empty cell in the row of 1991, and a page with no data. *)
Lemma mix_handler_alerts_witness :
  MixPage.runSimulationHandler mix_empty_cell_page
  = Alerted (InvalidYear 1991).
Proof.
  destruct (@MixPageFacts.mix_handler_alerts mix_empty_cell_page 1%nat)
    as [_ W].
  apply W.
  - vm_compute. lia.
  - intros k Hk. assert (k = 0%nat) as -> by lia.
    eexists. split; reflexivity.
  - reflexivity.
Defined.

Lemma numberInput_plain (x : float) :
  plain x = true -> numberInput (number x) = x.
Proof.
  intros Hx. unfold numberInput. now rewrite Hx.
Qed.

(** Thirty years: the 25 historical rows and five rows of 7 and 2. *)
Lemma generated_table_submits_witness :
  exists results,
    AppPage.runSimulationHandler
      {| AppPage.initialAssets := AppPage.initialAssets thirty_page;
         AppPage.initialWithdrawalRate :=
           AppPage.initialWithdrawalRate thirty_page;
         AppPage.simulationYears := AppPage.simulationYears thirty_page;
         AppPage.table := AppPage.generateInputTable numberInput thirty_page
      |}
    = Displayed results /\
    length results = 30%nat.
Proof.
  destruct (@generated_table_submits numberInput numberInput_plain
              thirty_page 30 eq_refl ltac:(lia)) as [_ W].
  exact W.
Defined.

(** 150 years: no table is generated and the first row is missing. *)
Lemma years_out_of_range_witness :
  AppPage.generateInputTable numberInput beyond_page = [] /\
  AppPage.runSimulationHandler beyond_page = Alerted TypeErrorThrown.
Proof.
  destruct (@years_out_of_range numberInput beyond_page) as (Hkept & _ & W).
  - intros z [= <-]. right. lia.
  - split; [exact Hkept|]. apply W.
    + vm_compute. reflexivity.
    + cbn. lia.
    + intros r [].
Defined.

Lemma investments_plain (item : Datasets.InvestmentItem float) :
  In item investments -> plain (Datasets.investment_return item) = true.
Proof.
  intros Hin.
  assert (Hall : forallb (fun item => plain (Datasets.investment_return item))
                   investments = true) by computed.
  rewrite forallb_forall in Hall. now apply Hall.
Qed.

Lemma inflations_plain (item : Datasets.InflationItem float) :
  In item inflations -> plain (Datasets.inflation_value item) = true.
Proof.
  intros Hin.
  assert (Hall : forallb (fun item => plain (Datasets.inflation_value item))
                   inflations = true) by computed.
  rewrite forallb_forall in Hall. now apply Hall.
Qed.

Lemma yearCell_decimal (y : Z) :
  (Z.abs y < 10 ^ 21)%Z -> yearCell y = y.
Proof.
  intros Hy. unfold yearCell. apply Z.ltb_lt in Hy. now rewrite Hy.
Qed.

Lemma investments_decimal (item : Datasets.InvestmentItem float) :
  In item investments ->
  (Z.abs (Datasets.investment_year item) < 10 ^ 21)%Z.
Proof.
  intros Hin.
  assert (Hall : forallb
                   (fun item =>
                      (Z.abs (Datasets.investment_year item) <? 10 ^ 21)%Z)
                   investments = true) by computed.
  rewrite forallb_forall in Hall. apply Z.ltb_lt. now apply Hall.
Qed.

(** The two data sets share 1990 and 1991: two records are displayed,
    for the years 1990 and 1991. *)
Lemma loaded_data_submits_witness :
  exists r0 r1,
    MixPage.runSimulationHandler
      (MixPage.updateForm yearCell numberInput mix_blank_page
         investments inflations)
    = Displayed [r0; r1] /\
    year r0 = 1990%Z /\
    year r1 = 1991%Z.
Proof.
  destruct (@loaded_data_submits numberInput numberInput_plain
              yearCell yearCell_decimal
              investments inflations investments_decimal
              investments_plain inflations_plain
              mix_blank_page) as [_ W].
  destruct W as (results & Hshown & Hlen & Hrecords).
  - vm_compute. discriminate.
  - destruct results as [|r0 [|r1 [|r2 results]]]; try discriminate.
    exists r0, r1. split; [exact Hshown|].
    split.
    + exact (proj1 (Hrecords 0%nat r0 _ eq_refl eq_refl)).
    + exact (proj1 (Hrecords 1%nat r1 _ eq_refl eq_refl)).
Defined.

(** The second year of [src/unnamed/part_000] has an inflation of zero
    and shows ['N/A']. *)
Lemma inflation_cell_shown_witness :
  exists r,
    nth_error mix_records 1 = Some r /\
    Display.inflationCell_mix r = Display.NA.
Proof.
  eexists. split; [reflexivity|].
  destruct inflation_cell_shown as [_ W].
  apply (W mix mix_records 1%nat _ _ ltac:(computed) eq_refl eq_refl).
  right. reflexivity.
Defined.

Lemma first_planned_rate_shown_witness :
  exists r,
    nth_error freeze_records 0 = Some r /\
    Display.plannedRateCell r = Display.Percent 0.
Proof.
  eexists. split; [reflexivity|].
  destruct first_planned_rate_shown as [W _].
  apply (W freeze freeze_records _ ltac:(computed) eq_refl).
Defined.

(** No assets: the third record. *)
Lemma zero_assets_witness :
  exists r,
    nth_error nothing_records 2 = Some r /\
    actualRate r = PrimFloat.nan /\
    rule r = Inflation /\
    plannedRate r = number PrimFloat.nan.
Proof.
  eexists. split; [reflexivity|].
  pose proof (@zero_assets
                (App.initialAssets nothing)
                (App.initialWithdrawalRate nothing)
                (App.annualData nothing)
                (App.simulationYears nothing)
                nothing_records ltac:(computed) 2%nat _
                eq_refl eq_refl) as W.
  destruct W as (_ & _ & _ & Hrate & Hrule & Hplanned).
  split; [exact Hrate|]. split; [exact Hrule|exact Hplanned].
Defined.

(** After a return of 50 an inflation of 8 is capped to 6 and the
    prosperity guardrail triggers: the withdrawal of 50000 is raised to
    the bound, and not lowered. *)
Lemma withdrawal_change_bounded_witness :
  exists prev r,
    nth_error raised_records 0 = Some prev /\
    nth_error raised_records 1 = Some r /\
    rule r = Prosperity /\
    actualWithdrawal r
    = (actualWithdrawal prev * (1 + 6 / 100) * 1.1)%float /\
    (actualWithdrawal prev * (lit 1 + lit 6.0 / lit 100) * lit 1.1
       <? actualWithdrawal r) = false /\
    (actualWithdrawal r <? actualWithdrawal prev * lit 0.9) = false.
Proof.
  eexists. eexists. split; [reflexivity|]. split; [reflexivity|].
  split; [reflexivity|]. split; [reflexivity|].
  pose proof (@withdrawal_change_bounded
                (App.initialAssets raised)
                (App.initialWithdrawalRate raised)
                (App.annualData raised)
                (App.simulationYears raised)
                raised_records ltac:(computed) 0%nat _ _
                eq_refl eq_refl ltac:(computed)) as W.
  destruct W as [Hup Hdown]. split; [exact Hup|].
  apply Hdown. computed.
Defined.

End AtWork.
